(** * Great Expectations transformer for Kedro: a shallow embedding

    Source: [src/kedro/contrib/great_expectations_transformer/expectations_evaluator.py].

    The module is glue between a pipeline framework (Kedro) and a data
    validation library (Great Expectations).  Python dictionaries read from
    YAML/JSON are finite maps with string keys, Python exceptions are an
    error monad, and the file system, the logger and the order of the calls
    are an explicit world that every method threads.

    The file system is a tree of directories and files, and a path is read
    against it name by name, as the operating system reads it.  Neither
    library is modelled: what the module calls of them is a parameter of
    the embedding (the record [Env]), so that the theorems hold whatever the
    libraries do.  The sample runs use a small stand-in for the validation
    library, which the module [Sample] describes. *)

From Stdlib Require Import Ascii.
From stdpp Require Import gmap strings list fin_maps.

Set Warnings "-register-all".
Open Scope string_scope.
Open Scope list_scope.

(** ** Python values *)

(** The values that YAML and JSON documents hold.  JSON numbers are kept as
    integers: the only float of a validation result is the success
    percentage inside ["statistics"], which the source never inspects. *)
Inductive pyval :=
| PNone
| PBool (b : bool)
| PInt (z : Z)
| PStr (s : string)
| PList (l : list pyval)
| PDict (d : gmap string pyval).

(** Python truthiness, as used by [if v] and [not v]. *)
Definition truthy (v : pyval) : bool :=
  match v with
  | PNone => false
  | PBool b => b
  | PInt z => negb (z =? 0)%Z
  | PStr s => negb (String.eqb s "")
  | PList l => match l with [] => false | _ :: _ => true end
  | PDict d => match map_to_list d with [] => false | _ :: _ => true end
  end.

(** ** Exceptions and the error monad *)

(** An exception object: its class and the arguments it was built with.
    [raise C] with a bare class instantiates it with no arguments. *)
Inductive exn_class :=
| FailedValidationException
| KeyError
| TypeError
| IndexError
| FileNotFoundError
| FileExistsError
| NotADirectoryError
| IsADirectoryError
| SameFileError
| UnboundLocalError
| LibraryError.

Record exn := Exn { exn_cls : exn_class; exn_args : list pyval }.

Inductive result (A : Type) :=
| Ok (a : A)
| Raise (e : exn).
Arguments Ok {A} a.
Arguments Raise {A} e.

#[global] Instance result_ret : MRet result := @Ok.
#[global] Instance result_bind : MBind result := λ A B f r,
  match r with
  | Ok a => f a
  | Raise e => Raise e
  end.

(** [d[k]] on a dictionary. *)
Definition dict_getitem {V} (d : gmap string V) (k : string) : result V :=
  match d !! k with
  | Some v => Ok v
  | None => Raise (Exn KeyError [PStr k])
  end.

(** [v[k]] with a string subscript on an arbitrary value: only a dictionary
    can be subscripted by a string. *)
Definition getitem (v : pyval) (k : string) : result pyval :=
  match v with
  | PDict d => dict_getitem d k
  | _ => Raise (Exn TypeError [])
  end.

(** [d.keys()], [d.items()]. *)
Definition dict_keys {V} (d : gmap string V) : list string := (map_to_list d).*1.
Definition dict_items {V} (d : gmap string V) : list (string * V) := map_to_list d.

(** A dictionary comprehension [{key(x): val(x) for x in xs if cond(x)}]:
    the elements are visited in order, the condition is evaluated first and
    a later element overwrites an earlier one with the same key. *)
Fixpoint dict_comp {A V} (cond : A → result bool) (kv : A → result (string * V))
    (xs : list A) (acc : gmap string V) : result (gmap string V) :=
  match xs with
  | [] => Ok acc
  | x :: xs' =>
      b ← cond x;
      if b : bool then
        p ← kv x;
        dict_comp cond kv xs' (<[p.1 := p.2]> acc)
      else dict_comp cond kv xs' acc
  end.

(** ** Config scanners *)

(** The merged catalog configuration: dataset name to entry, an entry being
    a map from option name to value. *)
Abbreviation catalog_config := (gmap string (gmap string pyval)).

(** The part of the pipeline framework's context that the scanners use:
    [project_context.config_loader.get] applied to glob patterns. *)
Record ConfigLoader := { get : list string → result catalog_config }.
Record KedroContext := { config_loader : ConfigLoader }.

Definition get_names_and_expectations_suite (project_context : KedroContext)
    : result (gmap string pyval) :=
  catalog ← get (config_loader project_context) ["catalog*"; "catalog*/**"];
  let datasets := dict_keys catalog in
  suites ← dict_comp
    (λ name, entry ← dict_getitem catalog name;
             Ok (bool_decide ("expectations_suite" ∈ dict_keys entry)))
    (λ name, entry ← dict_getitem catalog name;
             suite ← dict_getitem entry "expectations_suite";
             Ok (name, suite))
    datasets ∅;
  Ok suites.

Definition remove_expectations_suite_from_catalog (project_context : KedroContext)
    : result catalog_config :=
  catalog ← get (config_loader project_context) ["catalog*"; "catalog*/**"];
  catalog ← dict_comp
    (λ _, Ok true)
    (λ name, entry ← dict_getitem catalog name;
             stripped ← dict_comp
               (λ kv : string * pyval, Ok (bool_decide (kv.1 ≠ "expectations_suite")))
               (λ kv, Ok kv)
               (dict_items entry) ∅;
             Ok (name, stripped))
    (dict_keys catalog) ∅;
  Ok catalog.

(** ** Paths ([pathlib.PurePosixPath]) *)

(** [s.split(c)]. *)
Fixpoint split_on (c : Ascii.ascii) (s : string) : list string :=
  match s with
  | EmptyString => [EmptyString]
  | String a s' =>
      if Ascii.eqb a c then EmptyString :: split_on c s'
      else match split_on c s' with
           | [] => [String a EmptyString]
           | h :: t => String a h :: t
           end
  end.

(** [sep.join(parts)]. *)
Fixpoint join_with (sep : string) (parts : list string) : string :=
  match parts with
  | [] => ""
  | [p] => p
  | p :: ps => p +:+ sep +:+ join_with sep ps
  end.

Fixpoint leading_slashes (s : string) : nat :=
  match s with
  | String a s' => if Ascii.eqb a "/"%char then S (leading_slashes s') else 0
  | EmptyString => 0
  end.

(** The root of a POSIX path: none, ["/"], or the ["//"] that POSIX keeps
    apart when a path starts with exactly two slashes. *)
Inductive anchor := Rel | Root1 | Root2.

Definition anchor_str (a : anchor) : string :=
  match a with Rel => "" | Root1 => "/" | Root2 => "//" end.

Record Path := MkPath { root : anchor; names : list string }.

(** [Path(s)]: empty and ["."] components are dropped. *)
Definition parse_path (s : string) : Path :=
  {| root := match leading_slashes s with
             | 0 => Rel
             | 2 => Root2
             | _ => Root1
             end;
     names := List.filter (λ n, negb (String.eqb n "") && negb (String.eqb n "."))
                (split_on "/"%char s) |}.

(** [p / q]: an absolute right operand replaces the left one. *)
Definition path_join (p q : Path) : Path :=
  match root q with
  | Rel => {| root := root p; names := names p ++ names q |}
  | _ => q
  end.

(** [p / s] for a string [s]. *)
Definition path_div (p : Path) (s : string) : Path := path_join p (parse_path s).
Infix "//" := path_div (at level 40, left associativity).

(** [str(p)]. *)
Definition path_str (p : Path) : string :=
  match root p, names p with
  | Rel, [] => "."
  | a, ns => anchor_str a +:+ join_with "/" ns
  end.

(** [p.parts]: the anchor, when there is one, is the first part. *)
Definition parts (p : Path) : list string :=
  match root p with
  | Rel => names p
  | a => anchor_str a :: names p
  end.

(** [xs[-1]]. *)
Definition last_item (xs : list string) : result string :=
  match last xs with
  | Some x => Ok x
  | None => Raise (Exn IndexError [])
  end.

(** [c in s]. *)
Fixpoint contains (c : Ascii.ascii) (s : string) : bool :=
  match s with
  | EmptyString => false
  | String a s' => Ascii.eqb a c || contains c s'
  end.

(** A single path component, as [Path] keeps it. *)
Definition plain (n : string) : Prop :=
  n ≠ "" ∧ n ≠ "." ∧ contains "/" n = false.

#[global] Instance plain_dec n : Decision (plain n).
Proof. unfold plain. apply _. Defined.

(** The invariant of [Path] objects. *)
Definition wf_path (p : Path) : Prop := Forall plain (names p).

(** A string that, read as a path, is relative and never steps back. *)
Definition descends (s : string) : Prop :=
  root (parse_path s) = Rel ∧ ".." ∉ names (parse_path s).

(** ** The file system *)

(** The validation tool's project configuration, as far as a run of the
    module shows it: the configured datasources, by name, and the rest. *)
Record project_config := {
  datasources : gmap string pyval;
  other_config : pyval
}.

Inductive content :=
| Bytes (s : string)            (* an uninterpreted file *)
| Json (v : pyval)              (* the JSON document of a value *)
| Yaml (cfg : project_config).  (* a project configuration file *)

(** A file system is a tree: a directory maps the names of its entries to
    files and directories.  Symbolic links, permissions and special files
    are not modelled.

    The operations on it are those of the operating system and of the
    Python standard library that the module calls ([Path.is_file],
    [Path.is_dir], [Path.iterdir], [Path.mkdir], [open], [shutil.copy]).
    They are no code of the repository; they are written after the POSIX
    calls and the standard library's own code, error classes included. *)
Inductive node :=
| File (c : content)
| Dir (entries : gmap string node).

(** The entries of the root directory. *)
Definition filesystem := gmap string node.

(** An entry is identified by the names on the way from the root to it. *)
Abbreviation fskey := (list string).

Fixpoint descend (n : node) (k : fskey) : option node :=
  match k with
  | [] => Some n
  | x :: k' =>
      match n with
      | Dir entries => entries !! x ≫= λ n', descend n' k'
      | File _ => None
      end
  end.

Definition node_at (fs : filesystem) (k : fskey) : option node := descend (Dir fs) k.

Definition is_dir (fs : filesystem) (k : fskey) : bool :=
  match node_at fs k with Some (Dir _) => true | _ => false end.

Definition is_file (fs : filesystem) (k : fskey) : bool :=
  match node_at fs k with Some (File _) => true | _ => false end.

(** The content of the file at [k], when there is a file. *)
Definition file_at (fs : filesystem) (k : fskey) : option content :=
  match node_at fs k with Some (File c) => Some c | _ => None end.

(** Putting [new] at [k], in a directory that exists. *)
Fixpoint put (k : fskey) (new : node) (n : node) : node :=
  match k with
  | [] => new
  | x :: k' =>
      match n with
      | Dir entries =>
          Dir (partial_alter (λ o, match k' with
                                   | [] => Some new
                                   | _ :: _ => put k' new <$> o
                                   end) x entries)
      | File _ => n
      end
  end.

Definition put_at (k : fskey) (new : node) (fs : filesystem) : filesystem :=
  match put k new (Dir fs) with
  | Dir entries => entries
  | File _ => fs
  end.

(** What an entry is, apart from what a directory holds; a file and an
    empty directory hold nothing. *)
Definition kind (o : option node) : option (option content) :=
  match o with
  | None => None
  | Some (File c) => Some (Some c)
  | Some (Dir _) => Some None
  end.

Definition leaf (n : node) : Prop := (∃ c, n = File c) ∨ n = Dir ∅.

Definition parent (k : fskey) : fskey := removelast k.

(** All the non-empty prefixes of a key, shortest first. *)
Fixpoint prefixes (k : fskey) : list fskey :=
  match k with
  | [] => []
  | n :: k' => [n] :: map (cons n) (prefixes k')
  end.

Definition raise {A} (c : exn_class) : result A := Raise (Exn c []).

(** How the operating system reads the names [ns] of a path, standing at
    the directory [cur]: a name is looked up in a directory that exists,
    and [".."] steps back from one.  The entry that the last name leads to
    need not exist. *)
Fixpoint walk (fs : filesystem) (cur : fskey) (ns : list string) : result fskey :=
  match ns with
  | [] => Ok cur
  | n :: ns' =>
      if is_dir fs cur then
        walk fs (if String.eqb n ".." then parent cur else cur ++ [n]) ns'
      else if is_file fs cur then raise NotADirectoryError
      else raise FileNotFoundError
  end.

(** [os.path.isdir], [os.path.isfile]: an error on the way counts as no. *)
Definition path_is_dir (fs : filesystem) (ns : list string) : bool :=
  match walk fs [] ns with
  | Ok k => is_dir fs k
  | Raise _ => false
  end.

Definition path_is_file (fs : filesystem) (ns : list string) : bool :=
  match walk fs [] ns with
  | Ok k => is_file fs k
  | Raise _ => false
  end.

(** [os.mkdir]. *)
Definition os_mkdir (fs : filesystem) (ns : list string) : result filesystem :=
  k ← walk fs [] ns;
  match node_at fs k with
  | Some _ => raise FileExistsError
  | None => Ok (put_at k (Dir ∅) fs)
  end.

Definition is_FileNotFoundError (e : exn) : bool :=
  match exn_cls e with FileNotFoundError => true | _ => false end.

(** [Path.mkdir(p, parents=True, exist_ok=True)], as [pathlib] does it: the
    directory is made; when an ancestor is missing the parent is made first,
    in the same way, and the directory is made then; any other error is
    passed over when the path is a directory by now.  The path is [base]
    (the root, or the working directory of a relative path) followed by its
    names, which [sn] lists backwards; a path without names is its own
    parent. *)
Fixpoint mkdir_parents (fs : filesystem) (base : fskey) (sn : list string)
    : result filesystem :=
  let ns := base ++ reverse sn in
  match os_mkdir fs ns with
  | Ok fs' => Ok fs'
  | Raise e =>
      if is_FileNotFoundError e then
        match sn with
        | [] => Raise e
        | _ :: sn' =>
            fs1 ← mkdir_parents fs base sn';
            match os_mkdir fs1 ns with
            | Ok fs2 => Ok fs2
            | Raise e' =>
                if is_FileNotFoundError e' then Raise e'
                else if path_is_dir fs1 ns then Ok fs1 else Raise e'
            end
        end
      else if path_is_dir fs ns then Ok fs else Raise e
  end.

(** [open(p, "w")], writing [c] and closing. *)
Definition open_w (fs : filesystem) (ns : list string) (c : content) : result filesystem :=
  k ← walk fs [] ns;
  if is_dir fs k then raise IsADirectoryError
  else Ok (put_at k (File c) fs).

(** [open(p, "rb")] and reading. *)
Definition open_r (fs : filesystem) (ns : list string) : result content :=
  k ← walk fs [] ns;
  match node_at fs k with
  | Some (File c) => Ok c
  | Some (Dir _) => raise IsADirectoryError
  | None => raise FileNotFoundError
  end.

(** [os.path.samefile], with an error counting as no, as [shutil] has it. *)
Definition samefile (fs : filesystem) (ns1 ns2 : list string) : bool :=
  match walk fs [] ns1, walk fs [] ns2 with
  | Ok k1, Ok k2 => bool_decide (k1 = k2) && bool_decide (is_Some (node_at fs k1))
  | _, _ => false
  end.

(** [shutil.copy(src, dst)]: into [dst] when it is a directory, under the
    base name of [src], which is [base_name]. *)
Definition shutil_copy (fs : filesystem) (src dst : list string) (base_name : list string)
    : result filesystem :=
  let dst' := if path_is_dir fs dst then dst ++ base_name else dst in
  if samefile fs src dst' then raise SameFileError
  else
    c ← open_r fs src;
    open_w fs dst' c.

(** [os.listdir]: the names of the entries of a directory. *)
Definition listdir (fs : filesystem) (ns : list string) : result (list string) :=
  k ← walk fs [] ns;
  match node_at fs k with
  | Some (Dir entries) => Ok (map_to_list entries).*1
  | Some (File _) => raise NotADirectoryError
  | None => raise FileNotFoundError
  end.

(** ** The world: file system, logger and library calls *)

Inductive level := INFO | WARNING | ERROR.

(** The log records of the module, one constructor per format string. *)
Inductive message :=
| MsgBuilding                                     (* "Building great_expectations directory..." *)
| MsgValidating (dataset suite_file : string)     (* "validating: {} against {} " *)
| MsgStatistics (statistics : pyval)              (* "{}" *)
| MsgFailed (failed : list (pyval * pyval)).      (* "Following expectations failed: {}" *)

(** What the module has done to its surroundings, in the order it did it:
    the calls it made and the changes of the file system that took place,
    each with the names that the operating system was given. *)
Inductive event :=
| EvCall                                           (* the wrapped load/save callable *)
| EvLog (logger : string) (lvl : level) (msg : message)
| EvMkdir (k : fskey)
| EvCopy (src dst : fskey)
| EvValidate (suite run_id : string) (catch_exceptions : bool) (result_format : string)
| EvDump (k : fskey) (v : pyval).

Record world := { w_fs : filesystem; w_trace : list event }.

(** Computations that change the world and may raise. *)
Definition M (A : Type) : Type := world → world * result A.

#[global] Instance M_ret : MRet M := λ A a w, (w, Ok a).
#[global] Instance M_bind : MBind M := λ A B f m w,
  match m w with
  | (w', Ok a) => f a w'
  | (w', Raise e) => (w', Raise e)
  end.

Definition emit (e : event) : M unit :=
  λ w, ({| w_fs := w_fs w; w_trace := w_trace w ++ [e] |}, Ok tt).

(** A pure, fallible computation that may read the file system. *)
Definition reading {A} (f : filesystem → result A) : M A := λ w, (w, f (w_fs w)).

(** A fallible update of the file system; a failure leaves it as it was. *)
Definition updating (f : filesystem → result filesystem) : M unit :=
  λ w, match f (w_fs w) with
       | Ok fs' => ({| w_fs := fs'; w_trace := w_trace w |}, Ok tt)
       | Raise e => (w, Raise e)
       end.

(** An update of the file system that is recorded once it has taken place. *)
Definition performing (e : event) (f : filesystem → result filesystem) : M unit :=
  _ ← updating f;
  emit e.

Definition lift {A} (r : result A) : M A := λ w, (w, r).

Definition log (logger : string) (lvl : level) (msg : message) : M unit :=
  emit (EvLog logger lvl msg).

(** ** Dictionaries with arbitrary hashable keys *)

Definition hashable (v : pyval) : bool :=
  match v with
  | PList _ | PDict _ => false
  | _ => true
  end.

(** [a == b] on hashable values ([True == 1] and [False == 0]). *)
Definition py_eqb (a b : pyval) : bool :=
  match a, b with
  | PNone, PNone => true
  | PBool x, PBool y => Bool.eqb x y
  | PBool x, PInt z | PInt z, PBool x => (z =? (if x then 1 else 0))%Z
  | PInt x, PInt y => (x =? y)%Z
  | PStr x, PStr y => String.eqb x y
  | _, _ => false
  end.

(** [d[k] = v] on an insertion-ordered dictionary: an existing key keeps
    its place and its first key object. *)
Fixpoint pydict_update (d : list (pyval * pyval)) (k v : pyval) : list (pyval * pyval) :=
  match d with
  | [] => [(k, v)]
  | (k', v') :: d' => if py_eqb k' k then (k', v) :: d' else (k', v') :: pydict_update d' k v
  end.

Definition pydict_setitem (d : list (pyval * pyval)) (k v : pyval)
    : result (list (pyval * pyval)) :=
  if hashable k then Ok (pydict_update d k v) else raise TypeError.

(** [{key(x): val(x) for x in xs if cond(x)}] with keys of any type; the
    key expression is evaluated before the value expression. *)
Fixpoint pydict_comp {A} (cond : A → result bool) (key val : A → result pyval)
    (xs : list A) (acc : list (pyval * pyval)) : result (list (pyval * pyval)) :=
  match xs with
  | [] => Ok acc
  | x :: xs' =>
      b ← cond x;
      if b : bool then
        k ← key x;
        v ← val x;
        acc' ← pydict_setitem acc k v;
        pydict_comp cond key val xs' acc'
      else pydict_comp cond key val xs' acc
  end.

Fixpoint string_chars (s : string) : list pyval :=
  match s with
  | EmptyString => []
  | String a s' => PStr (String a EmptyString) :: string_chars s'
  end.

(** [for x in v]: a dictionary yields its keys, a string its characters. *)
Definition py_iter (v : pyval) : result (list pyval) :=
  match v with
  | PList l => Ok l
  | PDict d => Ok (PStr <$> dict_keys d)
  | PStr s => Ok (string_chars s)
  | _ => raise TypeError
  end.

(** [v + suffix] for a string literal [suffix]. *)
Definition py_add_str (v : pyval) (suffix : string) : result string :=
  match v with
  | PStr s => Ok (s +:+ suffix)
  | _ => raise TypeError
  end.

(** [Path(v)]. *)
Definition Path_of (v : pyval) : result Path :=
  match v with
  | PStr s => Ok (parse_path s)
  | _ => raise TypeError
  end.

(** ** Validation results *)

(** The three expressions of the comprehension in [raise_on_failure], for
    one element [validation_result] of [validation["results"]]:
    [not validation_result["success"]],
    [validation_result["expectation_config"]["expectation_type"]] and
    [validation_result["expectation_config"]["kwargs"]["column"]]. *)
Definition result_failed (validation_result : pyval) : result bool :=
  success ← getitem validation_result "success";
  Ok (negb (truthy success)).

Definition result_expectation_type (validation_result : pyval) : result pyval :=
  config ← getitem validation_result "expectation_config";
  getitem config "expectation_type".

Definition result_column (validation_result : pyval) : result pyval :=
  config ← getitem validation_result "expectation_config";
  kwargs ← getitem config "kwargs";
  getitem kwargs "column".

(** The dictionary [failed_validations] of [raise_on_failure]. *)
Definition failed_validations (validation : pyval) : result (list (pyval * pyval)) :=
  results ← getitem validation "results";
  results ← py_iter results;
  pydict_comp result_failed result_expectation_type result_column results [].

(** The errors of subscripting and iterating. *)
Definition lookup_error (e : exn) : Prop :=
  exn_cls e = KeyError ∨ exn_cls e = TypeError.

(** A condition that an exception listing the failed expectations has to
    meet: where there is a failed expectation to list, the exception has an
    argument to list it in. *)
Definition exception_lists (e : exn) (failed : list (pyval * pyval)) : Prop :=
  ∀ k column, (k, column) ∈ failed → ∃ arg, arg ∈ exn_args e.

(** The shape that the validation library gives to one entry of
    ["results"]: a success flag and the expectation's configuration, with
    its type and its keyword arguments. *)
Definition expectation_result (r : pyval) (success : bool) (expectation_type : string)
    (kwargs : gmap string pyval) : Prop :=
  ∃ d config,
    r = PDict d ∧
    d !! "success" = Some (PBool success) ∧
    d !! "expectation_config" = Some (PDict config) ∧
    config !! "expectation_type" = Some (PStr expectation_type) ∧
    config !! "kwargs" = Some (PDict kwargs).

Definition well_formed_result (r : pyval) : Prop :=
  ∃ success expectation_type kwargs, expectation_result r success expectation_type kwargs.

(** A call into a library: it may change the file system and may raise;
    the module does not record it. *)
Definition library {A} (f : filesystem → filesystem * result A) : M A :=
  λ w, let '(fs', r) := f (w_fs w) in
       ({| w_fs := fs'; w_trace := w_trace w |}, r).

(** ** The two libraries *)

(** [NormalizedDataAssetName]. *)
Record NormalizedDataAssetName := {
  datasource : string;
  generator : string;
  generator_asset : string
}.

(** Neither the pipeline framework nor the validation library is part of
    the module: what the module calls of them is taken from the
    surroundings, for every behaviour they may have.  A [context] is the
    state of a [DataContext] object of the validation library. *)
Record Env {data dataset context : Type} := {
  (** [os.getcwd()] *)
  getcwd : string;
  (** [load_context(cwd).catalog.datasets.__dict__]: the attribute
      dictionary of every dataset, read from the project's files *)
  kedro_datasets : filesystem → result (gmap string (gmap string pyval));
  (** [DataContext.create(project_root_dir)] *)
  DataContext_create : Path → filesystem → filesystem * result context;
  (** [DataContext(context_root_dir)] *)
  DataContext : Path → filesystem → filesystem * result context;
  (** [context.root_directory] *)
  root_directory : context → string;
  (** [context.datasources.clear()], [list(context.datasources.keys())] *)
  datasources_clear : context → context;
  datasources_keys : context → list string;
  (** [context.add_datasource(name=name, **kwargs)] *)
  add_datasource :
    context → string → gmap string pyval → filesystem → filesystem * result context;
  (** [context._save_project_config()] *)
  _save_project_config : context → filesystem → filesystem * result unit;
  (** [context.normalize_data_asset_name(name)] *)
  normalize_data_asset_name :
    filesystem → context → string → result NormalizedDataAssetName;
  (** [PandasDataset(data)] *)
  PandasDataset : data → result dataset;
  (** [dataset.validate(expectation_suite, run_id, catch_exceptions, result_format)] *)
  validate : filesystem → dataset → string → string → bool → string → result pyval
}.
Arguments Env : clear implicits.

Section Integration.
Context {data dataset context : Type} (env : Env data dataset context).

(** [Path.cwd()]. *)
Definition Path_cwd : Path := parse_path (getcwd env).

(** The names that the operating system reads for a path: those of a
    relative path follow those of the working directory. *)
Definition base (p : Path) : fskey :=
  match root p with
  | Rel => names Path_cwd
  | _ => []
  end.

Definition abs (p : Path) : list string := base p ++ names p.

(** The same for the text of a path. *)
Definition os_path (s : string) : list string := abs (parse_path s).

(** [iterdir] yields [p / name] without parsing [name] again. *)
Definition path_child (p : Path) (name : string) : Path :=
  {| root := root p; names := names p ++ [name] |}.

(** [p.is_file()], [p.is_dir()], [p.iterdir()], [p.mkdir(parents=True,
    exist_ok=True)] and [open(p, "w")]. *)
Definition Path_is_file (fs : filesystem) (p : Path) : bool := path_is_file fs (abs p).
Definition Path_is_dir (fs : filesystem) (p : Path) : bool := path_is_dir fs (abs p).
Definition Path_iterdir (fs : filesystem) (p : Path) : result (list string) :=
  listdir fs (abs p).
Definition Path_mkdir (fs : filesystem) (p : Path) : result filesystem :=
  mkdir_parents fs (base p) (reverse (names p)).
Definition Path_write (fs : filesystem) (p : Path) (c : content) : result filesystem :=
  open_w fs (abs p) c.

(** *** [class ExpectationsSetup] *)

Definition create_ge_project : M unit :=
  marker ← reading (λ fs, Ok (Path_is_file fs
              (Path_cwd // "great_expectations" // "great_expectations.yml")));
  if marker : bool then mret tt
  else
    _ ← log "ExpectationsSetup" INFO MsgBuilding;
    _ ← library (DataContext_create env Path_cwd);
    mret tt.

Definition _ge_data_context : M context :=
  library (DataContext env (Path_cwd // "great_expectations")).

(** One entry of the generators dictionary. *)
Definition subdir_reader_generator (base_directory : string) : pyval :=
  PDict (<["class_name" := PStr "SubdirReaderGenerator"]>
        (<["base_directory" := PStr base_directory]>
        (<["reader_options" := PDict (<["sep" := PNone]> (<["engine" := PStr "python"]> ∅))]>
         ∅))).

Definition create_generators_on (fs : filesystem) : result (gmap string pyval) :=
  let top_directory := Path_cwd // "data" in
  children ← Path_iterdir fs top_directory;
  let n_directories :=
    List.filter (λ child, Path_is_dir fs (path_child top_directory child)) children in
  generators ←
    (if Nat.eqb (length n_directories) 0 then
       top_name ← last_item (parts top_directory);
       Ok (Some (<[top_name := subdir_reader_generator top_name]> ∅))
     else Ok None);
  generators ←
    (if Nat.ltb 0 (length n_directories) then
       children ← Path_iterdir fs top_directory;
       g ← dict_comp
         (λ child, Ok (Path_is_dir fs (path_child top_directory child)))
         (λ child,
            name ← last_item (parts (path_child top_directory child));
            Ok (name, subdir_reader_generator (path_str (parse_path "data" // name))))
         children ∅;
       Ok (Some g)
     else Ok generators);
  match generators with
  | Some g => Ok g
  | None => raise UnboundLocalError
  end.

Definition create_generators : M (gmap string pyval) := reading create_generators_on.

(** The keyword arguments of the [add_datasource] call, besides the name. *)
Definition data_datasource (generators : gmap string pyval) : gmap string pyval :=
  <["class_name" := PStr "PandasDatasource"]>
  (<["data_asset_type" := PDict (<["class_name" := PStr "PandasDataset"]> ∅)]>
  (<["generators" := PDict generators]> ∅)).

Definition setup_datasources : M unit :=
  context ← _ge_data_context;
  generators ← create_generators;
  let context := datasources_clear env context in
  context ← library (add_datasource env context "data" (data_datasource generators));
  library (_save_project_config env context).

(** [ExpectationsSetup()]. *)
Definition ExpectationsSetup : M unit :=
  _ ← create_ge_project;
  setup_datasources.

(** *** [class ExpectationsEvaluator] *)

Record ExpectationsEvaluator := {
  _expectations_suite : string;
  _run_id : string;
  _kedro_dataset_name : string;
  _break_on_failure : bool
}.

(** [ExpectationsEvaluator(kedro_dataset_name, expectations_suite="", run_id="",
    break_on_failure=True)]. *)
Definition ExpectationsEvaluator_init (kedro_dataset_name : string)
    (expectations_suite run_id : option string) (break_on_failure : option bool)
    : ExpectationsEvaluator :=
  {| _expectations_suite := default "" expectations_suite;
     _run_id := default "" run_id;
     _kedro_dataset_name := kedro_dataset_name;
     _break_on_failure := default true break_on_failure |}.

Variable self : ExpectationsEvaluator.

Definition logger (lvl : level) (msg : message) : M unit :=
  log "ExpectationsEvaluator" lvl msg.

Definition expectations_suite : string := _expectations_suite self.
Definition run_id : string := _run_id self.
Definition kedro_dataset_name : string := _kedro_dataset_name self.
Definition break_on_failure : bool := _break_on_failure self.

Definition ge_data_context : M context :=
  library (DataContext env (Path_cwd // "great_expectations")).

Definition kedro_dataset_path : M pyval :=
  datasets ← reading (kedro_datasets env);
  attributes ← lift (dict_getitem datasets kedro_dataset_name);
  lift (dict_getitem attributes "_filepath").

Definition raise_on_failure (validation : pyval) : M unit :=
  warn ← lift (if negb break_on_failure
               then success ← getitem validation "success"; Ok (negb (truthy success))
               else Ok false);
  _ ← (if warn : bool then
         statistics ← lift (getitem validation "statistics");
         logger WARNING (MsgStatistics statistics)
       else mret tt);
  success ← lift (getitem validation "success");
  _ ← (if truthy success then
         statistics ← lift (getitem validation "statistics");
         logger INFO (MsgStatistics statistics)
       else mret tt);
  break ← lift (if break_on_failure
                then success ← getitem validation "success"; Ok (negb (truthy success))
                else Ok false);
  if break : bool then
    failed_validations ← lift (failed_validations validation);
    _ ← logger ERROR (MsgFailed failed_validations);
    lift (raise FailedValidationException)
  else mret tt.

Definition get_ge_datasources : M (list string) :=
  context ← ge_data_context;
  mret (datasources_keys env context).

Definition normalize_data_asset (ge_data_asset : pyval) : M NormalizedDataAssetName :=
  context ← ge_data_context;
  potential_path ← lift (Path_of ge_data_asset);
  reading (λ fs, normalize_data_asset_name env fs context (path_str potential_path)).

Definition copy_expectations_to_great_expectations (path_to_expectations : string)
    : M unit :=
  data_set_path ← kedro_dataset_path;
  normalized_data_asset ← normalize_data_asset data_set_path;
  context ← ge_data_context;
  let root_directory := root_directory env context in
  let path_to_expectations := parse_path expectations_suite in
  expectations_suite_filename ← lift (last_item (parts path_to_expectations));
  let expectations_copy_path :=
    parse_path root_directory
    // "expectations"
    // datasource normalized_data_asset
    // generator normalized_data_asset
    // generator_asset normalized_data_asset in
  _ ← performing (EvMkdir (abs expectations_copy_path))
        (λ fs, Path_mkdir fs expectations_copy_path);
  let src := path_str path_to_expectations in
  let dst := path_str (expectations_copy_path // expectations_suite_filename) in
  performing (EvCopy (os_path src) (os_path dst))
    (λ fs, shutil_copy fs (os_path src) (os_path dst)
             (option_list (last (names (parse_path src))))).

Definition save_validations (validation : pyval) : M unit :=
  context ← ge_data_context;
  let root_directory := root_directory env context in
  data_set_path ← kedro_dataset_path;
  normalized_data_asset ← normalize_data_asset data_set_path;
  expectations_suite_name ← lift (meta ← getitem validation "meta";
                                  getitem meta "expectation_suite_name");
  validations_file_name ← lift (py_add_str expectations_suite_name ".json");
  let validations_location :=
    parse_path root_directory
    // "uncommitted"
    // "validations"
    // run_id
    // datasource normalized_data_asset
    // generator normalized_data_asset
    // generator_asset normalized_data_asset in
  _ ← performing (EvMkdir (abs validations_location))
        (λ fs, Path_mkdir fs validations_location);
  let file := validations_location // validations_file_name in
  performing (EvDump (abs file) validation) (λ fs, Path_write fs file (Json validation)).

(** The validation call of [load] and [save]. *)
Definition validate_suite (expectations_data : dataset) : M pyval :=
  _ ← emit (EvValidate expectations_suite run_id true "COMPLETE");
  reading (λ fs, validate env fs expectations_data expectations_suite run_id true "COMPLETE").

(** Running the callable that the pipeline framework hands over. *)
Definition call {A} (f : filesystem → filesystem * result A) : M A :=
  λ w, let '(fs', r) := f (w_fs w) in
       ({| w_fs := fs'; w_trace := w_trace w ++ [EvCall] |}, r).

Definition log_validating : M unit :=
  suite_file ← lift (last_item (parts (parse_path expectations_suite)));
  logger INFO (MsgValidating kedro_dataset_name suite_file).

Definition load (data_set_name : string) (load : filesystem → filesystem * result data)
    : M data :=
  data ← call load;
  expectations_data ← lift (PandasDataset env data);
  _ ← copy_expectations_to_great_expectations expectations_suite;
  _ ← log_validating;
  validation ← validate_suite expectations_data;
  _ ← save_validations validation;
  _ ← raise_on_failure validation;
  mret data.

Definition save (data_set_name : string)
    (save : data → filesystem → filesystem * result unit) (data : data) : M unit :=
  _ ← call (save data);
  _ ← copy_expectations_to_great_expectations expectations_suite;
  expectations_data ← lift (PandasDataset env data);
  _ ← log_validating;
  validation ← validate_suite expectations_data;
  _ ← save_validations validation;
  raise_on_failure validation.

End Integration.

(** ** What the claims speak of *)

(** The steps of a load or save call of the transformer. *)
Inductive step :=
| StepCall
| StepCopy
| StepValidate (result_format : string)
| StepSerialize
| StepPolicy.

Definition step_of (e : event) : option step :=
  match e with
  | EvCall => Some StepCall
  | EvCopy _ _ => Some StepCopy
  | EvValidate _ _ _ result_format => Some (StepValidate result_format)
  | EvDump _ _ => Some StepSerialize
  | EvLog _ _ (MsgStatistics _) | EvLog _ _ (MsgFailed _) => Some StepPolicy
  | _ => None
  end.

Definition steps (es : list event) : list step := omap step_of es.

Definition transformer_order : list step :=
  [StepCall; StepCopy; StepValidate "COMPLETE"; StepSerialize; StepPolicy].

Definition is_ok {A} (r : result A) : Prop :=
  match r with Ok _ => True | Raise _ => False end.

(** The exception of the failure policy. *)
Definition fails_validation {A} (r : result A) : Prop :=
  ∃ args, r = Raise (Exn FailedValidationException args).

(** A computation goes through the steps [full], in this order: whatever
    the world, the steps it has taken when it ends are the first of [full],
    and all of [full] when it ends without an exception. *)
Definition emits {A} (m : M A) (full : list step) : Prop :=
  ∀ w, ∃ new,
    w_trace (m w).1 = w_trace w ++ new ∧
    steps new `prefix_of` full ∧
    (is_ok (m w).2 → steps new = full).

(** A computation that never ends in the exception of the failure policy. *)
Definition never_fails_validation {A} (m : M A) : Prop :=
  ∀ w, ¬ fails_validation (m w).2.

(** What it is for a load or save call, started in the world [w] with a
    wrapped callable that does [called] there and ending as [out], to take
    its steps in order: the callable runs first, on the file system as it
    was, and its exception ends the call at once; the steps taken are the
    first of the five, in their order; and a call that returns, or that ends
    in the exception of the failure policy after the callable has returned,
    has taken all five, the result that it serialized being in its file by
    then. *)
Definition runs_in_order {A B} (w : world) (called : filesystem * result B)
    (out : world * result A) : Prop :=
  ∃ rest,
    w_trace out.1 = w_trace w ++ EvCall :: rest ∧
    (∀ e, called.2 = Raise e →
          out = ({| w_fs := called.1; w_trace := w_trace w ++ [EvCall] |}, Raise e)) ∧
    steps (EvCall :: rest) `prefix_of` transformer_order ∧
    (is_ok called.2 → is_ok out.2 ∨ fails_validation out.2 →
     steps (EvCall :: rest) = transformer_order ∧
     ∃ file validation,
       EvDump file validation ∈ rest ∧
       open_r (w_fs out.1) file = Ok (Json validation)).

Section Surroundings.
Context {data dataset context : Type} (env : Env data dataset context).

(** The project marker file. *)
Definition ge_marker : Path :=
  Path_cwd env // "great_expectations" // "great_expectations.yml".

(** The root directory of the validation tool's project, as the context
    gives it. *)
Definition ge_root (ctx : context) : fskey := names (parse_path (root_directory env ctx)).

(** The validation tool's project is in place: building its context
    yields [ctx] and changes nothing in the file system (the project has
    all that the tool keeps in it), the root directory of [ctx] is an
    absolute path that does not step back, the dataset of the transformer
    has the file path [filepath], and the tool normalizes that path to
    [asset]. *)
Definition project_ready (self : ExpectationsEvaluator) (fs : filesystem)
    (ctx : context) (filepath : string) (asset : NormalizedDataAssetName) : Prop :=
  DataContext env (Path_cwd env // "great_expectations") fs = (fs, Ok ctx) ∧
  (root (parse_path (root_directory env ctx)) ≠ Rel ∧ ".." ∉ ge_root ctx) ∧
  (∃ datasets attributes,
     kedro_datasets env fs = Ok datasets ∧
     datasets !! _kedro_dataset_name self = Some attributes ∧
     attributes !! "_filepath" = Some (PStr filepath)) ∧
  normalize_data_asset_name env fs ctx (path_str (parse_path filepath)) = Ok asset.

(** The directory of a normalized data asset under [base]. *)
Definition asset_dir (base : fskey) (asset : NormalizedDataAssetName) : fskey :=
  base ++ names (parse_path (datasource asset))
       ++ names (parse_path (generator asset))
       ++ names (parse_path (generator_asset asset)).

Definition asset_descends (asset : NormalizedDataAssetName) : Prop :=
  descends (datasource asset) ∧ descends (generator asset) ∧
  descends (generator_asset asset).

(** The data directory of the pipeline. *)
Definition data_dir : fskey := abs env (Path_cwd env // "data").

(** No file stands where the directory [k] or one of its ancestors is to be. *)
Definition unobstructed (fs : filesystem) (k : fskey) : Prop :=
  ∀ k', k' ∈ prefixes k → is_file fs k' = false.

(** The file of the validation result of a run, an asset and a suite. *)
Definition validation_file (ctx : context) (run_id : string)
    (asset : NormalizedDataAssetName) (suite : string) : fskey :=
  asset_dir (ge_root ctx ++ ["uncommitted"; "validations"] ++ names (parse_path run_id))
    asset ++ [suite +:+ ".json"].

(** Neither library raises the exception of the failure policy, which is
    the module's own. *)
Definition libraries_raise_their_own : Prop :=
  (∀ fs, ¬ fails_validation (kedro_datasets env fs)) ∧
  (∀ p fs, ¬ fails_validation (DataContext env p fs).2) ∧
  (∀ fs ctx name, ¬ fails_validation (normalize_data_asset_name env fs ctx name)) ∧
  (∀ d, ¬ fails_validation (PandasDataset env d)) ∧
  (∀ fs d suite run catch format, ¬ fails_validation (validate env fs d suite run catch format)).
End Surroundings.

(** Whether the entry [n] of the directory [entries] is a directory. *)
Definition subdirectory (entries : gmap string node) (n : string) : bool :=
  match entries !! n with Some (Dir _) => true | _ => false end.

(** The world after one more record of the transformer's logger. *)
Definition logged (w : world) (lvl : level) (msg : message) : world :=
  {| w_fs := w_fs w;
     w_trace := w_trace w ++ [EvLog "ExpectationsEvaluator" lvl msg] |}.

(** [d.get(k)] on an insertion-ordered dictionary. *)
Fixpoint pydict_lookup (d : list (pyval * pyval)) (k : pyval) : option pyval :=
  match d with
  | [] => None
  | (k', v) :: d' => if py_eqb k' k then Some v else pydict_lookup d' k
  end.

(** The column of the last entry of the results that failed with the
    expectation type [ty]. *)
Fixpoint last_failed_column (rs : list pyval) (ty : string) : option pyval :=
  match rs with
  | [] => None
  | r :: rs' =>
      match last_failed_column rs' ty with
      | Some column => Some column
      | None =>
          match result_failed r, result_expectation_type r, result_column r with
          | Ok true, Ok k, Ok column => if py_eqb k (PStr ty) then Some column else None
          | _, _, _ => None
          end
      end
  end.

(** ** A sample project *)

Module Sample.

(** One entry of ["results"] for an expectation on a column, and one for
    an expectation on the whole table, which has no ["column"] argument. *)
Definition column_result (success : bool) (expectation_type column : string) : pyval :=
  PDict {[ "success" := PBool success;
           "expectation_config" :=
             PDict {[ "expectation_type" := PStr expectation_type;
                      "kwargs" := PDict {[ "column" := PStr column ]} ]} ]}.

Definition table_result (success : bool) (expectation_type : string) (value : Z) : pyval :=
  PDict {[ "success" := PBool success;
           "expectation_config" :=
             PDict {[ "expectation_type" := PStr expectation_type;
                      "kwargs" := PDict {[ "value" := PInt value ]} ]} ]}.

Definition validation_of (success : bool) (results : list pyval) : pyval :=
  PDict {[ "success" := PBool success;
           "statistics" := PDict {[ "evaluated_expectations" := PInt 2;
                                    "successful_expectations" := PInt (if success then 2 else 1) ]};
           "results" := PList results;
           "meta" := PDict {[ "expectation_suite_name" := PStr "default";
                              "run_id" := PStr "run1" ]} ]}.

Definition passing : pyval :=
  validation_of true
    [column_result true "expect_column_to_exist" "mpg";
     column_result true "expect_column_values_to_not_be_null" "mpg"].

Definition column_failure : pyval :=
  validation_of false
    [column_result true "expect_column_to_exist" "mpg";
     column_result false "expect_column_values_to_not_be_null" "mpg"].

Definition table_failure : pyval :=
  validation_of false
    [column_result true "expect_column_to_exist" "mpg";
     table_result false "expect_table_row_count_to_equal" 32].

Definition mixed_failure : pyval :=
  validation_of false
    [column_result false "expect_column_values_to_not_be_null" "mpg";
     table_result false "expect_table_row_count_to_equal" 32;
     column_result false "expect_column_values_to_be_unique" "name"].

Definition strict : ExpectationsEvaluator :=
  ExpectationsEvaluator_init "cars" (Some "conf/base/expectations/cars.json")
    (Some "run1") None.

Definition lenient : ExpectationsEvaluator :=
  ExpectationsEvaluator_init "cars" (Some "conf/base/expectations/cars.json")
    (Some "run1") (Some false).

Definition catalog : catalog_config :=
  {[ "cars" := {[ "type" := PStr "CSVLocalDataSet";
                  "filepath" := PStr "data/01_raw/cars.csv";
                  "expectations_suite" := PStr "conf/base/expectations/cars.json" ]};
     "boats" := {[ "type" := PStr "CSVLocalDataSet";
                   "filepath" := PStr "data/01_raw/boats.csv" ]} ]}.

Definition project_context : KedroContext :=
  {| config_loader := {| get := λ _, Ok catalog |} |}.

Definition nothing_logged : world := {| w_fs := ∅; w_trace := [] |}.

(** *** A stand-in for the validation library

    The validation library is no code of the repository, and the theorems
    about the module quantify over it.  The sample runs need one library to
    run against.  This stand-in keeps to what the validation tool does on
    them: a context is built from the project's [great_expectations.yml],
    which makes the directories of the stores when they are missing and
    builds every configured datasource, failing on one that it cannot
    build; [context.datasources] is the dictionary of the datasources that
    are built, not the configuration; [add_datasource] enters the
    datasource in the configuration, builds it and saves the configuration;
    creating a project needs its root directory and puts the directories
    and the ten files of the tool's template there. *)

Definition project_dir : fskey := ["home"; "kedro"; "project"].

Record context := {
  ctx_root : string;
  ctx_config : project_config;
  ctx_built : list string
}.

Definition lib_abs (p : Path) : list string :=
  match root p with
  | Rel => project_dir ++ names p
  | _ => names p
  end.

Definition config_of (ctx : context) : list string :=
  lib_abs (parse_path (ctx_root ctx)) ++ ["great_expectations.yml"].

(** The datasources that the stand-in can build. *)
Definition buildable (config : pyval) : bool :=
  match config with
  | PDict d =>
      match d !! "class_name" with
      | Some (PStr c) => String.eqb c "PandasDatasource"
      | _ => false
      end
  | _ => false
  end.

Definition library_error {A} : result A := Raise (Exn LibraryError []).

Definition lib_mkdir (fs : filesystem) (ns : list string) : result filesystem :=
  mkdir_parents fs [] (reverse ns).

Definition build_context (p : Path) (fs : filesystem) : filesystem * result context :=
  match open_r fs (lib_abs p ++ ["great_expectations.yml"]) with
  | Ok (Yaml cfg) =>
      match (fs1 ← lib_mkdir fs (lib_abs p ++ ["expectations"]);
             lib_mkdir fs1 (lib_abs p ++ ["uncommitted"; "validations"])) with
      | Ok fs2 =>
          if forallb buildable (map_to_list (datasources cfg)).*2
          then (fs2, Ok {| ctx_root := path_str p;
                           ctx_config := cfg;
                           ctx_built := dict_keys (datasources cfg) |})
          else (fs2, library_error)
      | Raise e => (fs, Raise e)
      end
  | _ => (fs, library_error)
  end.

Definition save_config (ctx : context) (fs : filesystem) : filesystem * result unit :=
  match open_w fs (config_of ctx) (Yaml (ctx_config ctx)) with
  | Ok fs' => (fs', Ok tt)
  | Raise e => (fs, Raise e)
  end.

Definition add (ctx : context) (name : string) (kwargs : gmap string pyval)
    (fs : filesystem) : filesystem * result context :=
  if buildable (PDict kwargs) then
    let ctx' :=
      {| ctx_root := ctx_root ctx;
         ctx_config := {| datasources := <[name := PDict kwargs]> (datasources (ctx_config ctx));
                          other_config := other_config (ctx_config ctx) |};
         ctx_built := if bool_decide (name ∈ ctx_built ctx) then ctx_built ctx
                      else ctx_built ctx ++ [name] |} in
    match save_config ctx' fs with
    | (fs', Ok _) => (fs', Ok ctx')
    | (fs', Raise e) => (fs', Raise e)
    end
  else (fs, library_error).

(** A name of three parts is normalized to them when the first is a
    configured datasource and the second one of its generators. *)
Definition normalize (fs : filesystem) (ctx : context) (name : string)
    : result NormalizedDataAssetName :=
  match split_on "/" name with
  | [d; g; a] =>
      match datasources (ctx_config ctx) !! d with
      | Some (PDict config) =>
          match config !! "generators" with
          | Some (PDict generators) =>
              if bool_decide (is_Some (generators !! g))
              then Ok {| datasource := d; generator := g; generator_asset := a |}
              else library_error
          | _ => library_error
          end
      | _ => library_error
      end
  | _ => library_error
  end.

(** The files that the tool puts into a new project, besides its
    configuration. *)
Definition template_files : list (list string) :=
  [ [".gitignore"];
    ["uncommitted"; "config_variables.yml"];
    ["notebooks"; "pandas"; "create_expectations.ipynb"];
    ["notebooks"; "pandas"; "validation_playground.ipynb"];
    ["notebooks"; "spark"; "create_expectations.ipynb"];
    ["notebooks"; "spark"; "validation_playground.ipynb"];
    ["notebooks"; "sql"; "create_expectations.ipynb"];
    ["notebooks"; "sql"; "validation_playground.ipynb"];
    ["plugins"; "custom_data_docs"; "styles"; "data_docs_custom_styles.css"] ].

Definition template_directories : list (list string) :=
  [ ["expectations"];
    ["notebooks"; "pandas"]; ["notebooks"; "spark"]; ["notebooks"; "sql"];
    ["plugins"; "custom_data_docs"; "renderers"];
    ["plugins"; "custom_data_docs"; "styles"];
    ["plugins"; "custom_data_docs"; "views"];
    ["uncommitted"; "data_docs"]; ["uncommitted"; "samples"];
    ["uncommitted"; "validations"] ].

Definition default_config : project_config :=
  {| datasources := ∅; other_config := PDict ∅ |}.

Definition create (p : Path) (fs : filesystem) : filesystem * result context :=
  let ge := lib_abs p ++ ["great_expectations"] in
  if path_is_dir fs (lib_abs p) then
    match (fs1 ← foldl (λ r d, fs' ← r; lib_mkdir fs' (ge ++ d)) (Ok fs) template_directories;
           fs2 ← (if path_is_file fs1 (ge ++ ["great_expectations.yml"]) then Ok fs1
                  else open_w fs1 (ge ++ ["great_expectations.yml"]) (Yaml default_config));
           foldl (λ r f, fs' ← r;
                         if path_is_file fs' (ge ++ f) then Ok fs'
                         else open_w fs' (ge ++ f) (Bytes ""))
             (Ok fs2) template_files) with
    | Ok fs3 => build_context (p // "great_expectations") fs3
    | Raise e => (fs, Raise e)
    end
  else (fs, library_error).

(** The surroundings: a project in [/home/kedro/project] whose dataset
    [cars] is read from [data/01_raw/cars.csv], and a validation that finds
    a failure in one column. *)
Definition env : Env unit unit context :=
  {| getcwd := "/home/kedro/project";
     kedro_datasets := λ _,
       Ok {[ "cars" := {[ "_filepath" := PStr "data/01_raw/cars.csv" ]} ]};
     DataContext_create := create;
     DataContext := build_context;
     root_directory := ctx_root;
     datasources_clear := λ ctx,
       {| ctx_root := ctx_root ctx; ctx_config := ctx_config ctx; ctx_built := [] |};
     datasources_keys := ctx_built;
     add_datasource := add;
     _save_project_config := save_config;
     normalize_data_asset_name := normalize;
     PandasDataset := λ _, Ok tt;
     validate := λ _ _ _ _ _ _, Ok column_failure |}.

(** *** The files of the project *)

Definition suite_file : fskey := project_dir ++ ["conf"; "base"; "expectations"; "cars.json"].

(** The configuration that the setup helper leaves in a new project. *)
Definition data_config : project_config :=
  {| datasources :=
       {[ "data" := PDict (data_datasource
            {[ "01_raw" := subdir_reader_generator "data/01_raw";
               "02_intermediate" := subdir_reader_generator "data/02_intermediate" ]}) ]};
     other_config := PDict ∅ |}.

(** A configuration with a datasource of its own. *)
Definition legacy_config : project_config :=
  {| datasources :=
       {[ "legacy" := PDict {[ "class_name" := PStr "PandasDatasource";
                               "generators" := PDict ∅ ]} ]};
     other_config := PDict ∅ |}.

(** The project with the configuration [cfg] and the entries [more] in its
    [great_expectations] directory, besides the directories of the
    stores. *)
Definition project_with (cfg : project_config) (data : gmap string node)
    (uncommitted : node) : filesystem :=
  {[ "home" := Dir {[ "kedro" := Dir {[ "project" := Dir
       {[ "conf" := Dir {[ "base" := Dir {[ "expectations" :=
            Dir {[ "cars.json" := File (Bytes "{}") ]} ]} ]};
          "data" := Dir data;
          "great_expectations" :=
            Dir {[ "great_expectations.yml" := File (Yaml cfg);
                   "expectations" := Dir ∅;
                   "uncommitted" := uncommitted ]} ]} ]} ]} ]}.

Definition data_files : gmap string node :=
  {[ "01_raw" := Dir {[ "cars.csv" := File (Bytes "mpg,name") ]};
     "02_intermediate" := Dir ∅ ]}.

Definition project_files : filesystem :=
  project_with data_config data_files (Dir {[ "validations" := Dir ∅ ]}).

Definition project : world := {| w_fs := project_files; w_trace := [] |}.

(** The same project just after its initialization by the validation
    tool, without any datasource. *)
Definition initialized : world :=
  {| w_fs := project_with default_config data_files (Dir {[ "validations" := Dir ∅ ]});
     w_trace := [] |}.

(** The same project with a datasource that was configured by hand. *)
Definition legacy_project : world :=
  {| w_fs := project_with legacy_config data_files (Dir {[ "validations" := Dir ∅ ]});
     w_trace := [] |}.

Definition cars_asset : NormalizedDataAssetName :=
  {| datasource := "data"; generator := "01_raw"; generator_asset := "cars.csv" |}.

(** The context of the sample project. *)
Definition project_ctx : context :=
  {| ctx_root := "/home/kedro/project/great_expectations";
     ctx_config := data_config;
     ctx_built := ["data"] |}.

End Sample.

(** ** Further cases of the sample project *)

Module Cases.

(** A transformer built with the defaults of its constructor. *)
Definition defaults : ExpectationsEvaluator :=
  ExpectationsEvaluator_init "cars" None None None.

(** The same expectation failing on two columns. *)
Definition two_columns : pyval :=
  Sample.validation_of false
    [Sample.column_result false "expect_column_values_to_not_be_null" "mpg";
     Sample.column_result true "expect_column_to_exist" "name";
     Sample.column_result false "expect_column_values_to_not_be_null" "name"].

(** A validation result without its success flag, and a passing one
    without its statistics. *)
Definition no_success : pyval :=
  PDict {[ "statistics" := PDict ∅; "results" := PList [] ]}.

Definition no_statistics : pyval :=
  PDict {[ "success" := PBool true; "results" := PList [] ]}.

(** A validation result without metadata. *)
Definition no_meta : pyval :=
  PDict {[ "success" := PBool true; "statistics" := PDict ∅; "results" := PList [] ]}.

(** The next run of the pipeline on the sample project. *)
Definition second_run : ExpectationsEvaluator :=
  ExpectationsEvaluator_init "cars" (Some "conf/base/expectations/cars.json")
    (Some "run2") None.

(** A transformer whose suite file does not exist. *)
Definition missing_suite : ExpectationsEvaluator :=
  ExpectationsEvaluator_init "cars" (Some "conf/base/expectations/boats.json")
    (Some "run1") None.

(** The surroundings of a dataset that is kept in memory: it has no file path. *)
Definition memory_env : Env unit unit Sample.context :=
  {| getcwd := getcwd Sample.env;
     kedro_datasets := λ _, Ok {[ "cars" := {[ "_data" := PNone ]} ]};
     DataContext_create := DataContext_create Sample.env;
     DataContext := DataContext Sample.env;
     root_directory := root_directory Sample.env;
     datasources_clear := datasources_clear Sample.env;
     datasources_keys := datasources_keys Sample.env;
     add_datasource := add_datasource Sample.env;
     _save_project_config := _save_project_config Sample.env;
     normalize_data_asset_name := normalize_data_asset_name Sample.env;
     PandasDataset := PandasDataset Sample.env;
     validate := validate Sample.env |}.

(** The surroundings of the sample project for data that are plain values. *)
Definition values_env : Env pyval unit Sample.context :=
  {| getcwd := getcwd Sample.env;
     kedro_datasets := kedro_datasets Sample.env;
     DataContext_create := DataContext_create Sample.env;
     DataContext := DataContext Sample.env;
     root_directory := root_directory Sample.env;
     datasources_clear := datasources_clear Sample.env;
     datasources_keys := datasources_keys Sample.env;
     add_datasource := add_datasource Sample.env;
     _save_project_config := _save_project_config Sample.env;
     normalize_data_asset_name := normalize_data_asset_name Sample.env;
     PandasDataset := λ _, Ok tt;
     validate := validate Sample.env |}.

(** The sample project without its data directory, which is a file here. *)
Definition no_data_dir : filesystem :=
  <["home" := Dir {[ "kedro" := Dir {[ "project" := Dir
       {[ "data" := File (Bytes "");
          "great_expectations" :=
            Dir {[ "great_expectations.yml" := File (Yaml Sample.data_config);
                   "expectations" := Dir ∅;
                   "uncommitted" := Dir {[ "validations" := Dir ∅ ]} ]} ]} ]} ]}]> ∅.

(** The sample project with a file where the directory of the run is to be. *)
Definition obstructed : filesystem :=
  Sample.project_with Sample.data_config Sample.data_files
    (Dir {[ "validations" := Dir {[ "run1" := File (Bytes "") ]} ]}).

(** The sample project with the result of an earlier run in it. *)
Definition after_first_run : filesystem :=
  Sample.project_with Sample.data_config Sample.data_files
    (Dir {[ "validations" := Dir {[ "run1" := Dir {[ "data" := Dir {[ "01_raw" :=
       Dir {[ "cars.csv" := Dir {[ "default.json" := File (Json Sample.passing) ]} ]} ]} ]} ]} ]}).

(** A transformer whose suite path leads through a file. *)
Definition suite_below_file : ExpectationsEvaluator :=
  ExpectationsEvaluator_init "cars" (Some "data/01_raw/cars.csv/x.json")
    (Some "run1") None.

(** The project of the pipeline before the validation tool is set up in it. *)
Definition new_project : filesystem :=
  {[ "home" := Dir {[ "kedro" := Dir {[ "project" := Dir
       {[ "conf" := Dir {[ "base" := Dir {[ "expectations" :=
            Dir {[ "cars.json" := File (Bytes "{}") ]} ]} ]};
          "data" := Dir Sample.data_files ]} ]} ]} ]}.

End Cases.

(** * Properties *)

Ltac run :=
  repeat (progress (unfold mbind, M_bind, mret, M_ret, lift, reading, performing, updating, emit,
                     logger, log, raise; cbn)).

(** Closing an equation between closed terms by evaluating both sides. *)
Ltac by_evaluating :=
  match goal with |- ?x = _ => vm_cast_no_check (@eq_refl _ x) end.

(** Closing a decidable proposition about closed terms by deciding it. *)
Ltac by_computing := apply (bool_decide_unpack _); vm_compute; exact I.

(** ** Dictionaries and comprehensions *)

Lemma elem_of_dict_keys {V} (d : gmap string V) (k : string) :
  k ∈ dict_keys d ↔ is_Some (d !! k).
Proof.
  unfold dict_keys. rewrite list_elem_of_fmap. split.
  - intros [[k' v] [-> Hin]]. apply elem_of_map_to_list in Hin. eauto.
  - intros [v Hv]. exists (k, v). split; [done|]. by apply elem_of_map_to_list.
Qed.

Lemma dict_getitem_Some {V} (d : gmap string V) k v :
  d !! k = Some v → dict_getitem d k = Ok v.
Proof. unfold dict_getitem. by intros ->. Qed.

Lemma dict_getitem_None {V} (d : gmap string V) k :
  d !! k = None → dict_getitem d k = Raise (Exn KeyError [PStr k]).
Proof. unfold dict_getitem. by intros ->. Qed.

(** A comprehension keyed by the elements it runs over, whose condition and
    value cannot fail on them. *)
Lemma dict_comp_by_name {V} (cond : string → result bool)
    (kv : string → result (string * V)) (c : string → bool) (f : string → V) xs acc :
  (∀ x, x ∈ xs → cond x = Ok (c x)) →
  (∀ x, x ∈ xs → c x = true → kv x = Ok (x, f x)) →
  ∃ m, dict_comp cond kv xs acc = Ok m ∧
       ∀ k, m !! k = if bool_decide (k ∈ xs) && c k then Some (f k) else acc !! k.
Proof.
  revert acc. induction xs as [|x xs IH]; intros acc Hc Hkv.
  - exists acc. split; [done|]. intros k.
    rewrite bool_decide_eq_false_2; [done|]. apply not_elem_of_nil.
  - cbn [dict_comp]. rewrite Hc by left. cbn.
    destruct (c x) eqn:Hcx.
    + rewrite Hkv by (done || left). cbn.
      destruct (IH (<[x := f x]> acc)) as (m & Hm & Hlook).
      { intros y Hy. apply Hc. by right. }
      { intros y Hy. apply Hkv. by right. }
      exists m. split; [done|]. intros k. rewrite Hlook.
      destruct (decide (k ∈ xs)) as [Hin|Hnin].
      * rewrite !bool_decide_eq_true_2 by (done || by right). cbn.
        destruct (c k) eqn:Hck; [done|].
        destruct (decide (x = k)) as [->|Hne]; [congruence|].
        by rewrite lookup_insert_ne.
      * rewrite (bool_decide_eq_false_2 (k ∈ xs)) by done. cbn.
        destruct (decide (x = k)) as [->|Hne].
        -- rewrite lookup_insert_eq, bool_decide_eq_true_2 by left. by rewrite Hcx.
        -- rewrite lookup_insert_ne by done.
           rewrite bool_decide_eq_false_2; [done|].
           intros [?|?]%elem_of_cons; congruence.
    + destruct (IH acc) as (m & Hm & Hlook).
      { intros y Hy. apply Hc. by right. }
      { intros y Hy. apply Hkv. by right. }
      exists m. split; [done|]. intros k. rewrite Hlook.
      destruct (decide (k ∈ xs)) as [Hin|Hnin].
      * by rewrite !bool_decide_eq_true_2 by (done || by right).
      * rewrite (bool_decide_eq_false_2 (k ∈ xs)) by done. cbn.
        destruct (decide (x = k)) as [->|Hne].
        -- rewrite bool_decide_eq_true_2 by left. by rewrite Hcx.
        -- rewrite bool_decide_eq_false_2; [done|].
           intros [?|?]%elem_of_cons; congruence.
Qed.

(** A comprehension over the items of a dictionary that keeps the items
    whose key passes a test. *)
Lemma dict_comp_items {V} (c : string → bool) (xs : list (string * V)) acc :
  ∃ m, dict_comp (λ kv, Ok (c kv.1)) (λ kv, Ok kv) xs acc = Ok m ∧
       ∀ k, m !! k = if c k then
                       match list_to_map (M := gmap string V) (reverse xs) !! k with
                       | Some v => Some v
                       | None => acc !! k
                       end
                     else acc !! k.
Proof.
  revert acc. induction xs as [|[k0 v0] xs IH]; intros acc.
  - exists acc. split; [done|]. intros k. cbn. rewrite lookup_empty. by destruct (c k).
  - cbn [dict_comp mbind result_bind fst snd]. destruct (c k0) eqn:Hc0.
    + destruct (IH (<[k0 := v0]> acc)) as (m & -> & Hlook).
      exists m. split; [done|]. intros k. rewrite Hlook.
      destruct (c k) eqn:Hck.
      * rewrite reverse_cons, list_to_map_app, lookup_union. cbn.
        destruct (list_to_map (reverse xs) !! k) as [v|] eqn:Hr; cbn.
        -- by rewrite union_Some_l.
        -- unfold union, option_union, union_with, option_union_with. destruct (decide (k0 = k)) as [->|Hne].
           ++ by rewrite !lookup_insert_eq.
           ++ rewrite !lookup_insert_ne by done. by rewrite lookup_empty.
      * destruct (decide (k0 = k)) as [->|Hne]; [congruence|].
        by rewrite lookup_insert_ne.
    + destruct (IH acc) as (m & -> & Hlook).
      exists m. split; [done|]. intros k. rewrite Hlook.
      destruct (c k) eqn:Hck; [|done]. rewrite reverse_cons.
      rewrite list_to_map_app, lookup_union. cbn.
      destruct (list_to_map (reverse xs) !! k) as [v|] eqn:Hr; cbn.
      * by rewrite union_Some_l.
      * unfold union, option_union, union_with, option_union_with. destruct (decide (k0 = k)) as [->|Hne]; [congruence|].
        rewrite lookup_insert_ne by done. by rewrite lookup_empty.
Qed.

(** The inner comprehension of [remove_expectations_suite_from_catalog]
    deletes one key. *)
Lemma strip_entry (entry : gmap string pyval) :
  dict_comp (λ kv : string * pyval, Ok (bool_decide (kv.1 ≠ "expectations_suite")))
    (λ kv, Ok kv) (dict_items entry) ∅
  = Ok (delete "expectations_suite" entry).
Proof.
  destruct (dict_comp_items (λ k, bool_decide (k ≠ "expectations_suite"))
              (dict_items entry) ∅) as (m & Hm & Hlook).
  rewrite Hm. f_equal. apply map_eq. intros k. rewrite Hlook, lookup_empty.
  assert (list_to_map (M := gmap string pyval) (reverse (dict_items entry)) = entry) as ->.
  { unfold dict_items. rewrite <- (list_to_map_to_list entry) at 2.
    apply list_to_map_proper.
    - rewrite fmap_reverse, reverse_Permutation. apply NoDup_fst_map_to_list.
    - apply reverse_Permutation. }
  case_bool_decide as Hk.
  - rewrite lookup_delete_ne by done. by destruct (entry !! k).
  - subst k. by rewrite lookup_delete_eq.
Qed.

(** ** Config scanners *)

(** C2. For every catalog configuration that the config loader returns,
    [get_names_and_expectations_suite] returns a dictionary that has a key
    exactly for the dataset names whose entry has the key
    ["expectations_suite"], mapped to the value the entry has there. *)
Theorem get_names_and_expectations_suite_exact
    (project_context : KedroContext) (catalog : catalog_config) :
  get (config_loader project_context) ["catalog*"; "catalog*/**"] = Ok catalog →
  ∃ suites, get_names_and_expectations_suite project_context = Ok suites ∧
    (∀ name, name ∈ dom suites ↔
       ∃ entry, catalog !! name = Some entry ∧ is_Some (entry !! "expectations_suite")) ∧
    (∀ name, suites !! name =
       match catalog !! name with
       | Some entry => entry !! "expectations_suite"
       | None => None
       end).
Proof.
  intros Hget. unfold get_names_and_expectations_suite. rewrite Hget. cbn.
  set (c := λ name, match catalog !! name with
                    | Some entry => bool_decide (is_Some (entry !! "expectations_suite"))
                    | None => false
                    end).
  set (f := λ name, default PNone (catalog !! name ≫= (.!! "expectations_suite"))).
  edestruct (dict_comp_by_name
    (λ name, entry ← dict_getitem catalog name;
             Ok (bool_decide ("expectations_suite" ∈ dict_keys entry)))
    (λ name, entry ← dict_getitem catalog name;
             suite ← dict_getitem entry "expectations_suite";
             Ok (name, suite))
    c f (dict_keys catalog) ∅) as (suites & Hs & Hlook).
  { intros x [entry Hx]%elem_of_dict_keys. unfold c.
    rewrite (dict_getitem_Some _ _ _ Hx), Hx. cbn. f_equal.
    apply bool_decide_ext, elem_of_dict_keys. }
  { intros x [entry Hx]%elem_of_dict_keys. unfold c, f. rewrite Hx. cbn.
    intros [v Hv]%bool_decide_eq_true.
    rewrite (dict_getitem_Some _ _ _ Hx). cbn.
    rewrite (dict_getitem_Some _ _ _ Hv), Hv. done. }
  rewrite Hs. cbn. exists suites. split; [done|].
  assert (∀ name, suites !! name =
            match catalog !! name with
            | Some entry => entry !! "expectations_suite"
            | None => None
            end) as Hspec.
  { intros name. rewrite Hlook, lookup_empty. unfold c, f.
    destruct (catalog !! name) as [entry|] eqn:Hname.
    - rewrite bool_decide_eq_true_2 by (apply elem_of_dict_keys; eauto). cbn.
      destruct (entry !! "expectations_suite") as [v|] eqn:Hv.
      + by rewrite bool_decide_eq_true_2 by eauto.
      + rewrite bool_decide_eq_false_2; [done|]. by intros [? ?].
    - by rewrite andb_false_r. }
  split; [|done]. intros name. rewrite elem_of_dom, Hspec.
  destruct (catalog !! name) as [entry|]; split.
  - eauto.
  - by intros (? & [= <-] & ?).
  - by intros [? ?].
  - by intros (? & ? & ?).
Qed.

(** C3. For every catalog configuration that the config loader returns,
    [remove_expectations_suite_from_catalog] returns a catalog with the
    same dataset names, each entry being the original entry without the key
    ["expectations_suite"] and with every other key and value as it was. *)
Theorem remove_expectations_suite_from_catalog_strips
    (project_context : KedroContext) (catalog : catalog_config) :
  get (config_loader project_context) ["catalog*"; "catalog*/**"] = Ok catalog →
  ∃ stripped, remove_expectations_suite_from_catalog project_context = Ok stripped ∧
    dom stripped = dom catalog ∧
    (∀ name, stripped !! name = delete "expectations_suite" <$> catalog !! name) ∧
    (∀ name entry entry', catalog !! name = Some entry → stripped !! name = Some entry' →
       entry' !! "expectations_suite" = None ∧
       ∀ key, key ≠ "expectations_suite" → entry' !! key = entry !! key).
Proof.
  intros Hget. unfold remove_expectations_suite_from_catalog. rewrite Hget. cbn.
  set (f := λ name, delete "expectations_suite" (default ∅ (catalog !! name))).
  edestruct (dict_comp_by_name
    (λ _ : string, Ok true)
    (λ name, entry ← dict_getitem catalog name;
             stripped ← dict_comp
               (λ kv : string * pyval, Ok (bool_decide (kv.1 ≠ "expectations_suite")))
               (λ kv, Ok kv)
               (dict_items entry) ∅;
             Ok (name, stripped))
    (λ _, true) f (dict_keys catalog) ∅) as (stripped & Hs & Hlook).
  { done. }
  { intros x [entry Hx]%elem_of_dict_keys _. unfold f.
    rewrite (dict_getitem_Some _ _ _ Hx), Hx. cbn. by rewrite strip_entry. }
  rewrite Hs. cbn. exists stripped. split; [done|].
  assert (∀ name, stripped !! name = delete "expectations_suite" <$> catalog !! name)
    as Hspec.
  { intros name. rewrite Hlook, lookup_empty, andb_true_r. unfold f.
    destruct (catalog !! name) as [entry|] eqn:Hname; cbn.
    - by rewrite bool_decide_eq_true_2 by (apply elem_of_dict_keys; eauto).
    - rewrite bool_decide_eq_false_2; [done|].
      intros [? ?]%elem_of_dict_keys. congruence. }
  split; [|split; [done|]].
  - apply set_eq. intros name. rewrite !elem_of_dom, Hspec.
    by rewrite fmap_is_Some.
  - intros name entry entry' Hentry. rewrite Hspec, Hentry. intros [= <-]. split.
    + apply lookup_delete_eq.
    + intros key Hkey. by apply lookup_delete_ne.
Qed.

Lemma get_names_and_expectations_suite_exact_witness :
  ∃ suites, get_names_and_expectations_suite Sample.project_context = Ok suites ∧
    (∀ name, name ∈ dom suites ↔
       ∃ entry, Sample.catalog !! name = Some entry ∧
                is_Some (entry !! "expectations_suite")) ∧
    (∀ name, suites !! name =
       match Sample.catalog !! name with
       | Some entry => entry !! "expectations_suite"
       | None => None
       end).
Proof.
  apply (get_names_and_expectations_suite_exact Sample.project_context Sample.catalog).
  reflexivity.
Defined.

Lemma remove_expectations_suite_from_catalog_strips_witness :
  ∃ stripped,
    remove_expectations_suite_from_catalog Sample.project_context = Ok stripped ∧
    dom stripped = dom Sample.catalog ∧
    (∀ name, stripped !! name = delete "expectations_suite" <$> Sample.catalog !! name) ∧
    (∀ name entry entry',
       Sample.catalog !! name = Some entry → stripped !! name = Some entry' →
       entry' !! "expectations_suite" = None ∧
       ∀ key, key ≠ "expectations_suite" → entry' !! key = entry !! key).
Proof.
  apply (remove_expectations_suite_from_catalog_strips Sample.project_context Sample.catalog).
  reflexivity.
Defined.

(** The scanners on the sample catalog. *)
Example get_names_and_expectations_suite_sample :
  get_names_and_expectations_suite Sample.project_context
  = Ok {[ "cars" := PStr "conf/base/expectations/cars.json" ]}.
Proof. vm_compute. reflexivity. Qed.

Example remove_expectations_suite_from_catalog_sample :
  remove_expectations_suite_from_catalog Sample.project_context
  = Ok {[ "cars" := {[ "type" := PStr "CSVLocalDataSet";
                       "filepath" := PStr "data/01_raw/cars.csv" ]};
          "boats" := {[ "type" := PStr "CSVLocalDataSet";
                        "filepath" := PStr "data/01_raw/boats.csv" ]} ]}.
Proof. vm_compute. reflexivity. Qed.

(** ** The failure policy *)

Lemma dict_getitem_raises {V} (d : gmap string V) k e :
  dict_getitem d k = Raise e → e = Exn KeyError [PStr k].
Proof. unfold dict_getitem. destruct (d !! k); congruence. Qed.

Lemma getitem_raises v k e : getitem v k = Raise e → lookup_error e.
Proof.
  unfold lookup_error. destruct v; cbn; try (intros [= <-]; by right).
  intros ->%dict_getitem_raises. by left.
Qed.

Lemma result_failed_raises r e : result_failed r = Raise e → lookup_error e.
Proof.
  unfold result_failed. destruct (getitem r "success") eqn:H; cbn; [done|].
  intros [= <-]. eauto using getitem_raises.
Qed.

Lemma result_expectation_type_raises r e :
  result_expectation_type r = Raise e → lookup_error e.
Proof.
  unfold result_expectation_type.
  destruct (getitem r "expectation_config") eqn:H; cbn.
  - apply getitem_raises.
  - intros [= <-]. eauto using getitem_raises.
Qed.

Lemma result_column_raises r e : result_column r = Raise e → lookup_error e.
Proof.
  unfold result_column.
  destruct (getitem r "expectation_config") as [config|] eqn:H; cbn.
  - destruct (getitem config "kwargs") eqn:H'; cbn.
    + apply getitem_raises.
    + intros [= <-]. eauto using getitem_raises.
  - intros [= <-]. eauto using getitem_raises.
Qed.

Lemma pydict_comp_raises rs acc e :
  pydict_comp result_failed result_expectation_type result_column rs acc = Raise e →
  lookup_error e.
Proof.
  revert acc. induction rs as [|r rs IH]; intros acc; cbn; [done|].
  destruct (result_failed r) as [[]|] eqn:Hc; cbn.
  - destruct (result_expectation_type r) as [k|] eqn:Hk; cbn.
    + destruct (result_column r) as [v|] eqn:Hv; cbn.
      * unfold pydict_setitem. destruct (hashable k); cbn; [apply IH|].
        intros [= <-]. by right.
      * intros [= <-]. eauto using result_column_raises.
    + intros [= <-]. eauto using result_expectation_type_raises.
  - apply IH.
  - intros [= <-]. eauto using result_failed_raises.
Qed.

Lemma failed_validations_raises validation e :
  failed_validations validation = Raise e → lookup_error e.
Proof.
  unfold failed_validations.
  destruct (getitem validation "results") as [results|] eqn:H; cbn.
  - destruct (py_iter results) as [rs|] eqn:Hi; cbn.
    + apply pydict_comp_raises.
    + intros [= <-]. destruct results; try discriminate; injection Hi as <-; by right.
  - intros [= <-]. eauto using getitem_raises.
Qed.

Section RaiseOnFailure.
Context (self : ExpectationsEvaluator).

(** Strict mode, failed validation: the comprehension decides. *)
Lemma raise_on_failure_strict (validation success : pyval) (w : world) :
  _break_on_failure self = true →
  getitem validation "success" = Ok success →
  truthy success = false →
  raise_on_failure self validation w =
    match failed_validations validation with
    | Ok failed => (logged w ERROR (MsgFailed failed),
                    Raise (Exn FailedValidationException []))
    | Raise e => (w, Raise e)
    end.
Proof.
  intros Hb Hs Ht. unfold raise_on_failure, break_on_failure. rewrite Hb, Hs. run.
  rewrite Ht. run. by destruct (failed_validations validation).
Qed.

(** Non-strict mode, failed validation: one warning, no exception. *)
Lemma raise_on_failure_lenient (validation success statistics : pyval) (w : world) :
  _break_on_failure self = false →
  getitem validation "success" = Ok success →
  truthy success = false →
  getitem validation "statistics" = Ok statistics →
  raise_on_failure self validation w
  = (logged w WARNING (MsgStatistics statistics), Ok tt).
Proof.
  intros Hb Hs Ht Hst. unfold raise_on_failure, break_on_failure.
  rewrite Hb, Hs, Hst. run. by rewrite !Ht.
Qed.

(** A successful validation: one info record, no exception, in either mode. *)
Lemma raise_on_failure_success (validation success statistics : pyval) (w : world) :
  getitem validation "success" = Ok success →
  truthy success = true →
  getitem validation "statistics" = Ok statistics →
  raise_on_failure self validation w
  = (logged w INFO (MsgStatistics statistics), Ok tt).
Proof.
  intros Hs Ht Hst. unfold raise_on_failure, break_on_failure.
  rewrite Hs, Hst. destruct (_break_on_failure self); run; by rewrite !Ht.
Qed.

(** The exception is raised in strict mode on a failed validation only,
    after the comprehension has run through. *)
Lemma raise_on_failure_raises_only_if (validation : pyval) (w w' : world) (args : list pyval) :
  raise_on_failure self validation w = (w', Raise (Exn FailedValidationException args)) →
  _break_on_failure self = true ∧
  (∃ success, getitem validation "success" = Ok success ∧ truthy success = false) ∧
  (∃ failed, failed_validations validation = Ok failed) ∧
  args = [].
Proof.
  unfold raise_on_failure, break_on_failure.
  destruct (getitem validation "success") as [success|e] eqn:Hs.
  2: { apply getitem_raises in Hs.
       destruct (_break_on_failure self); run; intros [= _ ->]; by destruct Hs. }
  destruct (getitem validation "statistics") as [statistics|e] eqn:Hst.
  2: apply getitem_raises in Hst.
  all: destruct (failed_validations validation) as [failed|e'] eqn:Hf.
  all: try apply failed_validations_raises in Hf.
  all: destruct (_break_on_failure self) eqn:Hb; run.
  all: destruct (truthy success) eqn:Ht; run; rewrite ?Ht; run.
  all: try (intros [= _ <-]; eauto 10).
  all: try discriminate.
  all: intros [= _ ->];
    repeat match goal with
           | H : lookup_error _ |- _ => destruct H as [H|H]; cbn in H; try discriminate H
           end.
Qed.
End RaiseOnFailure.

(** *** The comprehension over the results *)

Lemma expectation_result_failed r success ty kwargs :
  expectation_result r success ty kwargs → result_failed r = Ok (negb success).
Proof. intros (d & config & -> & Hs & _). cbn. by rewrite (dict_getitem_Some _ _ _ Hs). Qed.

Lemma expectation_result_type r success ty kwargs :
  expectation_result r success ty kwargs → result_expectation_type r = Ok (PStr ty).
Proof.
  intros (d & config & -> & _ & Hc & Ht & _). cbn.
  rewrite (dict_getitem_Some _ _ _ Hc). cbn. by rewrite (dict_getitem_Some _ _ _ Ht).
Qed.

Lemma expectation_result_column r success ty kwargs :
  expectation_result r success ty kwargs →
  result_column r = dict_getitem kwargs "column".
Proof.
  intros (d & config & -> & _ & Hc & _ & Hk). cbn.
  rewrite (dict_getitem_Some _ _ _ Hc). cbn. by rewrite (dict_getitem_Some _ _ _ Hk).
Qed.

(** The comprehension runs through only if every failed entry has a column. *)
Lemma pydict_comp_columns rs acc failed :
  pydict_comp result_failed result_expectation_type result_column rs acc = Ok failed →
  ∀ r, r ∈ rs → result_failed r = Ok true → ∃ column, result_column r = Ok column.
Proof.
  revert acc. induction rs as [|r0 rs IH]; intros acc Hcomp r Hin Hfailed.
  - by apply elem_of_nil in Hin.
  - cbn in Hcomp.
    destruct (result_failed r0) as [b|] eqn:Hc; cbn in Hcomp; [|done].
    apply elem_of_cons in Hin as [->|Hin].
    + rewrite Hfailed in Hc. injection Hc as <-.
      destruct (result_expectation_type r0); cbn in Hcomp; [|done].
      destruct (result_column r0); cbn in Hcomp; [eauto|done].
    + destruct b.
      * destruct (result_expectation_type r0); cbn in Hcomp; [|done].
        destruct (result_column r0); cbn in Hcomp; [|done].
        destruct (pydict_setitem acc _ _); cbn in Hcomp; [eauto|done].
      * eauto.
Qed.

(** On well-formed entries the first failed entry without a column ends the
    comprehension with the key error of the missing column. *)
Lemma pydict_comp_missing_column rs acc :
  Forall well_formed_result rs →
  (∃ r, r ∈ rs ∧ result_failed r = Ok true ∧ ∀ column, result_column r ≠ Ok column) →
  pydict_comp result_failed result_expectation_type result_column rs acc
  = Raise (Exn KeyError [PStr "column"]).
Proof.
  intros Hwf. revert acc. induction Hwf as [|r0 rs Hr0 Hwf IH]; intros acc (r & Hin & Hf & Hcol).
  - by apply elem_of_nil in Hin.
  - destruct Hr0 as (s & ty & kw & Hr0). cbn.
    rewrite (expectation_result_failed _ _ _ _ Hr0), (expectation_result_type _ _ _ _ Hr0),
      (expectation_result_column _ _ _ _ Hr0). cbn.
    destruct s; cbn.
    + apply IH. exists r. apply elem_of_cons in Hin as [->|Hin]; [|done].
      rewrite (expectation_result_failed _ _ _ _ Hr0) in Hf. done.
    + destruct (kw !! "column") as [c|] eqn:Hc.
      * rewrite (dict_getitem_Some _ _ _ Hc). cbn. apply IH. exists r.
        apply elem_of_cons in Hin as [->|Hin]; [|done].
        exfalso. apply (Hcol c).
        by rewrite (expectation_result_column _ _ _ _ Hr0), (dict_getitem_Some _ _ _ Hc).
      * by rewrite (dict_getitem_None _ _ Hc).
Qed.

Lemma py_eqb_str k s : py_eqb k (PStr s) = true → k = PStr s.
Proof. destruct k; cbn; try done. by intros ->%String.eqb_eq. Qed.

Lemma pydict_update_new d s v : (PStr s, v) ∈ pydict_update d (PStr s) v.
Proof.
  induction d as [|[k' v'] d IH]; cbn; [by left|].
  destruct (py_eqb k' (PStr s)) eqn:He.
  - apply py_eqb_str in He as ->. by left.
  - by right.
Qed.

Lemma pydict_update_keeps d k v k0 v0 :
  (k0, v0) ∈ d → ∃ v1, (k0, v1) ∈ pydict_update d k v.
Proof.
  induction d as [|[k' v'] d IH]; [by intros ?%elem_of_nil|].
  intros [[= -> ->]|Hin]%elem_of_cons; cbn; destruct (py_eqb k' k).
  - eexists. by left.
  - eexists. by left.
  - eexists. by right.
  - destruct (IH Hin) as [v1 ?]. exists v1. by right.
Qed.

Lemma pydict_update_from d s v k0 v0 :
  (k0, v0) ∈ pydict_update d (PStr s) v → (k0, v0) ∈ d ∨ (k0 = PStr s ∧ v0 = v).
Proof.
  induction d as [|[k' v'] d IH]; cbn.
  - intros [[= -> ->]|[]%elem_of_nil]%elem_of_cons. by right.
  - destruct (py_eqb k' (PStr s)) eqn:He.
    + apply py_eqb_str in He as ->.
      intros [[= -> ->]|Hin]%elem_of_cons; [by right|]. left. by right.
    + intros [[= -> ->]|Hin]%elem_of_cons; [left; by left|].
      destruct (IH Hin) as [?|?]; [|by right]. left. by right.
Qed.

(** On well-formed entries that have a column whenever they failed, the
    comprehension yields a dictionary that has a key for every failed
    expectation type and under each key a column of a failed entry of
    that type. *)
Lemma pydict_comp_failed rs acc :
  Forall well_formed_result rs →
  (∀ r, r ∈ rs → result_failed r = Ok true → ∃ column, result_column r = Ok column) →
  ∃ failed,
    pydict_comp result_failed result_expectation_type result_column rs acc = Ok failed ∧
    (∀ ty, (∃ v, (PStr ty, v) ∈ acc) ∨
           (∃ r kwargs, r ∈ rs ∧ expectation_result r false ty kwargs) →
           ∃ column, (PStr ty, column) ∈ failed) ∧
    (∀ k column, (k, column) ∈ failed →
       (k, column) ∈ acc ∨
       ∃ r ty kwargs, r ∈ rs ∧ expectation_result r false ty kwargs ∧
                      k = PStr ty ∧ kwargs !! "column" = Some column).
Proof.
  intros Hwf. revert acc. induction Hwf as [|r0 rs Hr0 Hwf IH]; intros acc Hcols.
  - exists acc. split; [done|]. split.
    + intros ty [?|(r & ? & []%elem_of_nil & _)]. done.
    + eauto.
  - destruct Hr0 as (s & ty0 & kw & Hr0). cbn.
    rewrite (expectation_result_failed _ _ _ _ Hr0), (expectation_result_type _ _ _ _ Hr0).
    cbn. destruct s; cbn.
    + destruct (IH acc) as (failed & -> & Hlisted & Hsound).
      { intros r Hin. apply Hcols. by right. }
      exists failed. split; [done|]. split.
      * intros ty [?|(r & kwargs & [->|Hin]%elem_of_cons & Hr)]; apply Hlisted; eauto.
        destruct Hr0 as (? & ? & -> & Hs0 & _), Hr as (? & ? & [= <-] & Hs & _).
        congruence.
      * intros k column [?|(r & ty & kwargs & ? & ?)]%Hsound; [by left|].
        right. exists r, ty, kwargs. split; [by right|done].
    + destruct (Hcols r0) as [c Hc];
        [by left|apply (expectation_result_failed _ _ _ _ Hr0)|].
      rewrite Hc. cbn.
      destruct (IH (pydict_update acc (PStr ty0) c)) as (failed & -> & Hlisted & Hsound).
      { intros r Hin. apply Hcols. by right. }
      exists failed. split; [done|]. split.
      * intros ty [[v Hv]|(r & kwargs & [->|Hin]%elem_of_cons & Hr)]; apply Hlisted.
        -- left. by eapply pydict_update_keeps.
        -- left. exists c.
           assert (ty = ty0) as ->; [|apply pydict_update_new].
           destruct Hr0 as (? & ? & -> & _ & Hc0 & Ht0 & _),
                    Hr as (? & ? & [= <-] & _ & Hc1 & Ht1 & _).
           congruence.
        -- right. eauto.
      * intros k column [Hin|(r & ty & kwargs & ? & ?)]%Hsound.
        -- apply pydict_update_from in Hin as [?|[-> ->]]; [by left|].
           right. exists r0, ty0, kw. split; [by left|]. split; [done|]. split; [done|].
           rewrite (expectation_result_column _ _ _ _ Hr0) in Hc.
           unfold dict_getitem in Hc. by destruct (kw !! "column"); simplify_eq.
        -- right. exists r, ty, kwargs. split; [by right|done].
Qed.

(** *** The claims about the failure policy *)

(** C1 (the code departs from it).  The claim, like the docstring of
    [raise_on_failure], has the method raise [FailedValidationException]
    whenever [break_on_failure] is true and the validation failed.  On a
    failed validation whose failed expectation is about the whole table, and
    so has no ["column"] argument, the method raises [KeyError] instead, and
    logs nothing. *)
Theorem raise_on_failure_table_expectation :
  _break_on_failure Sample.strict = true ∧
  getitem Sample.table_failure "success" = Ok (PBool false) ∧
  raise_on_failure Sample.strict Sample.table_failure Sample.nothing_logged
  = (Sample.nothing_logged, Raise (Exn KeyError [PStr "column"])).
Proof. repeat split; vm_compute; reflexivity. Qed.

(** C9. In strict mode [raise_on_failure] reaches
    [FailedValidationException] only if every failed entry of the results
    has a ["column"] entry in the keyword arguments of its expectation
    configuration; and on a failed validation whose (well-formed) results
    contain a failed entry without one, the call ends with
    [KeyError("column")] instead, before anything is logged. *)
Theorem raise_on_failure_needs_columns
    (self : ExpectationsEvaluator) (validation : pyval) (w : world) :
  _break_on_failure self = true →
  (∀ w' args,
     raise_on_failure self validation w = (w', Raise (Exn FailedValidationException args)) →
     ∃ rs, getitem validation "results" ≫= py_iter = Ok rs ∧
           ∀ r, r ∈ rs → result_failed r = Ok true →
                ∃ column, result_column r = Ok column) ∧
  (∀ success rs,
     getitem validation "success" = Ok success → truthy success = false →
     getitem validation "results" = Ok (PList rs) →
     Forall well_formed_result rs →
     (∃ r ty kwargs, r ∈ rs ∧ expectation_result r false ty kwargs ∧
                     kwargs !! "column" = None) →
     raise_on_failure self validation w = (w, Raise (Exn KeyError [PStr "column"]))).
Proof.
  intros Hb. split.
  - intros w' args (_ & _ & [failed Hf] & _)%raise_on_failure_raises_only_if.
    unfold failed_validations in Hf.
    destruct (getitem validation "results") as [results|]; cbn in Hf; [|done].
    destruct (py_iter results) as [rs|] eqn:Hi; cbn in Hf; [|done].
    exists rs. split; [done|]. by eapply pydict_comp_columns.
  - intros success rs Hs Ht Hr Hwf (r & ty & kwargs & Hin & Hshape & Hnone).
    rewrite (raise_on_failure_strict self validation success w Hb Hs Ht).
    unfold failed_validations. rewrite Hr. cbn.
    rewrite pydict_comp_missing_column; [done|done|].
    exists r. split; [done|]. split.
    + apply (expectation_result_failed _ _ _ _ Hshape).
    + intros column. rewrite (expectation_result_column _ _ _ _ Hshape).
      by rewrite (dict_getitem_None _ _ Hnone).
Qed.

Lemma raise_on_failure_needs_columns_witness :
  raise_on_failure Sample.strict Sample.mixed_failure Sample.nothing_logged
  = (Sample.nothing_logged, Raise (Exn KeyError [PStr "column"])).
Proof.
  apply (proj2 (raise_on_failure_needs_columns Sample.strict Sample.mixed_failure
                  Sample.nothing_logged eq_refl) (PBool false)
           [Sample.column_result false "expect_column_values_to_not_be_null" "mpg";
            Sample.table_result false "expect_table_row_count_to_equal" 32;
            Sample.column_result false "expect_column_values_to_be_unique" "name"]).
  - reflexivity.
  - reflexivity.
  - reflexivity.
  - repeat constructor.
    + exists false, "expect_column_values_to_not_be_null", {[ "column" := PStr "mpg" ]}.
      eexists _, _. repeat split; reflexivity.
    + exists false, "expect_table_row_count_to_equal", {[ "value" := PInt 32 ]}.
      eexists _, _. repeat split; reflexivity.
    + exists false, "expect_column_values_to_be_unique", {[ "column" := PStr "name" ]}.
      eexists _, _. repeat split; reflexivity.
  - exists (Sample.table_result false "expect_table_row_count_to_equal" 32),
      "expect_table_row_count_to_equal", {[ "value" := PInt 32 ]}.
    split; [|split].
    + right. left.
    + eexists _, _. repeat split; reflexivity.
    + reflexivity.
Defined.

(** C7, as stated, fails: the exception of a strict failure is raised from
    the bare class and has no argument, so it lists nothing, although there
    is a failed expectation to list. *)
Lemma raise_on_failure_exception_lists_nothing :
  ∃ w' e failed,
    raise_on_failure Sample.strict Sample.column_failure Sample.nothing_logged
    = (w', Raise e) ∧
    failed_validations Sample.column_failure = Ok failed ∧
    exn_cls e = FailedValidationException ∧
    ¬ exception_lists e failed.
Proof.
  eexists _, _, _. split; [vm_compute; reflexivity|]. split; [vm_compute; reflexivity|].
  split; [reflexivity|]. intros Hlists.
  destruct (Hlists (PStr "expect_column_values_to_not_be_null") (PStr "mpg")) as [arg Harg].
  - left.
  - by apply elem_of_nil in Harg.
Qed.

(** C7, amended. When [break_on_failure] is true and the validation failed,
    its results being well formed and every failed one having a ["column"]
    argument, [raise_on_failure] raises the domain-specific
    [FailedValidationException], without arguments; the failed expectation
    types, each with a column it failed on, are listed in the ERROR record
    that is logged just before the exception is raised. *)
Theorem raise_on_failure_logs_failed_then_raises
    (self : ExpectationsEvaluator) (validation success : pyval) (rs : list pyval)
    (w : world) :
  _break_on_failure self = true →
  getitem validation "success" = Ok success →
  truthy success = false →
  getitem validation "results" = Ok (PList rs) →
  Forall well_formed_result rs →
  (∀ r ty kwargs, r ∈ rs → expectation_result r false ty kwargs →
                  is_Some (kwargs !! "column")) →
  ∃ failed,
    raise_on_failure self validation w
    = (logged w ERROR (MsgFailed failed), Raise (Exn FailedValidationException [])) ∧
    (∀ r ty kwargs, r ∈ rs → expectation_result r false ty kwargs →
                    ∃ column, (PStr ty, column) ∈ failed) ∧
    (∀ k column, (k, column) ∈ failed →
       ∃ r ty kwargs, r ∈ rs ∧ expectation_result r false ty kwargs ∧
                      k = PStr ty ∧ kwargs !! "column" = Some column).
Proof.
  intros Hb Hs Ht Hr Hwf Hcols.
  destruct (pydict_comp_failed rs [] Hwf) as (failed & Hcomp & Hlisted & Hsound).
  { intros r Hin Hfailed.
    destruct (proj1 (Forall_forall _ _) Hwf r Hin) as (s & ty & kwargs & Hshape).
    rewrite (expectation_result_failed _ _ _ _ Hshape) in Hfailed.
    destruct s; [done|].
    destruct (Hcols r ty kwargs Hin Hshape) as [c Hc]. exists c.
    by rewrite (expectation_result_column _ _ _ _ Hshape), (dict_getitem_Some _ _ _ Hc). }
  exists failed. split; [|split].
  - rewrite (raise_on_failure_strict self validation success w Hb Hs Ht).
    unfold failed_validations. rewrite Hr. cbn. by rewrite Hcomp.
  - intros r ty kwargs Hin Hshape. apply Hlisted. right. eauto.
  - intros k column [[]%elem_of_nil|Hfrom]%Hsound. done.
Qed.

Lemma raise_on_failure_logs_failed_then_raises_witness :
  ∃ failed,
    raise_on_failure Sample.strict Sample.column_failure Sample.nothing_logged
    = (logged Sample.nothing_logged ERROR (MsgFailed failed),
       Raise (Exn FailedValidationException [])) ∧
    (∀ r ty kwargs,
       r ∈ [Sample.column_result true "expect_column_to_exist" "mpg";
            Sample.column_result false "expect_column_values_to_not_be_null" "mpg"] →
       expectation_result r false ty kwargs →
       ∃ column, (PStr ty, column) ∈ failed) ∧
    (∀ k column, (k, column) ∈ failed →
       ∃ r ty kwargs,
         r ∈ [Sample.column_result true "expect_column_to_exist" "mpg";
              Sample.column_result false "expect_column_values_to_not_be_null" "mpg"] ∧
         expectation_result r false ty kwargs ∧
         k = PStr ty ∧ kwargs !! "column" = Some column).
Proof.
  apply (raise_on_failure_logs_failed_then_raises Sample.strict Sample.column_failure
           (PBool false)).
  - reflexivity.
  - reflexivity.
  - reflexivity.
  - reflexivity.
  - repeat constructor.
    + exists true, "expect_column_to_exist", {[ "column" := PStr "mpg" ]}.
      eexists _, _. repeat split; reflexivity.
    + exists false, "expect_column_values_to_not_be_null", {[ "column" := PStr "mpg" ]}.
      eexists _, _. repeat split; reflexivity.
  - intros r ty kwargs Hin (d & config & -> & Hs & Hc & Ht & Hk).
    apply elem_of_cons in Hin as [Hin|Hin].
    + injection Hin as ->. vm_compute in Hs. discriminate Hs.
    + apply elem_of_cons in Hin as [Hin|Hin]; [|by apply elem_of_nil in Hin].
      injection Hin as ->. vm_compute in Hc. injection Hc as <-.
      vm_compute in Hk. injection Hk as <-. by eexists.
Defined.

(** ** The file system *)

Lemma prefixes_length k k' : k' ∈ prefixes k → 0 < length k' ≤ length k.
Proof.
  revert k'. induction k as [|n k IH]; intros k'; cbn.
  - by intros ?%elem_of_nil.
  - intros [->|(k'' & -> & Hin)%list_elem_of_fmap]%elem_of_cons; cbn; [lia|].
    apply IH in Hin. lia.
Qed.

Lemma prefixes_self k : k ≠ [] → k ∈ prefixes k.
Proof.
  induction k as [|n k IH]; [done|]. intros _. cbn.
  destruct k as [|n' k]; [by left|]. right. apply list_elem_of_fmap.
  exists (n' :: k). split; [done|]. by apply IH.
Qed.

(** The prefixes of a key are its non-empty initial parts. *)
Lemma elem_of_prefixes k k' : k' ∈ prefixes k ↔ k' ≠ [] ∧ k' `prefix_of` k.
Proof.
  revert k'. induction k as [|n k IH]; intros k'; cbn.
  - split; [by intros ?%elem_of_nil|]. intros [Hne Hp%prefix_nil_inv]. done.
  - rewrite elem_of_cons, list_elem_of_fmap. split.
    + intros [->|(k'' & -> & Hin)].
      * split; [done|]. by exists k.
      * apply IH in Hin as [_ Hp]. split; [done|]. by apply prefix_cons.
    + intros [Hne Hp]. destruct k' as [|n' k']; [done|].
      apply prefix_cons_inv_1 in Hp as Hn. subst n'.
      apply prefix_cons_inv_2 in Hp. destruct k' as [|n'' k'].
      * by left.
      * right. exists (n'' :: k'). split; [done|]. apply IH. by split.
Qed.

Lemma prefixes_app_l k1 k2 k' : k' ∈ prefixes k1 → k' ∈ prefixes (k1 ++ k2).
Proof.
  rewrite !elem_of_prefixes. intros [? ?]. split; [done|]. by apply prefix_app_r.
Qed.

Lemma prefixes_snoc k n k' :
  k' ∈ prefixes (k ++ [n]) ↔ k' ∈ prefixes k ∨ k' = k ++ [n].
Proof.
  rewrite !elem_of_prefixes. split.
  - intros [Hne [rest Hrest]].
    destruct rest as [|r rest _] using rev_ind.
    + right. by rewrite app_nil_r in Hrest.
    + left. split; [done|]. rewrite app_assoc in Hrest.
      apply app_inj_tail in Hrest as [-> _]. by exists rest.
  - intros [[? ?]| ->].
    + split; [done|]. by apply prefix_app_r.
    + split; [by destruct k|done].
Qed.

Lemma parent_snoc k n : parent (k ++ [n]) = k.
Proof. unfold parent. apply removelast_last. Qed.

(** *** Looking up *)

Lemma descend_app n k1 k2 :
  descend n (k1 ++ k2) = descend n k1 ≫= λ n', descend n' k2.
Proof.
  revert n. induction k1 as [|x k1 IH]; intros n; cbn; [done|].
  destruct n as [c|entries]; [done|]. destruct (entries !! x); cbn; [apply IH|done].
Qed.

Lemma node_at_app fs k1 k2 :
  node_at fs (k1 ++ k2) = node_at fs k1 ≫= λ n', descend n' k2.
Proof. apply descend_app. Qed.

Lemma node_at_nil fs : node_at fs [] = Some (Dir fs).
Proof. done. Qed.

Lemma is_dir_nil fs : is_dir fs [] = true.
Proof. done. Qed.

Lemma descend_file c k : k ≠ [] → descend (File c) k = None.
Proof. by destruct k. Qed.

(** Whatever lies below a key lies in a directory. *)
Lemma is_dir_above fs k1 k2 :
  k2 ≠ [] → is_Some (node_at fs (k1 ++ k2)) → is_dir fs k1 = true.
Proof.
  intros Hne [n Hn]. rewrite node_at_app in Hn. unfold is_dir.
  destruct (node_at fs k1) as [[c|entries]|]; cbn in Hn; [|done|done].
  by rewrite descend_file in Hn.
Qed.

Lemma nothing_below fs k1 k2 :
  k2 ≠ [] → is_dir fs k1 = false → node_at fs (k1 ++ k2) = None.
Proof.
  intros Hne Hd. destruct (node_at fs (k1 ++ k2)) eqn:Hn; [|done].
  rewrite (is_dir_above fs k1 k2) in Hd; [done..|by eexists].
Qed.

Lemma is_dir_prefix fs k k' :
  is_Some (node_at fs k) → k' `prefix_of` k → k' ≠ k → is_dir fs k' = true.
Proof.
  intros Hk [rest ->] Hne. apply (is_dir_above fs k' rest); [|done].
  intros ->. by rewrite app_nil_r in Hne.
Qed.

Lemma is_dir_node fs k : is_dir fs k = true → is_Some (node_at fs k).
Proof. unfold is_dir. destruct (node_at fs k); [by eexists|done]. Qed.

Lemma is_file_node fs k : is_file fs k = true → is_Some (node_at fs k).
Proof. unfold is_file. destruct (node_at fs k); [by eexists|done]. Qed.

Lemma file_at_is_file fs k : is_file fs k = bool_decide (is_Some (file_at fs k)).
Proof.
  unfold is_file, file_at. destruct (node_at fs k) as [[c|entries]|].
  - symmetry. apply bool_decide_eq_true_2. by eexists.
  - symmetry. apply bool_decide_eq_false_2. by intros [? ?].
  - symmetry. apply bool_decide_eq_false_2. by intros [? ?].
Qed.

Lemma is_file_not_dir fs k : is_file fs k = true → is_dir fs k = false.
Proof. unfold is_file, is_dir. by destruct (node_at fs k) as [[c|entries]|]. Qed.

(** *** Putting an entry *)

Lemma descend_leaf n k : leaf n → k ≠ [] → descend n k = None.
Proof. intros [[c ->]| ->] Hk; destruct k; cbn; done. Qed.

Lemma is_dir_kind fs k :
  is_dir fs k = match kind (node_at fs k) with Some None => true | _ => false end.
Proof. unfold is_dir. by destruct (node_at fs k) as [[c|entries]|]. Qed.

Lemma file_at_kind fs k : file_at fs k = kind (node_at fs k) ≫= id.
Proof. unfold file_at. by destruct (node_at fs k) as [[c|entries]|]. Qed.

Lemma descend_put_same k new n :
  k ≠ [] → (∃ entries, descend n (parent k) = Some (Dir entries)) →
  descend (put k new n) k = Some new.
Proof.
  revert n. induction k as [|x k IH]; intros n Hne [entries Hp]; [done|].
  destruct k as [|y k].
  - cbn in Hp. simplify_eq. cbn. by rewrite lookup_partial_alter_eq.
  - change (parent (x :: y :: k)) with (x :: parent (y :: k)) in Hp.
    cbn [descend] in Hp. destruct n as [c|es]; [done|].
    destruct (es !! x) as [n'|] eqn:Hx; [|done]. cbn in Hp.
    cbn [put descend]. rewrite lookup_partial_alter_eq, Hx. cbn [fmap option_fmap option_map mbind option_bind].
    apply IH; [done|]. by exists entries.
Qed.

Lemma kind_descend_put k new n k' :
  leaf new → (∀ entries, descend n k ≠ Some (Dir entries)) → k' ≠ k →
  kind (descend (put k new n) k') = kind (descend n k').
Proof.
  intros Hleaf. revert n k'. induction k as [|x k IH]; intros n k' Hnd Hne.
  - cbn [put]. cbn in Hnd. destruct n as [c|es]; [|by destruct (Hnd es)].
    by rewrite descend_leaf, descend_file.
  - destruct n as [c|es]; [done|]. cbn [put].
    destruct k' as [|y k']; [done|]. cbn [descend].
    destruct (decide (y = x)) as [->|Hy].
    2: { by rewrite lookup_partial_alter_ne. }
    rewrite lookup_partial_alter_eq. cbn [descend] in Hnd.
    destruct k as [|z k].
    + assert (k' ≠ []) as Hk' by (intros ->; done).
      cbn [mbind option_bind]. rewrite (descend_leaf new k') by done.
      destruct (es !! x) as [[c|es']|]; cbn in *.
      * by rewrite descend_file.
      * by destruct (Hnd es').
      * done.
    + destruct (es !! x) as [n'|]; cbn; [|done].
      apply IH; [|congruence]. intros es'. apply (Hnd es').
Qed.

Lemma put_at_Dir k new fs : k ≠ [] → Dir (put_at k new fs) = put k new (Dir fs).
Proof. unfold put_at. by destruct k. Qed.

Lemma node_at_put_same fs k new :
  k ≠ [] → is_dir fs (parent k) = true → node_at (put_at k new fs) k = Some new.
Proof.
  intros Hne Hp. unfold node_at. rewrite put_at_Dir by done.
  apply descend_put_same; [done|]. unfold is_dir, node_at in Hp.
  destruct (descend (Dir fs) (parent k)) as [[c|es]|]; [done| |done]. by exists es.
Qed.

Lemma kind_node_at_put fs k new k' :
  k ≠ [] → leaf new → is_dir fs k = false → k' ≠ k →
  kind (node_at (put_at k new fs) k') = kind (node_at fs k').
Proof.
  intros Hne Hleaf Hd Hk'. unfold node_at. rewrite put_at_Dir by done.
  apply kind_descend_put; [done| |done]. intros es Hes.
  unfold is_dir, node_at in Hd. by rewrite Hes in Hd.
Qed.

Lemma is_dir_put fs k new k' :
  k ≠ [] → leaf new → is_dir fs k = false → k' ≠ k →
  is_dir (put_at k new fs) k' = is_dir fs k'.
Proof. intros. rewrite !is_dir_kind. by rewrite kind_node_at_put. Qed.

Lemma file_at_put fs k new k' :
  k ≠ [] → leaf new → is_dir fs k = false → k' ≠ k →
  file_at (put_at k new fs) k' = file_at fs k'.
Proof. intros. rewrite !file_at_kind. by rewrite kind_node_at_put. Qed.

(** *** Reading a path *)

Lemma not_back n ns : ".." ∉ n :: ns → String.eqb n ".." = false ∧ ".." ∉ ns.
Proof.
  intros [Hn Hns]%not_elem_of_cons. split; [|done].
  apply String.eqb_neq. congruence.
Qed.

(** A path that does not step back leads to the entry of its names, when
    the directories on the way exist. *)
Lemma walk_ok fs cur ns :
  ".." ∉ ns → (ns = [] ∨ is_dir fs (cur ++ parent ns) = true) →
  walk fs cur ns = Ok (cur ++ ns).
Proof.
  revert cur. induction ns as [|n ns IH]; intros cur Hb Hd; cbn.
  - by rewrite app_nil_r.
  - apply not_back in Hb as [-> Hb].
    destruct Hd as [?|Hd]; [done|].
    assert (is_dir fs cur = true) as ->.
    { destruct ns as [|n' ns].
      - by rewrite app_nil_r in Hd.
      - apply (is_dir_above fs cur (parent (n :: n' :: ns))); [done|].
        by apply is_dir_node. }
    rewrite IH; [by rewrite <- app_assoc|done|].
    destruct ns as [|n' ns]; [by left|right].
    rewrite <- app_assoc. exact Hd.
Qed.

Lemma walk_ok_root fs ns :
  ".." ∉ ns → (ns = [] ∨ is_dir fs (parent ns) = true) → walk fs [] ns = Ok ns.
Proof. intros. by rewrite walk_ok. Qed.

(** An entry that exists is found under its names. *)
Lemma walk_to_node fs ns :
  ".." ∉ ns → is_Some (node_at fs ns) → walk fs [] ns = Ok ns.
Proof.
  intros Hb Hn. apply walk_ok_root; [done|].
  destruct ns as [|n ns _] using rev_ind; [by left|right].
  rewrite parent_snoc. by apply (is_dir_above fs ns [n]).
Qed.

(** A file on the way stops the reading. *)
Lemma walk_through_file fs cur k1 k2 :
  ".." ∉ k1 → k2 ≠ [] → is_file fs (cur ++ k1) = true →
  walk fs cur (k1 ++ k2) = raise NotADirectoryError.
Proof.
  revert cur. induction k1 as [|n k1 IH]; intros cur Hb Hne Hf.
  - rewrite app_nil_r in Hf. destruct k2 as [|n k2]; [done|]. cbn.
    by rewrite (is_file_not_dir _ _ Hf), Hf.
  - apply not_back in Hb as [Hn Hb]. cbn. rewrite Hn.
    rewrite (is_dir_above fs cur (n :: k1)); [|done|by apply is_file_node].
    apply IH; [done..|]. by rewrite <- app_assoc.
Qed.

(** So does a directory that is missing, where no file is on the way. *)
Lemma walk_missing fs cur k1 k2 :
  ".." ∉ k1 → k2 ≠ [] → is_dir fs (cur ++ k1) = false →
  (∀ k', k' `prefix_of` k1 → is_file fs (cur ++ k') = false) →
  walk fs cur (k1 ++ k2) = raise FileNotFoundError.
Proof.
  revert cur. induction k1 as [|n k1 IH]; intros cur Hb Hne Hd Hf.
  - rewrite app_nil_r in Hd. destruct k2 as [|n k2]; [done|]. cbn.
    rewrite Hd. specialize (Hf [] (prefix_nil _)). rewrite app_nil_r in Hf.
    by rewrite Hf.
  - apply not_back in Hb as [Hn Hb]. cbn. rewrite Hn.
    destruct (is_dir fs cur) eqn:Hcur.
    + apply IH; [done..|by rewrite <- app_assoc|].
      intros k' Hk'. rewrite <- app_assoc. apply Hf. by apply prefix_cons.
    + specialize (Hf [] (prefix_nil _)). rewrite app_nil_r in Hf. by rewrite Hf.
Qed.

(** *** Making directories *)

Lemma mkdir_parents_eq fs base sn :
  mkdir_parents fs base sn
  = match os_mkdir fs (base ++ reverse sn) with
    | Ok fs' => Ok fs'
    | Raise e =>
        if is_FileNotFoundError e then
          match sn with
          | [] => Raise e
          | _ :: sn' =>
              fs1 ← mkdir_parents fs base sn';
              match os_mkdir fs1 (base ++ reverse sn) with
              | Ok fs2 => Ok fs2
              | Raise e' =>
                  if is_FileNotFoundError e' then Raise e'
                  else if path_is_dir fs1 (base ++ reverse sn) then Ok fs1 else Raise e'
              end
          end
        else if path_is_dir fs (base ++ reverse sn) then Ok fs else Raise e
    end.
Proof. by destruct sn. Qed.

Lemma os_mkdir_exists fs ns :
  ".." ∉ ns → is_Some (node_at fs ns) → os_mkdir fs ns = raise FileExistsError.
Proof.
  intros Hb Hn. unfold os_mkdir. rewrite walk_to_node by done. cbn.
  by destruct Hn as [n ->].
Qed.

Lemma os_mkdir_new fs ns :
  ".." ∉ ns → is_dir fs (parent ns) = true → node_at fs ns = None →
  os_mkdir fs ns = Ok (put_at ns (Dir ∅) fs).
Proof.
  intros Hb Hp Hn. unfold os_mkdir. rewrite walk_ok_root by eauto. cbn. by rewrite Hn.
Qed.

Lemma path_is_dir_true fs ns : ".." ∉ ns → is_dir fs ns = true → path_is_dir fs ns = true.
Proof.
  intros Hb Hd. unfold path_is_dir. by rewrite walk_to_node by (done || by apply is_dir_node).
Qed.

(** What a new, empty directory changes. *)
Lemma put_dir_spec fs k :
  k ≠ [] → is_dir fs (parent k) = true → node_at fs k = None →
  let fs' := put_at k (Dir ∅) fs in
  (∀ k', file_at fs' k' = file_at fs k') ∧
  is_dir fs' k = true ∧
  (∀ d, is_dir fs' d = is_dir fs d || bool_decide (d = k)).
Proof.
  intros Hne Hp Hn fs'.
  assert (is_dir fs k = false) as Hd by (unfold is_dir; by rewrite Hn).
  assert (node_at fs' k = Some (Dir ∅)) as Hnew by by apply node_at_put_same.
  split; [|split].
  - intros k'. destruct (decide (k' = k)) as [->|Hk'].
    + unfold file_at. by rewrite Hnew, Hn.
    + apply file_at_put; [done|by right|done..].
  - unfold is_dir. by rewrite Hnew.
  - intros d. destruct (decide (d = k)) as [->|Hk'].
    + rewrite bool_decide_true, orb_true_r by done. unfold is_dir. by rewrite Hnew.
    + rewrite bool_decide_false, orb_false_r by done.
      apply is_dir_put; [done|by right|done..].
Qed.

(** [mkdir] with [parents=True, exist_ok=True] succeeds where no file is in
    the way; it touches no file and makes nothing but ancestors. *)
Lemma mkdir_parents_ok fs base ns :
  ".." ∉ base ++ ns → is_dir fs base = true →
  (∀ k, k ∈ prefixes (base ++ ns) → is_file fs k = false) →
  ∃ fs', mkdir_parents fs base (reverse ns) = Ok fs' ∧
         (∀ k, file_at fs' k = file_at fs k) ∧
         is_dir fs' (base ++ ns) = true ∧
         (∀ d, is_dir fs d = true → is_dir fs' d = true) ∧
         (∀ d, is_dir fs' d = true → is_dir fs d = true ∨ d ∈ prefixes (base ++ ns)).
Proof.
  induction ns as [|n ns IH] using rev_ind; intros Hb Hbase Hfree.
  - rewrite app_nil_r in *. exists fs. rewrite mkdir_parents_eq. cbn [reverse].
    rewrite app_nil_r.
    rewrite os_mkdir_exists by (done || by apply is_dir_node). cbn.
    rewrite path_is_dir_true by done. eauto 10.
  - rewrite app_assoc in Hb, Hfree |- *.
    assert (".." ∉ base ++ ns) as Hb'.
    { intros Hin. apply Hb. apply elem_of_app. by left. }
    set (k := (base ++ ns) ++ [n]) in *.
    assert (k ≠ []) as Hk by (unfold k; by destruct (base ++ ns)).
    assert (is_file fs k = false) as Hnf by (apply Hfree; by apply prefixes_self).
    rewrite mkdir_parents_eq, reverse_snoc. cbn [reverse].
    replace (base ++ reverse (n :: reverse ns)) with k.
    2: { unfold k. by rewrite reverse_cons, reverse_involutive, <- app_assoc. }
    destruct (is_dir fs (base ++ ns)) eqn:Hparent.
    + (* the parent is there *)
      destruct (node_at fs k) as [nd|] eqn:Hnode.
      * rewrite os_mkdir_exists by (done || by eexists). cbn.
        assert (is_dir fs k = true) as Hd.
        { unfold is_file in Hnf. unfold is_dir. rewrite Hnode in *. by destruct nd. }
        rewrite path_is_dir_true by done. exists fs. eauto 10.
      * rewrite os_mkdir_new by (done || unfold k; by rewrite parent_snoc).
        destruct (put_dir_spec fs k) as (Hfiles & Hdir & Hdirs);
          [done|unfold k; by rewrite parent_snoc|done|].
        eexists. split; [done|]. split; [done|]. split; [done|]. split.
        -- intros d Hd. by rewrite Hdirs, Hd.
        -- intros d Hd. rewrite Hdirs in Hd. apply orb_true_iff in Hd as [Hd|Hd]; [by left|].
           apply bool_decide_eq_true in Hd as ->. right. by apply prefixes_self.
    + (* the parent is missing *)
      assert (os_mkdir fs k = raise FileNotFoundError) as ->.
      { unfold os_mkdir, k.
        rewrite (walk_missing fs [] (base ++ ns) [n]); [done..|].
        intros k' Hk'. destruct k' as [|x k']; [done|].
        apply Hfree. apply prefixes_app_l, elem_of_prefixes. by split. }
      cbn [raise is_FileNotFoundError exn_cls].
      destruct IH as (fs1 & -> & Hfiles1 & Hdir1 & Hmono1 & Hnew1); [done..| |].
      { intros k' Hk'. apply Hfree. by apply prefixes_app_l. }
      cbn [mbind result_bind].
      assert (node_at fs1 k = None) as Hnode1.
      { destruct (node_at fs1 k) as [[c|es]|] eqn:Hnode; [| |done].
        - assert (file_at fs1 k = Some c) as Hf by (unfold file_at; by rewrite Hnode).
          rewrite Hfiles1 in Hf. rewrite file_at_is_file in Hnf.
          apply bool_decide_eq_false in Hnf. destruct Hnf. by eexists.
        - assert (is_dir fs1 k = true) as Hd by (unfold is_dir; by rewrite Hnode).
          apply Hnew1 in Hd as [Hd|Hd].
          + apply is_dir_node in Hd.
            rewrite (is_dir_above fs (base ++ ns) [n]) in Hparent; done.
          + apply prefixes_length in Hd. unfold k in Hd. rewrite length_app in Hd.
            cbn in Hd. lia. }
      rewrite os_mkdir_new by (done || unfold k; by rewrite parent_snoc).
      destruct (put_dir_spec fs1 k) as (Hfiles & Hdir & Hdirs);
        [done|unfold k; by rewrite parent_snoc|done|].
      eexists. split; [done|]. split; [|split; [done|split]].
      * intros k'. by rewrite Hfiles, Hfiles1.
      * intros d Hd. rewrite Hdirs, (Hmono1 d Hd). done.
      * intros d Hd. rewrite Hdirs in Hd. apply orb_true_iff in Hd as [Hd|Hd].
        -- apply Hnew1 in Hd as [Hd|Hd]; [by left|right]. by apply prefixes_app_l.
        -- apply bool_decide_eq_true in Hd as ->. right. by apply prefixes_self.
Qed.

(** A file in the way stops [mkdir] before it has made anything:
    [FileExistsError] when it is at the place of the directory itself,
    [NotADirectoryError] when it is at the place of an ancestor. *)
Lemma mkdir_parents_obstructed fs base ns k :
  ".." ∉ base ++ ns → k ∈ prefixes (base ++ ns) → is_file fs k = true →
  mkdir_parents fs base (reverse ns)
  = raise (if is_file fs (base ++ ns) then FileExistsError else NotADirectoryError).
Proof.
  intros Hb Hk Hf. apply elem_of_prefixes in Hk as [Hne [rest Hrest]].
  rewrite mkdir_parents_eq, reverse_involutive.
  destruct rest as [|r rest].
  - rewrite app_nil_r in Hrest. subst k. rewrite Hf.
    rewrite os_mkdir_exists by (done || by apply is_file_node). cbn.
    unfold path_is_dir. rewrite walk_to_node by (done || by apply is_file_node).
    by rewrite (is_file_not_dir _ _ Hf).
  - assert (".." ∉ k) as Hbk.
    { intros Hin. apply Hb. rewrite Hrest. apply elem_of_app. by left. }
    assert (walk fs [] (base ++ ns) = raise NotADirectoryError) as Hw.
    { rewrite Hrest. by apply walk_through_file. }
    assert (is_file fs (base ++ ns) = false) as ->.
    { unfold is_file. rewrite Hrest, nothing_below; [done..|].
      by apply is_file_not_dir. }
    unfold os_mkdir, path_is_dir. rewrite Hw. done.
Qed.

(** *** Writing and copying *)

Lemma open_w_ok fs ns c :
  ".." ∉ ns → ns ≠ [] → is_dir fs (parent ns) = true → is_dir fs ns = false →
  let fs' := put_at ns (File c) fs in
  open_w fs ns c = Ok fs' ∧
  file_at fs' ns = Some c ∧
  (∀ k, k ≠ ns → file_at fs' k = file_at fs k) ∧
  (∀ d, is_dir fs' d = is_dir fs d).
Proof.
  intros Hb Hne Hp Hd fs'. unfold open_w. rewrite walk_ok_root by eauto. cbn. rewrite Hd.
  assert (node_at fs' ns = Some (File c)) as Hnew by by apply node_at_put_same.
  split; [done|]. split; [|split].
  - unfold file_at. by rewrite Hnew.
  - intros k Hk. apply file_at_put; [done|left; by eexists|done..].
  - intros d. destruct (decide (d = ns)) as [->|Hk].
    + rewrite Hd. unfold is_dir. by rewrite Hnew.
    + apply is_dir_put; [done|left; by eexists|done..].
Qed.

Lemma open_r_ok fs ns c :
  ".." ∉ ns → file_at fs ns = Some c → open_r fs ns = Ok c.
Proof.
  intros Hb Hf. unfold open_r, file_at in *.
  destruct (node_at fs ns) as [[c'|es]|] eqn:Hn; simplify_eq.
  rewrite walk_to_node by (done || by eexists). cbn. by rewrite Hn.
Qed.

(** ** Paths *)

Lemma split_on_not_nil c s : split_on c s ≠ [].
Proof.
  destruct s as [|a s]; cbn; [done|].
  destruct (Ascii.eqb a c); [done|]. by destruct (split_on c s).
Qed.

Lemma split_on_whole c s : contains c s = false → split_on c s = [s].
Proof.
  induction s as [|a s IH]; cbn; [done|].
  destruct (Ascii.eqb a c); cbn; [done|]. intros Hs. by rewrite IH.
Qed.

Lemma split_on_pieces c s : Forall (λ n, contains c n = false) (split_on c s).
Proof.
  induction s as [|a s IH]; cbn.
  - by repeat constructor.
  - destruct (Ascii.eqb a c) eqn:Ha.
    + by constructor.
    + destruct (split_on c s) as [|h t].
      * repeat constructor. cbn. by rewrite Ha.
      * inversion IH; subst. constructor; [|done]. cbn. by rewrite Ha.
Qed.

Lemma split_on_app c n rest :
  contains c n = false →
  split_on c (n +:+ String c rest) = n :: split_on c rest.
Proof.
  induction n as [|a n IH]; simpl.
  - by rewrite Ascii.eqb_refl.
  - destruct (Ascii.eqb a c); simpl; [done|]. intros Hn. by rewrite IH.
Qed.

Lemma split_on_join c ns :
  ns ≠ [] → Forall (λ n, contains c n = false) ns →
  split_on c (join_with (String c "") ns) = ns.
Proof.
  induction ns as [|n ns IH]; [done|]. intros _ Hns.
  inversion Hns as [|? ? Hn Hns']; subst.
  destruct ns as [|n' ns].
  - cbn. by apply split_on_whole.
  - cbn [join_with]. change (String c "" +:+ ?s) with (String c s).
    rewrite split_on_app by done. f_equal. by apply IH.
Qed.

Lemma plain_no_slash ns :
  Forall plain ns → Forall (λ n, contains "/" n = false) ns.
Proof. intros H. eapply Forall_impl; [done|]. by intros n (_ & _ & ?). Qed.

Lemma plain_kept ns :
  Forall plain ns →
  List.filter (λ n, negb (String.eqb n "") && negb (String.eqb n ".")) ns = ns.
Proof.
  induction 1 as [|n ns (Hne & Hnd & _) _ IH]; cbn; [done|].
  apply String.eqb_neq in Hne, Hnd. rewrite Hne, Hnd. cbn. by rewrite IH.
Qed.

Lemma leading_slashes_plain n rest : plain n → leading_slashes (n +:+ rest) = 0.
Proof.
  intros (Hne & _ & Hs). destruct n as [|a n]; [done|]. simpl in *.
  by destruct (Ascii.eqb a "/").
Qed.

Lemma leading_slashes_join ns :
  Forall plain ns → leading_slashes (join_with "/" ns) = 0.
Proof.
  destruct 1 as [|n ns Hn Hns]; [done|]. destruct ns.
  - destruct Hn as (Hne & _ & Hs). destruct n as [|a n]; [done|]. simpl in *.
    by destruct (Ascii.eqb a "/").
  - cbn [join_with]. by apply leading_slashes_plain.
Qed.

(** Every [Path] that the module builds is well formed. *)
Lemma parse_path_wf s : wf_path (parse_path s).
Proof.
  unfold wf_path, parse_path. cbn.
  pose proof (split_on_pieces "/" s) as Hp.
  induction Hp as [|n ns Hn _ IH]; cbn; [constructor|].
  destruct (String.eqb n "") eqn:He; cbn; [done|].
  destruct (String.eqb n ".") eqn:Hd; cbn; [done|].
  constructor; [|done]. apply String.eqb_neq in He, Hd. done.
Qed.

Lemma path_join_wf p q : wf_path p → wf_path q → wf_path (path_join p q).
Proof.
  unfold wf_path, path_join. intros Hp Hq. destruct (root q); cbn; [|done..].
  by apply Forall_app.
Qed.

Lemma path_div_wf p s : wf_path p → wf_path (p // s).
Proof. intros Hp. apply path_join_wf; [done|apply parse_path_wf]. Qed.

(** Reading back the text of a path gives the path. *)
Lemma parse_path_str p : wf_path p → parse_path (path_str p) = p.
Proof.
  destruct p as [a ns]. unfold wf_path, parse_path, path_str. cbn [root names].
  intros Hwf. destruct ns as [|n ns].
  - by destruct a.
  - assert (split_on "/" (join_with "/" (n :: ns)) = n :: ns) as Hsplit.
    { apply split_on_join; [done|]. by apply plain_no_slash. }
    pose proof (leading_slashes_join _ Hwf) as Hlead.
    pose proof (plain_kept _ Hwf) as Hkept.
    set (body := join_with "/" (n :: ns)) in *.
    destruct a; cbn [anchor_str].
    + change ("" +:+ body) with body. by rewrite Hlead, Hsplit, Hkept.
    + change ("/" +:+ body) with (String "/" body). cbn [leading_slashes split_on].
      rewrite Ascii.eqb_refl, Hlead, Hsplit.
      change (List.filter ?f ("" :: ?l)) with (List.filter f l). by rewrite Hkept.
    + change ("//" +:+ body) with (String "/" (String "/" body)).
      cbn [leading_slashes split_on]. rewrite Ascii.eqb_refl, Hlead, Hsplit.
      change (List.filter ?f ("" :: "" :: ?l)) with (List.filter f l). by rewrite Hkept.
Qed.

Lemma contains_app c s t : contains c (s +:+ t) = contains c s || contains c t.
Proof. induction s as [|a s IH]; simpl; [done|]. by rewrite IH, orb_assoc. Qed.

Lemma append_not_short s t n :
  String.length t = n → String.length (s +:+ t) ≥ n.
Proof.
  intros <-. induction s as [|a s IH]; [change ("" +:+ t) with t; lia|simpl; lia].
Qed.

(** A plain name is a path of its own. *)
Lemma parse_path_plain n : plain n → parse_path n = {| root := Rel; names := [n] |}.
Proof.
  intros Hn. pose proof Hn as (Hne & Hnd & Hs). unfold parse_path.
  rewrite (split_on_whole _ _ Hs), (plain_kept [n]) by by constructor.
  change n with (join_with "/" [n]) at 1.
  rewrite leading_slashes_join by by constructor. done.
Qed.

Lemma plain_descends n : plain n → n ≠ ".." → descends n.
Proof.
  intros Hn Hdd. unfold descends. rewrite (parse_path_plain n Hn). cbn.
  split; [done|]. intros Heq%list_elem_of_singleton. congruence.
Qed.

(** The file name of the validation result is a plain name. *)
Lemma json_name_plain suite : contains "/" suite = false → plain (suite +:+ ".json").
Proof.
  intros Hs. pose proof (append_not_short suite ".json" 5 eq_refl) as Hlen.
  repeat split.
  - intros He. rewrite He in Hlen. cbn in Hlen. lia.
  - intros He. rewrite He in Hlen. cbn in Hlen. lia.
  - by rewrite contains_app, Hs.
Qed.

Lemma json_name_not_back suite : suite +:+ ".json" ≠ "..".
Proof.
  pose proof (append_not_short suite ".json" 5 eq_refl) as Hlen.
  intros He. rewrite He in Hlen. cbn in Hlen. lia.
Qed.

Lemma div_descends p s :
  descends s → root (p // s) = root p ∧ names (p // s) = names p ++ names (parse_path s).
Proof. intros [Hrel _]. unfold path_div, path_join. by rewrite Hrel. Qed.

Lemma div_plain p n :
  plain n → root (p // n) = root p ∧ names (p // n) = names p ++ [n].
Proof. intros Hn. unfold path_div, path_join. by rewrite (parse_path_plain n Hn). Qed.

Lemma descends_no_back s : descends s → ".." ∉ names (parse_path s).
Proof. by intros [_ ?]. Qed.

Lemma not_elem_of_app_2 {A} (x : A) (l1 l2 : list A) : x ∉ l1 → x ∉ l2 → x ∉ l1 ++ l2.
Proof. intros H1 H2 [?|?]%elem_of_app; done. Qed.

Section FileSystem.
Context {data dataset context : Type} (env : Env data dataset context).

Lemma Path_cwd_wf : wf_path (Path_cwd env).
Proof. apply parse_path_wf. Qed.

Lemma abs_absolute p : root p ≠ Rel → abs env p = names p.
Proof. unfold abs, base. by destruct (root p). Qed.

Lemma base_absolute p : root p ≠ Rel → base env p = [].
Proof. unfold base. by destruct (root p). Qed.

Lemma abs_relative p : root p = Rel → abs env p = names (Path_cwd env) ++ names p.
Proof. unfold abs, base. by intros ->. Qed.

(** Going down from a path appends the names. *)
Lemma abs_div p s : descends s → abs env (p // s) = abs env p ++ names (parse_path s).
Proof.
  intros Hs. destruct (div_descends p s Hs) as [Hr Hn].
  unfold abs, base. by rewrite Hr, Hn, app_assoc.
Qed.

Lemma base_div p s : descends s → base env (p // s) = base env p.
Proof.
  intros Hs. destruct (div_descends p s Hs) as [Hr Hn]. unfold base. by rewrite Hr.
Qed.

Lemma abs_div_plain p n : plain n → abs env (p // n) = abs env p ++ [n].
Proof.
  intros Hn. destruct (div_plain p n Hn) as [Hr Hns].
  unfold abs, base. by rewrite Hr, Hns, app_assoc.
Qed.

Lemma base_div_plain p n : plain n → base env (p // n) = base env p.
Proof. intros Hn. destruct (div_plain p n Hn) as [Hr Hns]. unfold base. by rewrite Hr. Qed.

Lemma os_path_str p : wf_path p → os_path env (path_str p) = abs env p.
Proof. intros Hp. unfold os_path. by rewrite parse_path_str. Qed.

Lemma ge_marker_abs :
  abs env (ge_marker env)
  = abs env (Path_cwd env) ++ ["great_expectations"; "great_expectations.yml"].
Proof.
  unfold ge_marker. rewrite !abs_div_plain by by repeat split.
  by rewrite <- app_assoc.
Qed.

Lemma data_dir_abs : data_dir env = abs env (Path_cwd env) ++ ["data"].
Proof. unfold data_dir. by rewrite abs_div_plain by by repeat split. Qed.
End FileSystem.

Arguments parse_path : simpl never.
Arguments path_str : simpl never.
Arguments path_div : simpl never.
Arguments abs : simpl never.
Arguments base : simpl never.
Arguments os_path : simpl never.
Arguments Path_cwd : simpl never.
Arguments mkdir_parents : simpl never.
Arguments open_w : simpl never.
Arguments open_r : simpl never.
Arguments shutil_copy : simpl never.

(** ** Running the methods *)

Lemma bind_ok {A B} (m : M A) (f : A → M B) w w' a :
  m w = (w', Ok a) → (m ≫= f) w = f a w'.
Proof. unfold mbind, M_bind. by intros ->. Qed.

Lemma bind_raise {A B} (m : M A) (f : A → M B) w w' e :
  m w = (w', Raise e) → (m ≫= f) w = (w', Raise e).
Proof. unfold mbind, M_bind. by intros ->. Qed.

Lemma bind_ok_inv {A B} (m : M A) (f : A → M B) w w' b :
  (m ≫= f) w = (w', Ok b) → ∃ w1 a, m w = (w1, Ok a) ∧ f a w1 = (w', Ok b).
Proof.
  unfold mbind, M_bind. destruct (m w) as [w1 [a|e]]; [eauto|]. by intros ?.
Qed.

Lemma performing_ok e f w fs' :
  f (w_fs w) = Ok fs' →
  performing e f w = ({| w_fs := fs'; w_trace := w_trace w ++ [e] |}, Ok tt).
Proof. intros Hf. unfold performing. run. by rewrite Hf. Qed.

Lemma performing_raise e f w e' :
  f (w_fs w) = Raise e' → performing e f w = (w, Raise e').
Proof. intros Hf. unfold performing. run. by rewrite Hf. Qed.

(** A library call that leaves the file system as it is. *)
Lemma library_quiet {A} (f : filesystem → filesystem * result A) w r :
  f (w_fs w) = (w_fs w, r) → library f w = (w, r).
Proof. intros Hf. unfold library. rewrite Hf. by destruct w. Qed.

Lemma library_run {A} (f : filesystem → filesystem * result A) w fs' r :
  f (w_fs w) = (fs', r) → library f w = ({| w_fs := fs'; w_trace := w_trace w |}, r).
Proof. intros Hf. unfold library. by rewrite Hf. Qed.

Section Methods.
Context {data dataset context : Type} (env : Env data dataset context).
Context (self : ExpectationsEvaluator).

Lemma ge_data_context_ok w ctx filepath asset :
  project_ready env self (w_fs w) ctx filepath asset →
  ge_data_context env w = (w, Ok ctx).
Proof. intros (Hctx & _). by apply library_quiet. Qed.

Lemma kedro_dataset_path_ok w ctx filepath asset :
  project_ready env self (w_fs w) ctx filepath asset →
  kedro_dataset_path env self w = (w, Ok (PStr filepath)).
Proof.
  intros (_ & _ & (datasets & attributes & Hd & Hn & Hf) & _).
  unfold kedro_dataset_path, kedro_dataset_name. run. rewrite Hd. run.
  rewrite (dict_getitem_Some _ _ _ Hn). run. by rewrite (dict_getitem_Some _ _ _ Hf).
Qed.

Lemma normalize_data_asset_ok w ctx filepath asset :
  project_ready env self (w_fs w) ctx filepath asset →
  normalize_data_asset env (PStr filepath) w = (w, Ok asset).
Proof.
  intros Hready. pose proof Hready as (_ & _ & _ & Hnorm). unfold normalize_data_asset.
  rewrite (bind_ok _ _ _ _ _ (ge_data_context_ok w ctx filepath asset Hready)).
  run. by rewrite Hnorm.
Qed.

(** The directory of the asset under a directory of the project. *)
Lemma asset_dir_abs p asset :
  asset_descends asset →
  abs env (p // datasource asset // generator asset // generator_asset asset)
  = asset_dir (abs env p) asset ∧
  base env (p // datasource asset // generator asset // generator_asset asset)
  = base env p.
Proof.
  intros (Hd & Hg & Ha). unfold asset_dir.
  rewrite !abs_div, !base_div by done. by rewrite <- !app_assoc.
Qed.

Lemma asset_dir_no_back b asset :
  ".." ∉ b → asset_descends asset → ".." ∉ asset_dir b asset.
Proof.
  intros Hb (Hd & Hg & Ha). unfold asset_dir.
  apply not_elem_of_app_2; [done|].
  apply not_elem_of_app_2; [by apply descends_no_back|].
  apply not_elem_of_app_2; by apply descends_no_back.
Qed.

(** The root directory of the project, as a path. *)
Lemma root_directory_abs ctx filepath asset fs :
  project_ready env self fs ctx filepath asset →
  abs env (parse_path (root_directory env ctx)) = ge_root env ctx ∧
  base env (parse_path (root_directory env ctx)) = [].
Proof.
  intros (_ & (Hroot & _) & _). by rewrite abs_absolute, base_absolute.
Qed.
End Methods.

(** ** Saving the validation result *)

Lemma single_no_back n : n ≠ ".." → ".." ∉ [n].
Proof. intros Hn [Heq|[]%elem_of_nil]%elem_of_cons. congruence. Qed.

Section Saving.
Context {data dataset context : Type} (env : Env data dataset context).
Context (self : ExpectationsEvaluator).

(** The directory of the validation results of the run and the asset. *)
Lemma validations_location_abs ctx filepath asset fs :
  project_ready env self fs ctx filepath asset →
  descends (_run_id self) → asset_descends asset →
  let location :=
    parse_path (root_directory env ctx) // "uncommitted" // "validations"
      // run_id self // datasource asset // generator asset // generator_asset asset in
  let dir := asset_dir (ge_root env ctx ++ ["uncommitted"; "validations"]
                          ++ names (parse_path (_run_id self))) asset in
  abs env location = dir ∧ base env location = [] ∧ names location = dir ∧ ".." ∉ dir.
Proof.
  intros Hready Hrun Hasset location dir.
  destruct (root_directory_abs env self ctx filepath asset fs Hready) as [Hroot Hbase].
  destruct (asset_dir_abs env
              (parse_path (root_directory env ctx) // "uncommitted" // "validations"
                 // run_id self) asset Hasset) as [Habs Hb].
  assert (abs env location = dir) as Hdir.
  { unfold location. rewrite Habs. unfold dir. f_equal.
    rewrite abs_div by done. rewrite !abs_div_plain by by repeat split.
    rewrite Hroot. unfold run_id. by rewrite <- !app_assoc. }
  assert (base env location = []) as Hbl.
  { unfold location. rewrite Hb, base_div by done.
    by rewrite !base_div_plain by by repeat split. }
  split; [done|]. split; [done|]. split.
  - unfold abs in Hdir. by rewrite Hbl in Hdir.
  - pose proof Hready as (_ & (_ & Hback) & _).
    unfold dir. apply asset_dir_no_back; [|done].
    apply not_elem_of_app_2; [done|].
    apply not_elem_of_app_2; [|by apply descends_no_back].
    intros [?|[?|[]%elem_of_nil]%elem_of_cons]%elem_of_cons; done.
Qed.

(** What [save_validations] does once it has the name of the suite. *)
Lemma save_validations_run validation w ctx filepath suite asset :
  project_ready env self (w_fs w) ctx filepath asset →
  (meta ← getitem validation "meta"; getitem meta "expectation_suite_name")
    = Ok (PStr suite) →
  descends (_run_id self) → asset_descends asset → contains "/" suite = false →
  let dir := asset_dir (ge_root env ctx ++ ["uncommitted"; "validations"]
                          ++ names (parse_path (_run_id self))) asset in
  let file := dir ++ [suite +:+ ".json"] in
  save_validations env self validation w
  = (_ ← performing (EvMkdir dir) (λ fs, mkdir_parents fs [] (reverse dir));
     performing (EvDump file validation) (λ fs, open_w fs file (Json validation))) w.
Proof.
  intros Hready Hmeta Hrun Hasset Hsuite dir file.
  destruct (validations_location_abs ctx filepath asset (w_fs w) Hready Hrun Hasset)
    as (Habs & Hbase & Hnames & _).
  unfold save_validations.
  rewrite (bind_ok _ _ _ _ _ (ge_data_context_ok env self w ctx filepath asset Hready)).
  rewrite (bind_ok _ _ _ _ _ (kedro_dataset_path_ok env self w ctx filepath asset Hready)).
  rewrite (bind_ok _ _ _ _ _ (normalize_data_asset_ok env self w ctx filepath asset Hready)).
  unfold lift at 1. unfold mbind at 1, M_bind at 1. rewrite Hmeta.
  unfold lift at 1. unfold mbind at 1, M_bind at 1. cbn [py_add_str].
  unfold Path_mkdir, Path_write.
  rewrite abs_div_plain by by apply json_name_plain.
  by rewrite Habs, Hbase, Hnames.
Qed.
End Saving.

(** [save_validations] where everything is in place. *)
Lemma save_validations_ok {data dataset context : Type}
    (env : Env data dataset context)
    (self : ExpectationsEvaluator) (validation : pyval) (w : world)
    (ctx : context) (filepath suite : string) (asset : NormalizedDataAssetName) :
  project_ready env self (w_fs w) ctx filepath asset →
  (meta ← getitem validation "meta"; getitem meta "expectation_suite_name")
    = Ok (PStr suite) →
  descends (_run_id self) →
  asset_descends asset →
  contains "/" suite = false →
  let dir := asset_dir (ge_root env ctx ++ ["uncommitted"; "validations"]
                          ++ names (parse_path (_run_id self))) asset in
  let file := dir ++ [suite +:+ ".json"] in
  unobstructed (w_fs w) dir →
  is_dir (w_fs w) file = false →
  ∃ fs',
    save_validations env self validation w
    = ({| w_fs := fs'; w_trace := w_trace w ++ [EvMkdir dir; EvDump file validation] |},
       Ok tt) ∧
    file_at fs' file = Some (Json validation) ∧
    is_dir fs' dir = true ∧
    (∀ k, k ≠ file → file_at fs' k = file_at (w_fs w) k).
Proof.
  intros Hready Hmeta Hrun Hasset Hsuite dir file Hfree Hnodir.
  destruct (validations_location_abs env self ctx filepath asset (w_fs w) Hready Hrun Hasset)
    as (_ & _ & _ & Hback).
  rewrite (save_validations_run env self validation w ctx filepath suite asset) by done.
  destruct (mkdir_parents_ok (w_fs w) [] dir Hback (is_dir_nil _) Hfree)
    as (fs1 & Hmk & Hfiles & Hisdir & Hmono & Hnew).
  erewrite bind_ok by (apply performing_ok; exact Hmk).
  assert (is_dir fs1 file = false) as Hnodir1.
  { destruct (is_dir fs1 file) eqn:Hd; [|done].
    apply Hnew in Hd as [Hd|Hd]; [congruence|].
    apply prefixes_length in Hd. unfold file in Hd. rewrite length_app in Hd. cbn in Hd. lia. }
  destruct (open_w_ok fs1 file (Json validation)) as (Hw & Hfile & Hframe & Hdirs).
  { apply not_elem_of_app_2; [done|]. apply single_no_back, json_name_not_back. }
  { unfold file. by destruct dir. }
  { unfold file. by rewrite parent_snoc. }
  { done. }
  erewrite performing_ok by (cbn [w_fs]; exact Hw).
  eexists. split.
  - cbn [w_fs w_trace]. by rewrite <- app_assoc.
  - split; [done|]. split; [by rewrite Hdirs|].
    intros k Hk. by rewrite Hframe, Hfiles.
Qed.

(** C4. Where the validation tool's project is in place, the run
    identifier and the three names of the normalized data asset are relative
    paths, the suite name of the result's metadata has no slash and nothing
    obstructs the target, [save_validations] writes the validation result as
    JSON to the file
    [uncommitted/validations/<run_id>/<datasource>/<generator>/<generator_asset>/<expectation_suite_name>.json]
    under the root directory of the validation tool, creating the directory,
    and changes no other file. *)
Theorem save_validations_writes_result {data dataset context : Type}
    (env : Env data dataset context)
    (self : ExpectationsEvaluator) (validation : pyval) (w : world)
    (ctx : context) (filepath suite : string) (asset : NormalizedDataAssetName) :
  project_ready env self (w_fs w) ctx filepath asset →
  (meta ← getitem validation "meta"; getitem meta "expectation_suite_name")
    = Ok (PStr suite) →
  descends (_run_id self) →
  asset_descends asset →
  contains "/" suite = false →
  let dir := asset_dir (ge_root env ctx ++ ["uncommitted"; "validations"]
                          ++ names (parse_path (_run_id self))) asset in
  let file := dir ++ [suite +:+ ".json"] in
  unobstructed (w_fs w) dir →
  is_dir (w_fs w) file = false →
  ∃ fs',
    save_validations env self validation w
    = ({| w_fs := fs'; w_trace := w_trace w ++ [EvMkdir dir; EvDump file validation] |},
       Ok tt) ∧
    file_at fs' file = Some (Json validation) ∧
    is_dir fs' dir = true ∧
    (∀ k, k ≠ file → file_at fs' k = file_at (w_fs w) k).
Proof.
  intros Hready Hmeta Hrun Hasset Hsuite dir file Hfree Hnodir.
  by apply (save_validations_ok env self validation w ctx filepath suite asset).
Qed.

Lemma sample_project_ready :
  project_ready Sample.env Sample.strict Sample.project_files Sample.project_ctx
    "data/01_raw/cars.csv" Sample.cars_asset.
Proof.
  split; [vm_compute; reflexivity|]. split; [split; [done|by_computing]|].
  split; [|vm_compute; reflexivity].
  eexists _, _. split; [reflexivity|]. split; vm_compute; reflexivity.
Qed.

Lemma sample_asset_descends : asset_descends Sample.cars_asset.
Proof. repeat split; try (vm_compute; reflexivity); by_computing. Qed.

Lemma save_validations_writes_result_witness :
  let dir := Sample.project_dir ++
               ["great_expectations"; "uncommitted"; "validations"; "run1";
                "data"; "01_raw"; "cars.csv"] in
  ∃ fs',
    save_validations Sample.env Sample.strict Sample.column_failure Sample.project
    = ({| w_fs := fs';
          w_trace := [EvMkdir dir; EvDump (dir ++ ["default.json"]) Sample.column_failure] |},
       Ok tt) ∧
    file_at fs' (dir ++ ["default.json"]) = Some (Json Sample.column_failure) ∧
    is_dir fs' dir = true ∧
    (∀ k, k ≠ dir ++ ["default.json"] → file_at fs' k = file_at Sample.project_files k).
Proof.
  apply (save_validations_writes_result Sample.env Sample.strict Sample.column_failure
           Sample.project Sample.project_ctx "data/01_raw/cars.csv" "default"
           Sample.cars_asset).
  - apply sample_project_ready.
  - reflexivity.
  - split; [vm_compute; reflexivity|by_computing].
  - apply sample_asset_descends.
  - reflexivity.
  - unfold unobstructed. rewrite <- Forall_forall. by_computing.
  - vm_compute. reflexivity.
Defined.

(** ** The order of the steps *)

Lemma steps_app es1 es2 : steps (es1 ++ es2) = steps es1 ++ steps es2.
Proof. apply omap_app. Qed.

Lemma emits_nothing {A} (m : M A) :
  (∀ w, w_trace (m w).1 = w_trace w) → emits m [].
Proof.
  intros H w. exists []. rewrite H, app_nil_r. split; [done|]. by split.
Qed.

Lemma emits_ret {A} (a : A) : emits (mret a) [].
Proof. by apply emits_nothing. Qed.

Lemma emits_lift {A} (r : result A) : emits (lift r) [].
Proof. by apply emits_nothing. Qed.

Lemma emits_reading {A} (f : filesystem → result A) : emits (reading f) [].
Proof. by apply emits_nothing. Qed.

Lemma emits_library {A} (f : filesystem → filesystem * result A) : emits (library f) [].
Proof. apply emits_nothing. intros w. unfold library. by destruct (f (w_fs w)). Qed.

Lemma emits_updating f : emits (updating f) [].
Proof. apply emits_nothing. intros w. unfold updating. by destruct (f (w_fs w)). Qed.

Lemma emits_emit e : emits (emit e) (steps [e]).
Proof. intros w. exists [e]. by repeat split. Qed.

Lemma emits_bind {A B} (m : M A) (f : A → M B) s1 s2 :
  emits m s1 → (∀ a, emits (f a) s2) → emits (m ≫= f) (s1 ++ s2).
Proof.
  intros Hm Hf w. destruct (Hm w) as (new1 & Ht1 & Hp1 & Hok1).
  unfold mbind, M_bind. destruct (m w) as [w1 [a|e]]; cbn in *.
  - destruct (Hf a w1) as (new2 & Ht2 & Hp2 & Hok2).
    exists (new1 ++ new2). rewrite Ht2, Ht1, app_assoc, steps_app, (Hok1 I).
    split; [done|]. split.
    + by apply prefix_app.
    + intros Hok. by rewrite (Hok2 Hok).
  - exists new1. split; [done|]. split; [|done].
    by apply prefix_app_r.
Qed.

Lemma emits_performing e f : emits (performing e f) (steps [e]).
Proof.
  unfold performing. change (steps [e]) with ([] ++ steps [e]).
  apply emits_bind; [apply emits_updating|intros _; apply emits_emit].
Qed.

Lemma emits_log_other lg lvl msg :
  step_of (EvLog lg lvl msg) = None → emits (log lg lvl msg) [].
Proof.
  intros Hs w. exists [EvLog lg lvl msg]. unfold steps. cbn [omap list_omap].
  rewrite Hs. by repeat split.
Qed.

(** The same computation, with its binds nested the other way. *)
Lemma bind_assoc {A B C} (m : M A) (f : A → M B) (g : B → M C) w :
  ((m ≫= f) ≫= g) w = (m ≫= λ a, f a ≫= g) w.
Proof. unfold mbind, M_bind. by destruct (m w) as [w1 [a|e]]. Qed.

(** *** Where the exception of the failure policy comes from *)

Lemma fails_validation_raise {A} c :
  c ≠ FailedValidationException → ¬ fails_validation (@raise A c).
Proof. intros Hc [args [= Heq]]. done. Qed.

Lemma lookup_error_not_failure {A} e : lookup_error e → ¬ fails_validation (@Raise A e).
Proof. intros [He|He] [args [= ->]]; done. Qed.

Lemma fails_validation_Raise {A B} e :
  fails_validation (@Raise A e) → fails_validation (@Raise B e).
Proof. intros [args [= ->]]. by exists args. Qed.

Lemma nfv_ret {A} (a : A) : never_fails_validation (mret a).
Proof. intros w [args [=]]. Qed.

Lemma nfv_lift {A} (r : result A) : ¬ fails_validation r → never_fails_validation (lift r).
Proof. by intros Hr w. Qed.

Lemma nfv_reading {A} (f : filesystem → result A) :
  (∀ fs, ¬ fails_validation (f fs)) → never_fails_validation (reading f).
Proof. intros Hf w. apply Hf. Qed.

Lemma nfv_library {A} (f : filesystem → filesystem * result A) :
  (∀ fs, ¬ fails_validation (f fs).2) → never_fails_validation (library f).
Proof.
  intros Hf w. unfold library. specialize (Hf (w_fs w)). by destruct (f (w_fs w)).
Qed.

Lemma nfv_emit e : never_fails_validation (emit e).
Proof. intros w [args [=]]. Qed.

Lemma nfv_bind {A B} (m : M A) (f : A → M B) :
  never_fails_validation m → (∀ a, never_fails_validation (f a)) →
  never_fails_validation (m ≫= f).
Proof.
  intros Hm Hf w. specialize (Hm w). unfold mbind, M_bind.
  destruct (m w) as [w1 [a|e]]; [apply Hf|].
  intros He. apply Hm. exact (fails_validation_Raise e He).
Qed.

Lemma nfv_performing e f :
  (∀ fs, ¬ fails_validation (f fs)) → never_fails_validation (performing e f).
Proof.
  intros Hf w. unfold performing. run. specialize (Hf (w_fs w)).
  destruct (f (w_fs w)) as [fs'|e']; [by intros [args [=]]|].
  intros He. apply Hf. exact (fails_validation_Raise e' He).
Qed.

(** A computation that ends well, or in the exception of the policy, has
    gone through a first part that cannot raise that exception. *)
Lemma reach {A B} (m : M A) (f : A → M B) w :
  never_fails_validation m →
  is_ok ((m ≫= f) w).2 ∨ fails_validation ((m ≫= f) w).2 →
  ∃ w1 a, m w = (w1, Ok a) ∧ (m ≫= f) w = f a w1.
Proof.
  intros Hm. specialize (Hm w). unfold mbind, M_bind.
  destruct (m w) as [w1 [a|e]]; [eauto|]. cbn in *.
  intros [[]|He]. destruct Hm. exact (fails_validation_Raise e He).
Qed.

Lemma not_failure_Ok {A} (a : A) : ¬ fails_validation (Ok a).
Proof. by intros [args [=]]. Qed.

Lemma not_failure_Raise {A B} e : ¬ fails_validation (@Raise A e) → ¬ fails_validation (@Raise B e).
Proof. intros He H. apply He. exact (fails_validation_Raise e H). Qed.

Lemma not_failure_bind {A B} (r : result A) (f : A → result B) :
  ¬ fails_validation r → (∀ a, ¬ fails_validation (f a)) → ¬ fails_validation (r ≫= f).
Proof. intros Hr Hf. destruct r as [a|e]; cbn; [apply Hf|exact (not_failure_Raise e Hr)]. Qed.

(** The operating system raises errors of its own. *)
Lemma walk_not_failure fs cur ns : ¬ fails_validation (walk fs cur ns).
Proof.
  revert cur. induction ns as [|n ns IH]; intros cur; cbn.
  - apply not_failure_Ok.
  - destruct (is_dir fs cur); [apply IH|].
    destruct (is_file fs cur); by apply fails_validation_raise.
Qed.

Lemma os_mkdir_not_failure fs ns : ¬ fails_validation (os_mkdir fs ns).
Proof.
  apply not_failure_bind; [apply walk_not_failure|intros k].
  destruct (node_at fs k); [by apply fails_validation_raise|apply not_failure_Ok].
Qed.

Lemma mkdir_parents_not_failure fs b sn : ¬ fails_validation (mkdir_parents fs b sn).
Proof.
  revert fs. induction sn as [|n sn IH]; intros fs; rewrite mkdir_parents_eq.
  - pose proof (os_mkdir_not_failure fs (b ++ reverse [])) as H0.
    destruct (os_mkdir fs (b ++ reverse [])) as [fs'|e]; [apply not_failure_Ok|].
    destruct (is_FileNotFoundError e); [done|].
    destruct (path_is_dir fs (b ++ reverse [])); [apply not_failure_Ok|done].
  - pose proof (os_mkdir_not_failure fs (b ++ reverse (n :: sn))) as H1.
    destruct (os_mkdir fs (b ++ reverse (n :: sn))) as [fs'|e]; [apply not_failure_Ok|].
    destruct (is_FileNotFoundError e).
    + apply not_failure_bind; [apply IH|intros fs1].
      pose proof (os_mkdir_not_failure fs1 (b ++ reverse (n :: sn))) as H2.
      destruct (os_mkdir fs1 (b ++ reverse (n :: sn))) as [fs2|e2]; [apply not_failure_Ok|].
      destruct (is_FileNotFoundError e2); [done|].
      destruct (path_is_dir fs1 (b ++ reverse (n :: sn))); [apply not_failure_Ok|done].
    + destruct (path_is_dir fs (b ++ reverse (n :: sn))); [apply not_failure_Ok|done].
Qed.

Lemma open_w_not_failure fs ns c : ¬ fails_validation (open_w fs ns c).
Proof.
  apply not_failure_bind; [apply walk_not_failure|intros k].
  destruct (is_dir fs k); [by apply fails_validation_raise|apply not_failure_Ok].
Qed.

Lemma open_r_not_failure fs ns : ¬ fails_validation (open_r fs ns).
Proof.
  apply not_failure_bind; [apply walk_not_failure|intros k].
  destruct (node_at fs k) as [[c|es]|];
    [apply not_failure_Ok|by apply fails_validation_raise..].
Qed.

Lemma shutil_copy_not_failure fs src dst b : ¬ fails_validation (shutil_copy fs src dst b).
Proof.
  unfold shutil_copy. destruct (samefile fs src _); [by apply fails_validation_raise|].
  apply not_failure_bind; [apply open_r_not_failure|intros c]. apply open_w_not_failure.
Qed.

Lemma dict_getitem_not_failure {V} (d : gmap string V) k :
  ¬ fails_validation (dict_getitem d k).
Proof. unfold dict_getitem. destruct (d !! k); by intros [args [=]]. Qed.

Lemma getitem_not_failure v k : ¬ fails_validation (getitem v k).
Proof.
  destruct (getitem v k) as [x|e] eqn:Hg; [by intros [args [=]]|].
  by apply lookup_error_not_failure, (getitem_raises v k).
Qed.

Lemma last_item_not_failure xs : ¬ fails_validation (last_item xs).
Proof. unfold last_item. destruct (last xs); by intros [args [=]]. Qed.

Section Order.
Context {data dataset context : Type} (env : Env data dataset context).
Context (self : ExpectationsEvaluator).

Lemma emits_call {A} (f : filesystem → filesystem * result A) :
  emits (call f) [StepCall].
Proof.
  intros w. exists [EvCall]. unfold call. destruct (f (w_fs w)). by repeat split.
Qed.

Lemma emits_kedro_dataset_path : emits (kedro_dataset_path env self) [].
Proof.
  unfold kedro_dataset_path.
  apply (emits_bind _ _ [] []); [apply emits_reading|intros datasets].
  apply (emits_bind _ _ [] []); [apply emits_lift|intros attributes].
  apply emits_lift.
Qed.

Lemma emits_normalize_data_asset v : emits (normalize_data_asset env v) [].
Proof.
  unfold normalize_data_asset.
  apply (emits_bind _ _ [] []); [apply emits_library|intros ctx].
  apply (emits_bind _ _ [] []); [apply emits_lift|intros p].
  apply emits_reading.
Qed.

Lemma emits_copy s :
  emits (copy_expectations_to_great_expectations env self s) [StepCopy].
Proof.
  unfold copy_expectations_to_great_expectations.
  apply (emits_bind _ _ [] [StepCopy]); [apply emits_kedro_dataset_path|intros p].
  apply (emits_bind _ _ [] [StepCopy]); [apply emits_normalize_data_asset|intros asset].
  apply (emits_bind _ _ [] [StepCopy]); [apply emits_library|intros ctx].
  apply (emits_bind _ _ [] [StepCopy]); [apply emits_lift|intros filename].
  apply (emits_bind _ _ [] [StepCopy]); [apply emits_performing|intros _].
  apply emits_performing.
Qed.

Lemma emits_log_validating : emits (log_validating self) [].
Proof.
  unfold log_validating.
  apply (emits_bind _ _ [] []); [apply emits_lift|intros suite_file].
  by apply emits_log_other.
Qed.

Lemma emits_validate_suite d :
  emits (validate_suite env self d) [StepValidate "COMPLETE"].
Proof.
  unfold validate_suite.
  apply (emits_bind _ _ [StepValidate "COMPLETE"] []);
    [apply emits_emit|intros _; apply emits_reading].
Qed.

Lemma emits_save_validations validation :
  emits (save_validations env self validation) [StepSerialize].
Proof.
  unfold save_validations.
  apply (emits_bind _ _ [] [StepSerialize]); [apply emits_library|intros ctx].
  apply (emits_bind _ _ [] [StepSerialize]); [apply emits_kedro_dataset_path|intros p].
  apply (emits_bind _ _ [] [StepSerialize]); [apply emits_normalize_data_asset|intros asset].
  apply (emits_bind _ _ [] [StepSerialize]); [apply emits_lift|intros name].
  apply (emits_bind _ _ [] [StepSerialize]); [apply emits_lift|intros file_name].
  apply (emits_bind _ _ [] [StepSerialize]); [apply emits_performing|intros _].
  apply emits_performing.
Qed.

(** The policy writes at most one record, and exactly one when it returns. *)
Lemma emits_raise_on_failure validation :
  emits (raise_on_failure self validation) [StepPolicy].
Proof.
  intros w. unfold raise_on_failure, break_on_failure.
  destruct (getitem validation "success") as [success|e]; run.
  2: { exists []. rewrite app_nil_r.
       destruct (_break_on_failure self); run; repeat split; try done;
         by apply prefix_nil. }
  destruct (_break_on_failure self), (truthy success) eqn:Ht; run; rewrite ?Ht; run.
  all: destruct (getitem validation "statistics") as [statistics|e]; run.
  all: rewrite ?Ht; run.
  all: try destruct (failed_validations validation) as [failed|e']; run.
  all: try (eexists [_]; split; [reflexivity|]; by split).
  all: exists []; rewrite app_nil_r; repeat split; try done; by apply prefix_nil.
Qed.

(** The policy changes no file, and when it raises its exception it has
    logged the failed expectations just before. *)
Lemma raise_on_failure_fs validation w :
  w_fs (raise_on_failure self validation w).1 = w_fs w.
Proof.
  unfold raise_on_failure, break_on_failure.
  destruct (getitem validation "success") as [success|e]; run.
  2: { by destruct (_break_on_failure self). }
  destruct (_break_on_failure self), (truthy success) eqn:Ht; run; rewrite ?Ht; run.
  all: destruct (getitem validation "statistics") as [statistics|e]; run.
  all: rewrite ?Ht; run.
  all: try destruct (failed_validations validation) as [failed|e']; run.
  all: done.
Qed.

Lemma raise_on_failure_failure validation w :
  fails_validation (raise_on_failure self validation w).2 →
  ∃ failed,
    raise_on_failure self validation w
    = (logged w ERROR (MsgFailed failed), Raise (Exn FailedValidationException [])).
Proof.
  intros [args Hr].
  destruct (raise_on_failure self validation w) as [w' r] eqn:Hrun. cbn in Hr. subst r.
  destruct (raise_on_failure_raises_only_if self validation w w' args Hrun)
    as (Hb & (success & Hs & Ht) & (failed & Hf) & ->).
  rewrite (raise_on_failure_strict self validation success w Hb Hs Ht), Hf in Hrun.
  exists failed. by rewrite <- Hrun.
Qed.

(** Reading back what was written. *)
Lemma walk_lands fs cur ns k :
  walk fs cur ns = Ok k → ns ≠ [] → is_dir fs k = true ∨ is_dir fs (parent k) = true.
Proof.
  revert cur. induction ns as [|n ns IH]; intros cur Hw Hne; [done|]. cbn in Hw.
  destruct (is_dir fs cur) eqn:Hcur.
  2: { destruct (is_file fs cur); discriminate Hw. }
  destruct ns as [|n' ns].
  - cbn in Hw. injection Hw as <-. destruct (String.eqb n "..").
    + left. destruct cur as [|x cur _] using rev_ind; [done|].
      rewrite parent_snoc. apply (is_dir_above fs cur [x]); [done|by apply is_dir_node].
    + right. by rewrite parent_snoc.
  - by apply (IH _ Hw).
Qed.

Lemma walk_stable fs fs' cur ns k :
  (∀ d, is_dir fs' d = is_dir fs d) → walk fs cur ns = Ok k → walk fs' cur ns = Ok k.
Proof.
  intros Hd. revert cur. induction ns as [|n ns IH]; intros cur Hw; [done|]. cbn in *.
  rewrite Hd. destruct (is_dir fs cur); [by apply IH|].
  destruct (is_file fs cur); discriminate Hw.
Qed.

Lemma open_w_read fs ns c fs' : open_w fs ns c = Ok fs' → open_r fs' ns = Ok c.
Proof.
  unfold open_w, open_r. destruct (walk fs [] ns) as [k|e] eqn:Hw; [|done]. cbn.
  destruct (is_dir fs k) eqn:Hk; [done|]. intros [= <-].
  assert (k ≠ []) as Hne by by intros ->.
  assert (ns ≠ []) as Hns by (intros ->; cbn in Hw; by injection Hw as <-).
  assert (is_dir fs (parent k) = true) as Hp.
  { destruct (walk_lands fs [] ns k Hw Hns); [congruence|done]. }
  assert (node_at (put_at k (File c) fs) k = Some (File c)) as Hnew
    by by apply node_at_put_same.
  rewrite (walk_stable fs _ [] ns k); [cbn; by rewrite Hnew| |done].
  intros d. destruct (decide (d = k)) as [->|Hd].
  - rewrite Hk. unfold is_dir. by rewrite Hnew.
  - apply is_dir_put; [done|left; by eexists|done..].
Qed.

(** A result that is saved is in its file, and the record of it is the
    last that [save_validations] makes. *)
Lemma save_validations_dumps validation w w' :
  save_validations env self validation w = (w', Ok tt) →
  ∃ pre file,
    w_trace w' = w_trace w ++ pre ++ [EvDump file validation] ∧
    open_r (w_fs w') file = Ok (Json validation).
Proof.
  unfold save_validations. intros Hrun.
  apply bind_ok_inv in Hrun as (w1 & ctx & H1 & Hrun).
  apply bind_ok_inv in Hrun as (w2 & p & H2 & Hrun).
  apply bind_ok_inv in Hrun as (w3 & asset & H3 & Hrun).
  apply bind_ok_inv in Hrun as (w4 & name & H4 & Hrun).
  apply bind_ok_inv in Hrun as (w5 & file_name & H5 & Hrun).
  apply bind_ok_inv in Hrun as (w6 & [] & H6 & Hrun).
  destruct (emits_library (DataContext env (Path_cwd env // "great_expectations")) w)
    as (n1 & T1 & _).
  destruct (emits_kedro_dataset_path w1) as (n2 & T2 & _).
  destruct (emits_normalize_data_asset p w2) as (n3 & T3 & _).
  unfold ge_data_context in H1. rewrite H1 in T1. rewrite H2 in T2. rewrite H3 in T3.
  cbn [fst] in T1, T2, T3.
  unfold lift in H4, H5. injection H4 as <- _. injection H5 as <- _.
  unfold performing in H6, Hrun. revert H6 Hrun. run.
  destruct (Path_mkdir env (w_fs w3) _) as [fs6|e6]; [|done]. intros [= <-].
  cbn [w_fs w_trace].
  destruct (Path_write env fs6 _ (Json validation)) as [fs7|e7] eqn:Hw; [|done].
  intros [= <-]. cbn [w_fs w_trace].
  eexists (n1 ++ n2 ++ n3 ++ [EvMkdir _]), _. split.
  - rewrite T3, T2, T1. by rewrite <- !app_assoc.
  - by apply (open_w_read fs6).
Qed.

(** *** The parts of a load and of a save *)

(** What [load] does once the suite is copied. *)
Lemma emits_load_tail (d : data) (ed : dataset) :
  emits (_ ← log_validating self;
         validation ← validate_suite env self ed;
         _ ← save_validations env self validation;
         _ ← raise_on_failure self validation;
         mret d)
    [StepValidate "COMPLETE"; StepSerialize; StepPolicy].
Proof.
  apply (emits_bind _ _ [] [_; _; _]); [apply emits_log_validating|intros _].
  apply (emits_bind _ _ [StepValidate "COMPLETE"] [_; _]);
    [apply emits_validate_suite|intros validation].
  apply (emits_bind _ _ [StepSerialize] [_]); [apply emits_save_validations|intros _].
  apply (emits_bind _ _ [StepPolicy] []); [apply emits_raise_on_failure|intros _].
  apply emits_ret.
Qed.

(** What [save] does once the suite is copied. *)
Lemma emits_save_tail (d : data) :
  emits (expectations_data ← lift (PandasDataset env d);
         _ ← log_validating self;
         validation ← validate_suite env self expectations_data;
         _ ← save_validations env self validation;
         raise_on_failure self validation)
    [StepValidate "COMPLETE"; StepSerialize; StepPolicy].
Proof.
  apply (emits_bind _ _ [] [_; _; _]); [apply emits_lift|intros ed].
  apply (emits_bind _ _ [] [_; _; _]); [apply emits_log_validating|intros _].
  apply (emits_bind _ _ [StepValidate "COMPLETE"] [_; _]);
    [apply emits_validate_suite|intros validation].
  apply (emits_bind _ _ [StepSerialize] [_]); [apply emits_save_validations|intros _].
  apply emits_raise_on_failure.
Qed.

Lemma emits_load name f : emits (load env self name f) transformer_order.
Proof.
  unfold load, transformer_order.
  apply (emits_bind _ _ [StepCall] [_; _; _; _]); [apply emits_call|intros d].
  apply (emits_bind _ _ [] [_; _; _; _]); [apply emits_lift|intros ed].
  apply (emits_bind _ _ [StepCopy] [_; _; _]); [apply emits_copy|intros _].
  apply emits_load_tail.
Qed.

Lemma emits_save name g d : emits (save env self name g d) transformer_order.
Proof.
  unfold save, transformer_order.
  apply (emits_bind _ _ [StepCall] [_; _; _; _]); [apply emits_call|intros _].
  apply (emits_bind _ _ [StepCopy] [_; _; _]); [apply emits_copy|intros _].
  apply emits_save_tail.
Qed.

(** *** The libraries and the exception of the policy *)

Context (Hlib : libraries_raise_their_own env).

Lemma nfv_ge_data_context : never_fails_validation (ge_data_context env).
Proof. destruct Hlib as (_ & Hc & _). apply nfv_library, Hc. Qed.

Lemma nfv_kedro_dataset_path : never_fails_validation (kedro_dataset_path env self).
Proof.
  destruct Hlib as (Hk & _). unfold kedro_dataset_path.
  apply nfv_bind; [by apply nfv_reading|intros datasets].
  apply nfv_bind; [apply nfv_lift, dict_getitem_not_failure|intros attributes].
  apply nfv_lift, dict_getitem_not_failure.
Qed.

Lemma nfv_normalize_data_asset v : never_fails_validation (normalize_data_asset env v).
Proof.
  destruct Hlib as (_ & _ & Hn & _). unfold normalize_data_asset.
  apply nfv_bind; [apply nfv_ge_data_context|intros ctx].
  apply nfv_bind.
  - apply nfv_lift. destruct v; try by apply fails_validation_raise.
    by intros [args [=]].
  - intros p. by apply nfv_reading.
Qed.

Lemma nfv_copy s :
  never_fails_validation (copy_expectations_to_great_expectations env self s).
Proof.
  unfold copy_expectations_to_great_expectations.
  apply nfv_bind; [apply nfv_kedro_dataset_path|intros p].
  apply nfv_bind; [apply nfv_normalize_data_asset|intros asset].
  apply nfv_bind; [apply nfv_ge_data_context|intros ctx].
  apply nfv_bind; [apply nfv_lift, last_item_not_failure|intros filename].
  apply nfv_bind.
  - apply nfv_performing. intros fs. apply mkdir_parents_not_failure.
  - intros _. apply nfv_performing. intros fs. apply shutil_copy_not_failure.
Qed.

Lemma nfv_log_validating : never_fails_validation (log_validating self).
Proof.
  unfold log_validating.
  apply nfv_bind; [apply nfv_lift, last_item_not_failure|intros f]. apply nfv_emit.
Qed.

Lemma nfv_validate_suite ed : never_fails_validation (validate_suite env self ed).
Proof.
  destruct Hlib as (_ & _ & _ & _ & Hv). unfold validate_suite.
  apply nfv_bind; [apply nfv_emit|intros _]. by apply nfv_reading.
Qed.

Lemma nfv_save_validations v : never_fails_validation (save_validations env self v).
Proof.
  unfold save_validations.
  apply nfv_bind; [apply nfv_ge_data_context|intros ctx].
  apply nfv_bind; [apply nfv_kedro_dataset_path|intros p].
  apply nfv_bind; [apply nfv_normalize_data_asset|intros asset].
  apply nfv_bind.
  { apply nfv_lift. apply not_failure_bind; [apply getitem_not_failure|intros meta].
    apply getitem_not_failure. }
  intros name. apply nfv_bind.
  { apply nfv_lift. destruct name; try by apply fails_validation_raise.
    by intros [args [=]]. }
  intros file_name. apply nfv_bind.
  - apply nfv_performing. intros fs. apply mkdir_parents_not_failure.
  - intros _. apply nfv_performing. intros fs. apply open_w_not_failure.
Qed.

(** A part of a load or save that comes to the failure policy has the
    result in its file by then. *)
Lemma serialized {B} (ed : dataset) (g : pyval → M B) w :
  let T := (_ ← log_validating self;
            validation ← validate_suite env self ed;
            _ ← save_validations env self validation;
            g validation) in
  is_ok (T w).2 ∨ fails_validation (T w).2 →
  ∃ w' validation pre file,
    T w = g validation w' ∧
    w_trace w' = w_trace w ++ pre ++ [EvDump file validation] ∧
    open_r (w_fs w') file = Ok (Json validation).
Proof.
  intros T Hend. unfold T in *.
  destruct (reach _ _ w nfv_log_validating Hend) as (w1 & [] & H1 & E1).
  rewrite E1 in Hend |- *.
  destruct (reach _ _ w1 (nfv_validate_suite ed) Hend) as (w2 & v & H2 & E2).
  rewrite E2 in Hend |- *.
  destruct (reach _ _ w2 (nfv_save_validations v) Hend) as (w3 & [] & H3 & E3).
  rewrite E3.
  destruct (save_validations_dumps v w2 w3 H3) as (pre & file & T3 & Hr).
  destruct (emits_log_validating w) as (n1 & T1 & _).
  destruct (emits_validate_suite ed w1) as (n2 & T2 & _).
  rewrite H1 in T1. rewrite H2 in T2. cbn [fst] in T1, T2.
  exists w3, v, (n1 ++ n2 ++ pre), file. split; [done|]. split; [|done].
  rewrite T3, T2, T1. by rewrite <- !app_assoc.
Qed.

(** The end of a load or save: the policy has the last word. *)
Lemma policy_ends validation w :
  let out := raise_on_failure self validation w in
  w_fs out.1 = w_fs w ∧ ∃ new, w_trace out.1 = w_trace w ++ new ∧
    (is_ok out.2 ∨ fails_validation out.2 → StepPolicy ∈ steps new).
Proof.
  intros out. split; [apply raise_on_failure_fs|].
  destruct (emits_raise_on_failure validation w) as (new & Ht & Hp & Hok).
  exists new. split; [done|]. intros [Hend|Hend].
  - rewrite (Hok Hend). by left.
  - destruct (raise_on_failure_failure validation w Hend) as (failed & Hrun).
    fold out in Ht. unfold out in Ht. rewrite Hrun in Ht. cbn in Ht.
    apply app_inv_head in Ht as <-. by left.
Qed.
End Order.

(** A run that has reached the policy has taken every step before it. *)
Lemma policy_is_last new :
  steps new `prefix_of` transformer_order → StepPolicy ∈ steps new →
  steps new = transformer_order.
Proof.
  unfold transformer_order. generalize (steps new). intros l [rest Hrest] Hin.
  destruct l as [|s1 [|s2 [|s3 [|s4 [|s5 l]]]]]; cbn in Hrest; simplify_eq.
  all: try (repeat (apply elem_of_cons in Hin as [Hin|Hin]; [discriminate Hin|]);
            by apply elem_of_nil in Hin).
  by destruct l.
Qed.

Section Calls.
Context {data dataset context : Type} (env : Env data dataset context).
Context (self : ExpectationsEvaluator) (Hlib : libraries_raise_their_own env).

(** A call whose wrapped callable raises ends there. *)
Lemma call_raises {A B} (f : filesystem → filesystem * result B) (F : B → M A) w e :
  (f (w_fs w)).2 = Raise e →
  runs_in_order w (f (w_fs w)) ((call f ≫= F) w).
Proof.
  intros Hf. unfold mbind, M_bind, call. destruct (f (w_fs w)) as [fs1 r0]. cbn in Hf.
  subst r0. exists []. cbn. split; [done|]. split; [by intros e' [= ->]|].
  split; [by exists [StepCopy; StepValidate "COMPLETE"; StepSerialize; StepPolicy]|].
  by intros [].
Qed.

(** A call whose wrapped callable returns goes on with the rest, which
    has the order that is left. *)
Lemma call_returns {A B} (f : filesystem → filesystem * result B) (F : B → M A) w b :
  (f (w_fs w)).2 = Ok b →
  let w1 := {| w_fs := (f (w_fs w)).1; w_trace := w_trace w ++ [EvCall] |} in
  emits (F b) [StepCopy; StepValidate "COMPLETE"; StepSerialize; StepPolicy] →
  (is_ok (F b w1).2 ∨ fails_validation (F b w1).2 →
   ∃ pre file validation new,
     w_trace (F b w1).1 = w_trace w1 ++ pre ++ [EvDump file validation] ++ new ∧
     StepPolicy ∈ steps new ∧
     open_r (w_fs (F b w1).1) file = Ok (Json validation)) →
  runs_in_order w (f (w_fs w)) ((call f ≫= F) w).
Proof.
  intros Hf w1 Hemits Hend.
  assert ((call f ≫= F) w = F b w1) as ->.
  { unfold mbind, M_bind, call, w1. destruct (f (w_fs w)) as [fs1 r0]. cbn in Hf.
    by subst r0. }
  destruct (Hemits w1) as (rest & Ht & Hp & Hok).
  exists rest. split; [by rewrite Ht; cbn; rewrite <- app_assoc|].
  split; [intros e He; by rewrite Hf in He|].
  split; [by apply (prefix_cons StepCall)|].
  intros _ Hfin. destruct (Hend Hfin) as (pre & file & validation & new & Ht' & Hpol & Hr).
  rewrite Ht in Ht'. apply app_inv_head in Ht'. subst rest. split.
  - change (steps (EvCall :: ?l)) with (StepCall :: steps l). f_equal.
    assert (StepPolicy ∈ steps (pre ++ [EvDump file validation] ++ new)) as Hin.
    { rewrite !steps_app, !elem_of_app. by right; right. }
    pose proof (policy_is_last (EvCall :: pre ++ [EvDump file validation] ++ new)) as Hl.
    change (steps (EvCall :: ?l)) with (StepCall :: steps l) in Hl.
    unfold transformer_order in Hl.
    assert (StepCall :: steps (pre ++ [EvDump file validation] ++ new)
            = [StepCall; StepCopy; StepValidate "COMPLETE"; StepSerialize; StepPolicy]) as Heq.
    { apply Hl; [by apply (prefix_cons StepCall)|by right]. }
    by injection Heq.
  - exists file, validation. split; [|done].
    rewrite !elem_of_app. right; left. by left.
Qed.

(** The end of a load or save that has come to the policy. *)
Lemma comes_to_policy {A} (ed : dataset) (g : pyval → M A) w :
  (∀ validation w',
     w_fs (g validation w').1 = w_fs w' ∧
     ∃ new, w_trace (g validation w').1 = w_trace w' ++ new ∧
       (is_ok (g validation w').2 ∨ fails_validation (g validation w').2 →
        StepPolicy ∈ steps new)) →
  let T := (_ ← log_validating self;
            validation ← validate_suite env self ed;
            _ ← save_validations env self validation;
            g validation) in
  is_ok (T w).2 ∨ fails_validation (T w).2 →
  ∃ pre file validation new,
    w_trace (T w).1 = w_trace w ++ pre ++ [EvDump file validation] ++ new ∧
    StepPolicy ∈ steps new ∧
    open_r (w_fs (T w).1) file = Ok (Json validation).
Proof.
  intros Hg T Hend.
  destruct (serialized env self Hlib ed g w Hend) as (w' & v & pre & file & HT & Ht & Hr).
  fold T in HT. rewrite HT in Hend |- *.
  destruct (Hg v w') as (Hfs & new & Hn & Hpol).
  exists pre, file, v, new. split; [|split].
  - rewrite Hn, Ht. by rewrite <- !app_assoc.
  - by apply Hpol.
  - by rewrite Hfs.
Qed.

Lemma policy_then_return (d : data) validation w :
  let g := (_ ← raise_on_failure self validation; mret d) : M data in
  w_fs (g w).1 = w_fs w ∧
  ∃ new, w_trace (g w).1 = w_trace w ++ new ∧
    (is_ok (g w).2 ∨ fails_validation (g w).2 → StepPolicy ∈ steps new).
Proof.
  intros g. destruct (policy_ends self validation w) as (Hfs & new & Ht & Hpol).
  unfold g, mbind, M_bind. destruct (raise_on_failure self validation w) as [w' [[]|e]].
  - cbn in *. split; [done|]. exists new. split; [done|]. intros _. apply Hpol. by left.
  - cbn in *. split; [done|]. exists new. split; [done|]. intros [[]|He].
    apply Hpol. right. exact (fails_validation_Raise e He).
Qed.

Lemma extend_pre {A} (m : M A) w (n0 : list event) w0 :
  w_trace w0 = w_trace w ++ n0 →
  (∃ pre file validation new,
     w_trace (m w0).1 = w_trace w0 ++ pre ++ [EvDump file validation] ++ new ∧
     StepPolicy ∈ steps new ∧
     open_r (w_fs (m w0).1) file = Ok (Json validation)) →
  ∃ pre file validation new,
    w_trace (m w0).1 = w_trace w ++ pre ++ [EvDump file validation] ++ new ∧
    StepPolicy ∈ steps new ∧
    open_r (w_fs (m w0).1) file = Ok (Json validation).
Proof.
  intros H0 (pre & file & v & new & Ht & Hp & Hr).
  exists (n0 ++ pre), file, v, new. split; [|done].
  rewrite Ht, H0. by rewrite <- !app_assoc.
Qed.
End Calls.


(** The stand-in library of the sample project raises errors of its own. *)
Lemma sample_libraries : libraries_raise_their_own Sample.env.
Proof.
  split; [intros fs; apply not_failure_Ok|].
  split; [|split; [|split; [intros d; apply not_failure_Ok|intros; apply not_failure_Ok]]].
  - intros p fs. cbn. unfold Sample.build_context.
    destruct (open_r fs _) as [[s|v|cfg]|e]; try by intros [args [=]].
    destruct (Sample.lib_mkdir fs _ ≫= _) as [fs2|e] eqn:Hmk.
    + destruct (forallb _ _); [apply not_failure_Ok|by intros [args [=]]].
    + cbn. assert (¬ fails_validation
                       (fs1 ← Sample.lib_mkdir fs (Sample.lib_abs p ++ ["expectations"]);
                        Sample.lib_mkdir fs1 (Sample.lib_abs p ++ ["uncommitted"; "validations"])))
        as Hnf.
      { apply not_failure_bind; [|intros fs1]; apply mkdir_parents_not_failure. }
      rewrite Hmk in Hnf. exact (not_failure_Raise e Hnf).
  - intros fs ctx name. cbn. unfold Sample.normalize.
    repeat case_match; by (apply not_failure_Ok || intros [args [=]]).
Qed.


(** A strict failure in the sample project: the whole trace of a load. *)
Example load_strict_failure_trace :
  let dir := Sample.project_dir ++ ["great_expectations"] in
  let asset := ["data"; "01_raw"; "cars.csv"] in
  (load Sample.env Sample.strict "cars" (λ fs, (fs, Ok tt)) Sample.project).2
    = Raise (Exn FailedValidationException []) ∧
  w_trace (load Sample.env Sample.strict "cars" (λ fs, (fs, Ok tt)) Sample.project).1
    = [EvCall;
       EvMkdir (dir ++ ["expectations"] ++ asset);
       EvCopy Sample.suite_file (dir ++ ["expectations"] ++ asset ++ ["cars.json"]);
       EvLog "ExpectationsEvaluator" INFO (MsgValidating "cars" "cars.json");
       EvValidate "conf/base/expectations/cars.json" "run1" true "COMPLETE";
       EvMkdir (dir ++ ["uncommitted"; "validations"; "run1"] ++ asset);
       EvDump (dir ++ ["uncommitted"; "validations"; "run1"] ++ asset ++ ["default.json"])
         Sample.column_failure;
       EvLog "ExpectationsEvaluator" ERROR
         (MsgFailed [(PStr "expect_column_values_to_not_be_null", PStr "mpg")])] ∧
  open_r (w_fs (load Sample.env Sample.strict "cars" (λ fs, (fs, Ok tt)) Sample.project).1)
    (dir ++ ["uncommitted"; "validations"; "run1"] ++ asset ++ ["default.json"])
    = Ok (Json Sample.column_failure).
Proof. repeat split; by_evaluating. Qed.

(** ** Copying the suite *)

Lemma last_item_parts p n : last (names p) = Some n → last_item (parts p) = Ok n.
Proof.
  intros Hn. unfold last_item, parts.
  destruct (root p); [by rewrite Hn|..]; by rewrite last_cons, Hn.
Qed.

Lemma last_name_plain s n : last (names (parse_path s)) = Some n → plain n.
Proof.
  intros Hn%last_Some_elem_of.
  by apply (proj1 (Forall_forall _ _) (parse_path_wf s)).
Qed.

Lemma emits_extends {A} (m : M A) full w :
  emits m full → ∃ new, w_trace (m w).1 = w_trace w ++ new.
Proof. intros Hm. destruct (Hm w) as (new & Ht & _). eauto. Qed.

(** A copy to a place that is free, in a directory that exists. *)
Lemma shutil_copy_ok fs src dst b c :
  ".." ∉ src → ".." ∉ dst → dst ≠ [] →
  file_at fs src = Some c →
  is_dir fs (parent dst) = true → is_dir fs dst = false → src ≠ dst →
  let fs' := put_at dst (File c) fs in
  shutil_copy fs src dst b = Ok fs' ∧
  file_at fs' dst = Some c ∧
  (∀ k, k ≠ dst → file_at fs' k = file_at fs k) ∧
  (∀ d, is_dir fs' d = is_dir fs d).
Proof.
  intros Hsrc Hdst Hne Hfile Hparent Hnodir Hdiff fs'.
  destruct (open_w_ok fs dst c Hdst Hne Hparent Hnodir) as (Hw & Hrest).
  split; [|exact Hrest]. unfold shutil_copy.
  assert (walk fs [] dst = Ok dst) as Hwd by (apply walk_ok_root; eauto).
  assert (is_Some (node_at fs src)) as Hnode.
  { unfold file_at in Hfile. destruct (node_at fs src); [by eexists|done]. }
  unfold path_is_dir, samefile. rewrite Hwd, Hnodir, Hwd.
  rewrite (walk_to_node fs src) by done.
  rewrite bool_decide_eq_false_2 by done. cbn [andb].
  rewrite (open_r_ok fs src c) by done. exact Hw.
Qed.

(** A copy of nothing: the source is missing, or lies below a file. *)
Lemma shutil_copy_missing fs src dst b :
  ".." ∉ src → node_at fs src = None →
  shutil_copy fs src dst b
  = raise (if existsb (is_file fs) (prefixes src) then NotADirectoryError
           else FileNotFoundError).
Proof.
  intros Hb Hn. unfold shutil_copy.
  assert (open_r fs src
          = raise (if existsb (is_file fs) (prefixes src) then NotADirectoryError
                   else FileNotFoundError) ∧
          (∀ k, walk fs [] src = Ok k → k = src)) as [Hr Hk].
  { destruct (existsb (is_file fs) (prefixes src)) eqn:Hex.
    - apply existsb_exists in Hex as (k & Hin%list_elem_of_In & Hf).
      apply elem_of_prefixes in Hin as [Hne [rest ->]].
      assert (rest ≠ []) as Hrest.
      { intros ->. rewrite app_nil_r in Hn. apply is_file_node in Hf.
        rewrite Hn in Hf. by destruct Hf. }
      assert (".." ∉ k) as Hbk by (intros ?; apply Hb, elem_of_app; by left).
      unfold open_r. rewrite (walk_through_file fs [] k rest) by done.
      split; [done|]. by intros k' [=].
    - assert (∀ k, k ∈ prefixes src → is_file fs k = false) as Hfree.
      { intros k Hin. destruct (is_file fs k) eqn:Hf; [|done].
        assert (existsb (is_file fs) (prefixes src) = true) as Hex'
          by (apply existsb_exists; exists k; by rewrite <- list_elem_of_In).
        congruence. }
      destruct src as [|n src _] using rev_ind; [done|].
      unfold open_r. destruct (is_dir fs src) eqn:Hd.
      + rewrite (walk_ok_root fs (src ++ [n])) by (done || right; by rewrite parent_snoc).
        cbn. rewrite Hn. split; [done|]. by intros k [= <-].
      + assert (".." ∉ src) as Hbs by (intros ?; apply Hb, elem_of_app; by left).
        rewrite (walk_missing fs [] src [n]); [..|done|done|done| ].
        * split; [done|]. by intros k [=].
        * intros k' Hk'. destruct k' as [|x k']; [done|].
          apply Hfree, prefixes_app_l, elem_of_prefixes. by split. }
  assert (∀ d, samefile fs src d = false) as ->.
  { intros d. unfold samefile. destruct (walk fs [] src) as [k|e] eqn:Hw; [|done].
    rewrite (Hk k eq_refl) in *. destruct (walk fs [] d) as [k2|e2]; [|done].
    rewrite (bool_decide_eq_false_2 (is_Some (node_at fs src))), andb_false_r; [done|].
    rewrite Hn. by intros [? ?]. }
  by rewrite Hr.
Qed.

Section Copy.
Context {data dataset context : Type} (env : Env data dataset context).
Context (self : ExpectationsEvaluator).

(** The directory that the suite is copied to. *)
Lemma copy_path_abs ctx filepath asset fs :
  project_ready env self fs ctx filepath asset → asset_descends asset →
  let copy_path :=
    parse_path (root_directory env ctx) // "expectations"
      // datasource asset // generator asset // generator_asset asset in
  let dir := asset_dir (ge_root env ctx ++ ["expectations"]) asset in
  abs env copy_path = dir ∧ base env copy_path = [] ∧ names copy_path = dir ∧
  (".." ∉ dir) ∧ wf_path copy_path.
Proof.
  intros Hready Hasset copy_path dir.
  destruct (root_directory_abs env self ctx filepath asset fs Hready) as [Hroot Hbase].
  destruct (asset_dir_abs env (parse_path (root_directory env ctx) // "expectations")
              asset Hasset) as [Habs Hb].
  assert (abs env copy_path = dir) as Hdir.
  { unfold copy_path. rewrite Habs. unfold dir. f_equal.
    rewrite abs_div_plain by by repeat split. by rewrite Hroot. }
  assert (base env copy_path = []) as Hbl.
  { unfold copy_path. rewrite Hb. by rewrite base_div_plain by by repeat split. }
  split; [done|]. split; [done|]. split; [|split].
  - unfold abs in Hdir. by rewrite Hbl in Hdir.
  - pose proof Hready as (_ & (_ & Hback) & _).
    unfold dir. apply asset_dir_no_back; [|done].
    apply not_elem_of_app_2; [done|]. by apply single_no_back.
  - unfold copy_path. repeat apply path_div_wf. apply parse_path_wf.
Qed.

(** What the method does once it has the normalized name and the file
    name of the suite. *)
Lemma copy_run (path_to_expectations : string) (w : world)
    (ctx : context) (filepath filename : string) (asset : NormalizedDataAssetName) :
  project_ready env self (w_fs w) ctx filepath asset →
  asset_descends asset →
  last (names (parse_path (_expectations_suite self))) = Some filename →
  let src := os_path env (_expectations_suite self) in
  let dir := asset_dir (ge_root env ctx ++ ["expectations"]) asset in
  let dst := dir ++ [filename] in
  copy_expectations_to_great_expectations env self path_to_expectations w
  = (_ ← performing (EvMkdir dir) (λ fs, mkdir_parents fs [] (reverse dir));
     performing (EvCopy src dst) (λ fs, shutil_copy fs src dst [filename])) w.
Proof.
  intros Hready Hasset Hlast src dir dst.
  pose proof (last_name_plain _ _ Hlast) as Hplain.
  destruct (copy_path_abs ctx filepath asset (w_fs w) Hready Hasset)
    as (Habs & Hbase & Hnames & _ & Hwf).
  unfold copy_expectations_to_great_expectations, expectations_suite.
  rewrite (bind_ok _ _ _ _ _ (kedro_dataset_path_ok env self w ctx filepath asset Hready)).
  rewrite (bind_ok _ _ _ _ _ (normalize_data_asset_ok env self w ctx filepath asset Hready)).
  rewrite (bind_ok _ _ _ _ _ (ge_data_context_ok env self w ctx filepath asset Hready)).
  unfold lift at 1. unfold mbind at 1, M_bind at 1.
  rewrite (last_item_parts _ _ Hlast).
  unfold Path_mkdir. rewrite Habs, Hbase, Hnames.
  rewrite !os_path_str by (apply parse_path_wf || by apply path_div_wf).
  rewrite abs_div_plain by done. rewrite Habs.
  rewrite (parse_path_str (parse_path (_expectations_suite self))) by apply parse_path_wf.
  by rewrite Hlast.
Qed.

(** The method on its own. *)
Lemma copy_expectations_ok (path_to_expectations : string) (w : world)
    (ctx : context) (filepath filename : string)
    (asset : NormalizedDataAssetName) (suite : content) :
  project_ready env self (w_fs w) ctx filepath asset →
  asset_descends asset →
  last (names (parse_path (_expectations_suite self))) = Some filename →
  let src := os_path env (_expectations_suite self) in
  ".." ∉ src →
  let dir := asset_dir (ge_root env ctx ++ ["expectations"]) asset in
  let dst := dir ++ [filename] in
  file_at (w_fs w) src = Some suite →
  unobstructed (w_fs w) dir →
  is_dir (w_fs w) dst = false →
  src ≠ dst →
  ∃ fs',
    copy_expectations_to_great_expectations env self path_to_expectations w
    = ({| w_fs := fs'; w_trace := w_trace w ++ [EvMkdir dir; EvCopy src dst] |}, Ok tt) ∧
    file_at fs' dst = Some suite ∧
    is_dir fs' dir = true ∧
    (∀ k, k ≠ dst → file_at fs' k = file_at (w_fs w) k).
Proof.
  intros Hready Hasset Hlast src Hback dir dst Hsrc Hfree Hnodir Hdiff.
  destruct (copy_path_abs ctx filepath asset (w_fs w) Hready Hasset)
    as (_ & _ & _ & Hbdir & _).
  rewrite (copy_run path_to_expectations w ctx filepath filename asset) by done.
  fold src dir dst.
  destruct (mkdir_parents_ok (w_fs w) [] dir Hbdir (is_dir_nil _) Hfree)
    as (fs1 & Hmk & Hfiles & Hisdir & Hmono & Hnew).
  erewrite bind_ok by (apply performing_ok; exact Hmk).
  assert (is_dir fs1 dst = false) as Hnodir1.
  { destruct (is_dir fs1 dst) eqn:Hd; [|done].
    apply Hnew in Hd as [Hd|Hd]; [congruence|].
    apply prefixes_length in Hd. unfold dst in Hd. rewrite length_app in Hd.
    cbn in Hd. lia. }
  assert (filename ≠ "..") as Hfn.
  { intros ->. apply Hback. unfold src, os_path, abs. apply elem_of_app. right.
    by apply last_Some_elem_of. }
  destruct (shutil_copy_ok fs1 src dst [filename] suite) as (Hcp & Hfile & Hframe & Hdirs).
  { done. }
  { apply not_elem_of_app_2; [done|by apply single_no_back]. }
  { unfold dst. by destruct dir. }
  { by rewrite Hfiles. }
  { unfold dst. by rewrite parent_snoc. }
  { done. }
  { done. }
  erewrite performing_ok by (cbn [w_fs]; exact Hcp).
  eexists. split.
  - cbn [w_fs w_trace]. by rewrite <- app_assoc.
  - split; [done|]. split; [by rewrite Hdirs|].
    intros k Hk. by rewrite Hframe, Hfiles.
Qed.
End Copy.

(** C8. On a load and on a save, once the wrapped callable has returned
    (and, on a load, the data is wrapped for the validation library), the
    expectations suite file is copied, under its own file name, into the
    directory [expectations/<datasource>/<generator>/<generator_asset>/]
    under the root directory of the validation tool, the three names being
    those of the normalized file path of the dataset; the directory is
    created when it is absent, and no other file changes.  This holds where
    the project is in place, the three names are relative paths, the path
    of the suite does not step back, the suite file exists and is not
    already the target, and nothing obstructs the target. *)
Theorem suite_copied_into_layout {data dataset context : Type}
    (env : Env data dataset context)
    (self : ExpectationsEvaluator) (fs : filesystem)
    (ctx : context) (filepath filename : string)
    (asset : NormalizedDataAssetName) (suite : content) :
  project_ready env self fs ctx filepath asset →
  asset_descends asset →
  last (names (parse_path (_expectations_suite self))) = Some filename →
  let src := os_path env (_expectations_suite self) in
  ".." ∉ src →
  let dir := asset_dir (ge_root env ctx ++ ["expectations"]) asset in
  let dst := dir ++ [filename] in
  file_at fs src = Some suite →
  unobstructed fs dir →
  is_dir fs dst = false →
  src ≠ dst →
  (∀ path_to_expectations trace, ∃ fs',
     copy_expectations_to_great_expectations env self path_to_expectations
       {| w_fs := fs; w_trace := trace |}
     = ({| w_fs := fs'; w_trace := trace ++ [EvMkdir dir; EvCopy src dst] |}, Ok tt) ∧
     file_at fs' dst = Some suite ∧
     is_dir fs' dir = true ∧
     (∀ k, k ≠ dst → file_at fs' k = file_at fs k)) ∧
  (∀ data_set_name load_callable fs0 trace d expectations_data,
     load_callable fs0 = (fs, Ok d) →
     PandasDataset env d = Ok expectations_data →
     ∃ new,
       w_trace (load env self data_set_name load_callable
                  {| w_fs := fs0; w_trace := trace |}).1
       = trace ++ [EvCall; EvMkdir dir; EvCopy src dst] ++ new) ∧
  (∀ data_set_name save_callable fs0 trace d,
     save_callable d fs0 = (fs, Ok tt) →
     ∃ new,
       w_trace (save env self data_set_name save_callable d
                  {| w_fs := fs0; w_trace := trace |}).1
       = trace ++ [EvCall; EvMkdir dir; EvCopy src dst] ++ new).
Proof.
  intros Hready Hasset Hlast src Hback dir dst Hsrc Hfree Hnodir Hdiff.
  assert (∀ path_to_expectations trace, ∃ fs',
     copy_expectations_to_great_expectations env self path_to_expectations
       {| w_fs := fs; w_trace := trace |}
     = ({| w_fs := fs'; w_trace := trace ++ [EvMkdir dir; EvCopy src dst] |}, Ok tt) ∧
     file_at fs' dst = Some suite ∧
     is_dir fs' dir = true ∧
     (∀ k, k ≠ dst → file_at fs' k = file_at fs k)) as Hcopy.
  { intros path_to_expectations trace.
    by apply (copy_expectations_ok env self path_to_expectations
                {| w_fs := fs; w_trace := trace |} ctx filepath filename asset suite). }
  split; [done|]. split.
  - intros name f fs0 trace d ed Hf Hed.
    destruct (Hcopy (expectations_suite self) (trace ++ [EvCall])) as (fs' & Hrun & _).
    unfold load.
    rewrite (bind_ok _ _ _ {| w_fs := fs; w_trace := trace ++ [EvCall] |} d)
      by (unfold call; cbn; by rewrite Hf).
    unfold lift at 1. unfold mbind at 1, M_bind at 1. rewrite Hed.
    rewrite (bind_ok _ _ _ _ _ Hrun).
    match goal with
    | |- ∃ new, w_trace (?m ?w).1 = _ =>
        destruct (emits_extends m _ w (emits_load_tail env self d ed)) as [new ->]
    end.
    exists new. cbn [w_trace]. by rewrite <- !app_assoc.
  - intros name g fs0 trace d Hg.
    destruct (Hcopy (expectations_suite self) (trace ++ [EvCall])) as (fs' & Hrun & _).
    unfold save.
    rewrite (bind_ok _ _ _ {| w_fs := fs; w_trace := trace ++ [EvCall] |} tt)
      by (unfold call; cbn; by rewrite Hg).
    rewrite (bind_ok _ _ _ _ _ Hrun).
    match goal with
    | |- ∃ new, w_trace (?m ?w).1 = _ =>
        destruct (emits_extends m _ w (emits_save_tail env self d)) as [new ->]
    end.
    exists new. cbn [w_trace]. by rewrite <- !app_assoc.
Qed.

Lemma suite_copied_into_layout_witness :
  let dir := Sample.project_dir ++
               ["great_expectations"; "expectations"; "data"; "01_raw"; "cars.csv"] in
  let dst := dir ++ ["cars.json"] in
  (∀ path_to_expectations trace, ∃ fs',
     copy_expectations_to_great_expectations Sample.env Sample.strict path_to_expectations
       {| w_fs := Sample.project_files; w_trace := trace |}
     = ({| w_fs := fs';
           w_trace := trace ++ [EvMkdir dir; EvCopy Sample.suite_file dst] |}, Ok tt) ∧
     file_at fs' dst = Some (Bytes "{}") ∧
     is_dir fs' dir = true ∧
     (∀ k, k ≠ dst → file_at fs' k = file_at Sample.project_files k)) ∧
  (∀ data_set_name load_callable fs0 trace d expectations_data,
     load_callable fs0 = (Sample.project_files, Ok d) →
     PandasDataset Sample.env d = Ok expectations_data →
     ∃ new,
       w_trace (load Sample.env Sample.strict data_set_name load_callable
                  {| w_fs := fs0; w_trace := trace |}).1
       = trace ++ [EvCall; EvMkdir dir; EvCopy Sample.suite_file dst] ++ new) ∧
  (∀ data_set_name save_callable fs0 trace d,
     save_callable d fs0 = (Sample.project_files, Ok tt) →
     ∃ new,
       w_trace (save Sample.env Sample.strict data_set_name save_callable d
                  {| w_fs := fs0; w_trace := trace |}).1
       = trace ++ [EvCall; EvMkdir dir; EvCopy Sample.suite_file dst] ++ new).
Proof.
  apply (suite_copied_into_layout Sample.env Sample.strict Sample.project_files
           Sample.project_ctx "data/01_raw/cars.csv" "cars.json" Sample.cars_asset
           (Bytes "{}")).
  - apply sample_project_ready.
  - apply sample_asset_descends.
  - vm_compute. reflexivity.
  - by_computing.
  - vm_compute. reflexivity.
  - unfold unobstructed. rewrite <- Forall_forall. by_computing.
  - vm_compute. reflexivity.
  - by_computing.
Defined.

(** ** The setup helper *)

(** Listing what is no directory: a file on the way, or the entry being a
    file, gives [NotADirectoryError]; an entry that is missing
    [FileNotFoundError]. *)
Lemma listdir_not_dir fs k :
  ".." ∉ k → is_dir fs k = false →
  listdir fs k
  = raise (if existsb (is_file fs) (prefixes k) then NotADirectoryError
           else FileNotFoundError).
Proof.
  intros Hb Hd. unfold listdir.
  destruct (existsb (is_file fs) (prefixes k)) eqn:Hex.
  - apply existsb_exists in Hex as (k' & Hin%list_elem_of_In & Hf).
    apply elem_of_prefixes in Hin as [Hne [rest ->]].
    assert (".." ∉ k') as Hbk by (intros ?; apply Hb, elem_of_app; by left).
    destruct rest as [|n rest].
    + rewrite app_nil_r in *. rewrite walk_to_node by (done || by apply is_file_node).
      cbn. unfold is_file in Hf. by destruct (node_at fs k') as [[c|es]|].
    + by rewrite (walk_through_file fs [] k' (n :: rest)).
  - assert (∀ k', k' ∈ prefixes k → is_file fs k' = false) as Hfree.
    { intros k' Hin. destruct (is_file fs k') eqn:Hf; [|done].
      assert (existsb (is_file fs) (prefixes k) = true) as Hex'
        by (apply existsb_exists; exists k'; by rewrite <- list_elem_of_In).
      congruence. }
    destruct k as [|n k _] using rev_ind; [by rewrite is_dir_nil in Hd|].
    assert (node_at fs (k ++ [n]) = None) as Hn.
    { specialize (Hfree (k ++ [n])). unfold is_dir, is_file in *.
      destruct (node_at fs (k ++ [n])) as [[c|es]|]; [|done..].
      discriminate Hfree. apply prefixes_self. by destruct k. }
    destruct (is_dir fs k) eqn:Hdk.
    + rewrite (walk_ok_root fs (k ++ [n])) by (done || right; by rewrite parent_snoc).
      cbn. by rewrite Hn.
    + assert (".." ∉ k) as Hbs by (intros ?; apply Hb, elem_of_app; by left).
      rewrite (walk_missing fs [] k [n]); [done..|].
      intros k' Hk'. destruct k' as [|x k']; [done|].
      apply Hfree, prefixes_app_l, elem_of_prefixes. by split.
Qed.

Lemma listdir_entries fs k entries :
  ".." ∉ k → node_at fs k = Some (Dir entries) → listdir fs k = Ok (dict_keys entries).
Proof.
  intros Hb Hn. unfold listdir. rewrite walk_to_node by (done || by eexists).
  cbn. by rewrite Hn.
Qed.

Section Setup.
Context {data dataset context : Type} (env : Env data dataset context).

Lemma create_ge_project_present w :
  Path_is_file env (w_fs w) (ge_marker env) = true →
  create_ge_project env w = (w, Ok tt).
Proof.
  intros Hm. unfold ge_marker in Hm.
  unfold create_ge_project, reading, mbind, M_bind. by rewrite Hm.
Qed.

Lemma create_ge_project_absent w :
  Path_is_file env (w_fs w) (ge_marker env) = false →
  create_ge_project env w
  = (_ ← log "ExpectationsSetup" INFO MsgBuilding;
     _ ← library (DataContext_create env (Path_cwd env));
     mret tt) w.
Proof.
  intros Hm. unfold ge_marker in Hm.
  unfold create_ge_project, reading. unfold mbind at 1, M_bind at 1. by rewrite Hm.
Qed.

(** The calls into the library that [setup_datasources] makes. *)
Lemma setup_datasources_run w fs1 ctx generators fs2 ctx2 fs3 r :
  DataContext env (Path_cwd env // "great_expectations") (w_fs w) = (fs1, Ok ctx) →
  create_generators_on env fs1 = Ok generators →
  add_datasource env (datasources_clear env ctx) "data" (data_datasource generators) fs1
  = (fs2, Ok ctx2) →
  _save_project_config env ctx2 fs2 = (fs3, r) →
  setup_datasources env w = ({| w_fs := fs3; w_trace := w_trace w |}, r).
Proof.
  intros Hc Hg Ha Hs. unfold setup_datasources, _ge_data_context.
  rewrite (bind_ok _ _ _ _ _ (library_run _ w fs1 (Ok ctx) Hc)).
  unfold create_generators, reading. unfold mbind at 1, M_bind at 1. cbn [w_fs].
  rewrite Hg. unfold library, mbind, M_bind. cbn [w_fs w_trace].
  rewrite Ha. cbn [w_fs w_trace]. by rewrite Hs.
Qed.

(** The generators are made once the context is built: an error of the
    listing ends the construction there. *)
Lemma setup_datasources_no_listing w fs1 ctx e :
  DataContext env (Path_cwd env // "great_expectations") (w_fs w) = (fs1, Ok ctx) →
  Path_iterdir env fs1 (Path_cwd env // "data") = Raise e →
  setup_datasources env w = ({| w_fs := fs1; w_trace := w_trace w |}, Raise e).
Proof.
  intros Hc He. unfold setup_datasources, _ge_data_context.
  rewrite (bind_ok _ _ _ _ _ (library_run _ w fs1 (Ok ctx) Hc)).
  unfold create_generators, reading. unfold mbind at 1, M_bind at 1. cbn [w_fs].
  unfold create_generators_on. by rewrite He.
Qed.
End Setup.

(** C6, as stated, fails: in a project whose marker file exists, whose
    directories are all there and which has no datasource yet, constructing
    the setup helper against the stand-in library of [Sample] rewrites the
    marker file with a datasource ["data"]; the project is not as it
    was. *)
Lemma ExpectationsSetup_not_a_no_op :
  let marker := abs Sample.env (ge_marker Sample.env) in
  Path_is_file Sample.env (w_fs Sample.initialized) (ge_marker Sample.env) = true ∧
  file_at (w_fs Sample.initialized) marker = Some (Yaml Sample.default_config) ∧
  datasources Sample.default_config !! "data" = None ∧
  ∃ w' cfg',
    ExpectationsSetup Sample.env Sample.initialized = (w', Ok tt) ∧
    file_at (w_fs w') marker = Some (Yaml cfg') ∧
    is_Some (datasources cfg' !! "data") ∧
    w_fs w' ≠ w_fs Sample.initialized.
Proof.
  intros marker. split; [by_evaluating|].
  assert (file_at (w_fs Sample.initialized) marker = Some (Yaml Sample.default_config))
    as Hbefore by by_evaluating.
  split; [done|]. split; [reflexivity|].
  exists (ExpectationsSetup Sample.env Sample.initialized).1, Sample.data_config.
  assert (file_at (w_fs (ExpectationsSetup Sample.env Sample.initialized).1) marker
          = Some (Yaml Sample.data_config)) as Hafter by by_evaluating.
  split.
  { transitivity ((ExpectationsSetup Sample.env Sample.initialized).1,
                  (ExpectationsSetup Sample.env Sample.initialized).2).
    - apply surjective_pairing.
    - apply (f_equal (pair _)). by_evaluating. }
  split; [done|]. split; [by_computing|].
  intros Heq. rewrite Heq, Hbefore in Hafter. discriminate Hafter.
Qed.

(** C6, amended. When the project marker file
    [great_expectations/great_expectations.yml] exists, the project-creation
    step of the construction is a no-op: [create_ge_project] logs nothing,
    does not call the library and leaves the project as it is.  The
    constructor still runs [setup_datasources]: the construction is what
    that method does, which builds the data context, makes the generators,
    registers the datasource ["data"] with the context whose datasources it
    has cleared, and saves the project configuration; the project is then
    in the state that these calls into the library leave. *)
Theorem ExpectationsSetup_skips_creation {data dataset context : Type}
    (env : Env data dataset context) (w : world) :
  Path_is_file env (w_fs w) (ge_marker env) = true →
  create_ge_project env w = (w, Ok tt) ∧
  ExpectationsSetup env w = setup_datasources env w ∧
  (∀ fs1 ctx generators fs2 ctx2 fs3 r,
     DataContext env (Path_cwd env // "great_expectations") (w_fs w) = (fs1, Ok ctx) →
     create_generators_on env fs1 = Ok generators →
     add_datasource env (datasources_clear env ctx) "data" (data_datasource generators) fs1
     = (fs2, Ok ctx2) →
     _save_project_config env ctx2 fs2 = (fs3, r) →
     ExpectationsSetup env w = ({| w_fs := fs3; w_trace := w_trace w |}, r)).
Proof.
  intros Hmarker.
  pose proof (create_ge_project_present env w Hmarker) as Hcreate.
  assert (ExpectationsSetup env w = setup_datasources env w) as Hsetup.
  { unfold ExpectationsSetup. by rewrite (bind_ok _ _ _ _ _ Hcreate). }
  split; [done|]. split; [done|].
  intros fs1 ctx generators fs2 ctx2 fs3 r Hc Hg Ha Hs. rewrite Hsetup.
  by apply (setup_datasources_run env w fs1 ctx generators fs2 ctx2 fs3 r).
Qed.

Lemma ExpectationsSetup_skips_creation_witness :
  create_ge_project Sample.env Sample.initialized = (Sample.initialized, Ok tt) ∧
  ExpectationsSetup Sample.env Sample.initialized
  = setup_datasources Sample.env Sample.initialized ∧
  (∀ fs1 ctx generators fs2 ctx2 fs3 r,
     DataContext Sample.env (Path_cwd Sample.env // "great_expectations")
       (w_fs Sample.initialized) = (fs1, Ok ctx) →
     create_generators_on Sample.env fs1 = Ok generators →
     add_datasource Sample.env (datasources_clear Sample.env ctx) "data"
       (data_datasource generators) fs1 = (fs2, Ok ctx2) →
     _save_project_config Sample.env ctx2 fs2 = (fs3, r) →
     ExpectationsSetup Sample.env Sample.initialized
     = ({| w_fs := fs3; w_trace := w_trace Sample.initialized |}, r)).
Proof.
  apply (ExpectationsSetup_skips_creation Sample.env Sample.initialized).
  vm_compute. reflexivity.
Defined.

(** *** The generators *)

Section Generators.
Context {data dataset context : Type} (env : Env data dataset context).

Let top_directory : Path := Path_cwd env // "data".

Lemma top_directory_name : last_item (parts top_directory) = Ok "data".
Proof.
  apply last_item_parts. unfold top_directory, path_div, path_join.
  change (parse_path "data") with {| root := Rel; names := ["data"] |}.
  cbn. apply last_snoc.
Qed.

Lemma path_child_name p n : last_item (parts (path_child p n)) = Ok n.
Proof. apply last_item_parts. cbn. apply last_snoc. Qed.

Lemma path_child_abs p n : abs env (path_child p n) = abs env p ++ [n].
Proof. unfold abs, base, path_child. cbn. by rewrite app_assoc. Qed.

Lemma base_directory_str n :
  plain n → path_str (parse_path "data" // n) = "data/" +:+ n.
Proof.
  intros Hn. unfold path_div, path_join. rewrite (parse_path_plain n Hn).
  change (parse_path "data") with {| root := Rel; names := ["data"] |}. done.
Qed.

(** The generators follow the subdirectories of the data directory: one
    generator for each, named after it; and a single generator for the
    data directory itself when it has no subdirectory. *)
Lemma create_generators_on_spec fs entries :
  ".." ∉ data_dir env →
  node_at fs (data_dir env) = Some (Dir entries) →
  (∀ n, is_Some (entries !! n) → plain n ∧ n ≠ "..") →
  ∃ generators,
    create_generators_on env fs = Ok generators ∧
    ((∀ n, subdirectory entries n = false) →
     generators = {[ "data" := subdir_reader_generator "data" ]}) ∧
    ((∃ n, subdirectory entries n = true) →
     ∀ n, generators !! n =
          if subdirectory entries n
          then Some (subdir_reader_generator ("data/" +:+ n))
          else None).
Proof.
  intros Hback Hnode Hnames. unfold create_generators_on. fold top_directory.
  unfold Path_iterdir. change (abs env top_directory) with (data_dir env).
  rewrite (listdir_entries fs (data_dir env) entries) by done.
  cbn [mbind result_bind].
  set (children := dict_keys entries).
  assert (∀ n, n ∈ children →
            Path_is_dir env fs (path_child top_directory n) = subdirectory entries n)
    as Hsub.
  { intros n Hn%elem_of_dict_keys. destruct (Hnames n Hn) as [Hplain Hnb].
    unfold Path_is_dir. rewrite path_child_abs.
    change (abs env top_directory) with (data_dir env).
    unfold path_is_dir. rewrite walk_ok_root.
    - unfold is_dir, subdirectory. rewrite node_at_app, Hnode. cbn.
      by destruct (entries !! n) as [[c|es]|].
    - apply not_elem_of_app_2; [done|by apply single_no_back].
    - right. rewrite parent_snoc. unfold is_dir. by rewrite Hnode. }
  assert (∀ n, subdirectory entries n = true → n ∈ children) as Hin.
  { intros n Hn. apply elem_of_dict_keys. unfold subdirectory in Hn.
    by destruct (entries !! n). }
  set (n_directories := List.filter _ children).
  assert (∀ n, n ∈ n_directories ↔ subdirectory entries n = true) as Hnd.
  { intros n. unfold n_directories.
    rewrite list_elem_of_In, filter_In, <- list_elem_of_In. split.
    - intros [Hn Hd]. by rewrite (Hsub n Hn) in Hd.
    - intros Hn. split; [by apply Hin|]. by rewrite (Hsub n (Hin n Hn)). }
  destruct n_directories as [|n0 nd] eqn:Hnd0.
  - cbn [length Nat.eqb Nat.ltb Nat.leb]. rewrite top_directory_name.
    cbn [mbind result_bind]. eexists. split; [done|]. split; [done|].
    intros [n Hn]. apply Hnd in Hn. by apply elem_of_nil in Hn.
  - cbn [length Nat.eqb Nat.ltb Nat.leb mbind result_bind].
    edestruct (dict_comp_by_name
      (λ child, Ok (Path_is_dir env fs (path_child top_directory child)))
      (λ child,
         name ← last_item (parts (path_child top_directory child));
         Ok (name, subdir_reader_generator (path_str (parse_path "data" // name))))
      (λ n, Path_is_dir env fs (path_child top_directory n))
      (λ n, subdir_reader_generator (path_str (parse_path "data" // n)))
      children ∅) as (g & Hg & Hlook).
    { done. }
    { intros n _ _. by rewrite path_child_name. }
    rewrite Hg. cbn [mbind result_bind]. exists g. split; [done|]. split.
    + intros Hnone. specialize (Hnone n0).
      assert (subdirectory entries n0 = true) by (apply Hnd; by left). congruence.
    + intros _ n. rewrite Hlook, lookup_empty.
      destruct (decide (n ∈ children)) as [Hn|Hn].
      * rewrite bool_decide_eq_true_2 by done. cbn [andb]. rewrite (Hsub n Hn).
        destruct (subdirectory entries n); [|done].
        rewrite base_directory_str; [done|].
        apply Hnames. by apply elem_of_dict_keys.
      * rewrite (bool_decide_eq_false_2 (n ∈ children)) by done. cbn [andb].
        destruct (subdirectory entries n) eqn:Hd; [|done]. by apply Hin in Hd.
Qed.
End Generators.

(** C10. The construction clears [context.datasources] and registers the
    datasource ["data"], whose generators are those of the subdirectories
    of the data directory; but what it clears is not the configuration.
    In the sample project whose [great_expectations.yml] configures a
    datasource ["legacy"], run against the stand-in library of [Sample],
    the construction succeeds and the configuration that it saves has the
    datasource ["legacy"], unchanged, beside the new ["data"]; the
    transformer then finds both datasources. *)
Theorem ExpectationsSetup_keeps_configured_datasources :
  let marker := abs Sample.env (ge_marker Sample.env) in
  file_at (w_fs Sample.legacy_project) marker = Some (Yaml Sample.legacy_config) ∧
  ∃ w' cfg',
    ExpectationsSetup Sample.env Sample.legacy_project = (w', Ok tt) ∧
    file_at (w_fs w') marker = Some (Yaml cfg') ∧
    is_Some (datasources cfg' !! "legacy") ∧
    datasources cfg' !! "legacy" = datasources Sample.legacy_config !! "legacy" ∧
    datasources cfg' !! "data"
    = Some (PDict (data_datasource
              {[ "01_raw" := subdir_reader_generator "data/01_raw";
                 "02_intermediate" := subdir_reader_generator "data/02_intermediate" ]})) ∧
    (get_ge_datasources Sample.env w').2 = Ok ["legacy"; "data"].
Proof.
  intros marker. split; [by_evaluating|].
  set (w' := (ExpectationsSetup Sample.env Sample.legacy_project).1).
  set (cfg' := {| datasources := <["data" := PDict (data_datasource
                     {[ "01_raw" := subdir_reader_generator "data/01_raw";
                        "02_intermediate" := subdir_reader_generator "data/02_intermediate" ]})]>
                     (datasources Sample.legacy_config);
                  other_config := PDict ∅ |}).
  exists w', cfg'. split.
  { transitivity ((ExpectationsSetup Sample.env Sample.legacy_project).1,
                  (ExpectationsSetup Sample.env Sample.legacy_project).2).
    - apply surjective_pairing.
    - apply (f_equal (pair _)). by_evaluating. }
  split; [by_evaluating|]. split; [by_computing|].
  split; [by_evaluating|]. split; by_evaluating.
Qed.

(** * Further properties *)

(** ** The config scanners together *)

Lemma scanner_lookup (project_context : KedroContext) (catalog : catalog_config) :
  get (config_loader project_context) ["catalog*"; "catalog*/**"] = Ok catalog →
  ∃ suites, get_names_and_expectations_suite project_context = Ok suites ∧
    ∀ name, suites !! name = catalog !! name ≫= (.!! "expectations_suite").
Proof.
  intros Hget. unfold get_names_and_expectations_suite. rewrite Hget. cbn.
  edestruct (dict_comp_by_name
    (λ name, entry ← dict_getitem catalog name;
             Ok (bool_decide ("expectations_suite" ∈ dict_keys entry)))
    (λ name, entry ← dict_getitem catalog name;
             suite ← dict_getitem entry "expectations_suite";
             Ok (name, suite))
    (λ name, bool_decide (is_Some (catalog !! name ≫= (.!! "expectations_suite"))))
    (λ name, default PNone (catalog !! name ≫= (.!! "expectations_suite")))
    (dict_keys catalog) ∅) as (suites & Hs & Hlook).
  { intros x [entry Hx]%elem_of_dict_keys.
    rewrite (dict_getitem_Some _ _ _ Hx), Hx. cbn. f_equal.
    apply bool_decide_ext, elem_of_dict_keys. }
  { intros x [entry Hx]%elem_of_dict_keys. rewrite Hx. cbn.
    intros [v Hv]%bool_decide_eq_true.
    rewrite (dict_getitem_Some _ _ _ Hx). cbn.
    by rewrite (dict_getitem_Some _ _ _ Hv), Hv. }
  rewrite Hs. cbn. exists suites. split; [done|].
  intros name. rewrite Hlook, lookup_empty.
  destruct (catalog !! name) as [entry|] eqn:Hname; cbn.
  - rewrite (bool_decide_eq_true_2 (name ∈ dict_keys catalog))
      by (apply elem_of_dict_keys; eauto).
    destruct (entry !! "expectations_suite") as [v|] eqn:Hv; cbn.
    + by rewrite ?bool_decide_eq_true_2 by eauto.
    + by rewrite ?bool_decide_eq_false_2 by (by intros [? ?]).
  - by rewrite andb_false_r.
Qed.

Lemma stripper_lookup (project_context : KedroContext) (catalog : catalog_config) :
  get (config_loader project_context) ["catalog*"; "catalog*/**"] = Ok catalog →
  remove_expectations_suite_from_catalog project_context
  = Ok (delete "expectations_suite" <$> catalog).
Proof.
  intros Hget. unfold remove_expectations_suite_from_catalog. rewrite Hget. cbn.
  edestruct (dict_comp_by_name
    (λ _ : string, Ok true)
    (λ name, entry ← dict_getitem catalog name;
             stripped ← dict_comp
               (λ kv : string * pyval, Ok (bool_decide (kv.1 ≠ "expectations_suite")))
               (λ kv, Ok kv)
               (dict_items entry) ∅;
             Ok (name, stripped))
    (λ _, true)
    (λ name, delete "expectations_suite" (default ∅ (catalog !! name)))
    (dict_keys catalog) ∅) as (stripped & Hs & Hlook).
  { done. }
  { intros x [entry Hx]%elem_of_dict_keys _.
    rewrite (dict_getitem_Some _ _ _ Hx), Hx. cbn. by rewrite strip_entry. }
  rewrite Hs. cbn. f_equal. apply map_eq. intros name.
  rewrite Hlook, lookup_empty, andb_true_r, lookup_fmap.
  destruct (catalog !! name) as [entry|] eqn:Hname; cbn.
  - by rewrite bool_decide_eq_true_2 by (apply elem_of_dict_keys; eauto).
  - rewrite bool_decide_eq_false_2; [done|].
    intros [? ?]%elem_of_dict_keys. congruence.
Qed.

(** X1. The two scanners together lose nothing of the catalog: putting the
    suite that [get_names_and_expectations_suite] reports for a dataset back
    into the entry that [remove_expectations_suite_from_catalog] returns for
    it gives the entry of the catalog, and an entry for which no suite is
    reported is returned as it is. *)
Theorem scanners_lose_nothing (project_context : KedroContext)
    (catalog stripped : catalog_config) (suites : gmap string pyval) :
  get (config_loader project_context) ["catalog*"; "catalog*/**"] = Ok catalog →
  get_names_and_expectations_suite project_context = Ok suites →
  remove_expectations_suite_from_catalog project_context = Ok stripped →
  ∀ name entry, catalog !! name = Some entry →
    ∃ entry', stripped !! name = Some entry' ∧
      entry = match suites !! name with
              | Some suite => <["expectations_suite" := suite]> entry'
              | None => entry'
              end.
Proof.
  intros Hget Hsuites Hstripped name entry Hentry.
  destruct (scanner_lookup _ _ Hget) as (suites' & Hs & Hlook).
  rewrite Hs in Hsuites. injection Hsuites as ->.
  rewrite (stripper_lookup _ _ Hget) in Hstripped. injection Hstripped as <-.
  exists (delete "expectations_suite" entry). rewrite lookup_fmap, Hentry.
  split; [done|]. rewrite Hlook, Hentry. cbn.
  destruct (entry !! "expectations_suite") as [suite|] eqn:Hsuite.
  - by rewrite insert_delete_id.
  - by rewrite delete_id.
Qed.

Lemma scanners_lose_nothing_witness :
  ∃ entry',
    (delete "expectations_suite" <$> Sample.catalog) !! "cars" = Some entry' ∧
    ({[ "type" := PStr "CSVLocalDataSet";
        "filepath" := PStr "data/01_raw/cars.csv";
        "expectations_suite" := PStr "conf/base/expectations/cars.json" ]}
       : gmap string pyval)
    = match ({[ "cars" := PStr "conf/base/expectations/cars.json" ]}
               : gmap string pyval) !! "cars" with
      | Some suite => <["expectations_suite" := suite]> entry'
      | None => entry'
      end.
Proof.
  apply (scanners_lose_nothing Sample.project_context Sample.catalog
           (delete "expectations_suite" <$> Sample.catalog)
           {[ "cars" := PStr "conf/base/expectations/cars.json" ]}).
  - reflexivity.
  - by_evaluating.
  - by_evaluating.
  - by_evaluating.
Defined.

(** X2. Scanning a catalog that [remove_expectations_suite_from_catalog]
    has returned finds no suite, and stripping it again changes nothing. *)
Theorem stripped_catalog_has_no_suite (project_context stripped_context : KedroContext)
    (stripped : catalog_config) :
  remove_expectations_suite_from_catalog project_context = Ok stripped →
  get (config_loader stripped_context) ["catalog*"; "catalog*/**"] = Ok stripped →
  get_names_and_expectations_suite stripped_context = Ok ∅ ∧
  remove_expectations_suite_from_catalog stripped_context = Ok stripped.
Proof.
  intros Hstripped Hget.
  assert (∃ catalog, stripped = delete "expectations_suite" <$> catalog) as [catalog ->].
  { unfold remove_expectations_suite_from_catalog in Hstripped.
    destruct (get (config_loader project_context) _) as [catalog|] eqn:Hc; [|done].
    exists catalog.
    pose proof (stripper_lookup _ _ Hc) as Heq.
    unfold remove_expectations_suite_from_catalog in Heq. rewrite Hc in Heq.
    rewrite Heq in Hstripped. by injection Hstripped as <-. }
  split.
  - destruct (scanner_lookup _ _ Hget) as (suites & -> & Hlook). f_equal.
    apply map_eq. intros name. rewrite Hlook, lookup_fmap, lookup_empty.
    destruct (catalog !! name); cbn; [|done]. apply lookup_delete_eq.
  - rewrite (stripper_lookup _ _ Hget). f_equal. rewrite <- map_fmap_compose.
    apply map_fmap_ext. intros name entry _. cbn. apply delete_delete_eq.
Qed.

Lemma stripped_catalog_has_no_suite_witness :
  get_names_and_expectations_suite
    {| config_loader :=
         {| get := λ _, Ok (delete "expectations_suite" <$> Sample.catalog) |} |}
  = Ok ∅ ∧
  remove_expectations_suite_from_catalog
    {| config_loader :=
         {| get := λ _, Ok (delete "expectations_suite" <$> Sample.catalog) |} |}
  = Ok (delete "expectations_suite" <$> Sample.catalog).
Proof.
  apply (stripped_catalog_has_no_suite Sample.project_context).
  - by_evaluating.
  - reflexivity.
Defined.

(** ** More on the failure policy *)

(** X3. On a validation result that has its success flag and its
    statistics, [raise_on_failure] returns, having logged the statistics
    once, whenever the validation succeeded (at INFO level, in either mode)
    or [break_on_failure] is off (at WARNING level for a failed one); it
    leaves the file system alone. *)
Theorem raise_on_failure_returns (self : ExpectationsEvaluator)
    (validation success statistics : pyval) (w : world) :
  getitem validation "success" = Ok success →
  getitem validation "statistics" = Ok statistics →
  truthy success = true ∨ _break_on_failure self = false →
  raise_on_failure self validation w
  = (logged w (if truthy success then INFO else WARNING) (MsgStatistics statistics),
     Ok tt).
Proof.
  intros Hs Hst Hor. destruct (truthy success) eqn:Ht.
  - by apply (raise_on_failure_success self validation success).
  - destruct Hor as [|Hb]; [done|].
    by apply (raise_on_failure_lenient self validation success).
Qed.

Lemma raise_on_failure_returns_witness :
  raise_on_failure Sample.lenient Sample.column_failure Sample.project
  = (logged Sample.project WARNING
       (MsgStatistics (PDict {[ "evaluated_expectations" := PInt 2;
                                "successful_expectations" := PInt 1 ]})),
     Ok tt).
Proof.
  apply (raise_on_failure_returns Sample.lenient Sample.column_failure (PBool false)).
  - by_evaluating.
  - by_evaluating.
  - right. reflexivity.
Defined.

(** X4. When [raise_on_failure] ends in [FailedValidationException], then
    [break_on_failure] is on, the success flag of the result is false, the
    exception has no argument, and the last thing the method did was to log
    the dictionary of the failed expectations at ERROR level. *)
Theorem raise_on_failure_raises_after_logging (self : ExpectationsEvaluator)
    (validation : pyval) (w w' : world) (e : exn) :
  raise_on_failure self validation w = (w', Raise e) →
  exn_cls e = FailedValidationException →
  _break_on_failure self = true ∧
  (∃ success, getitem validation "success" = Ok success ∧ truthy success = false) ∧
  e = Exn FailedValidationException [] ∧
  ∃ failed, failed_validations validation = Ok failed ∧
            w' = logged w ERROR (MsgFailed failed).
Proof.
  intros Hrun Hcls. destruct e as [cls args]. cbn in Hcls. subst cls.
  pose proof Hrun as (Hb & (s & Hs & Ht) & (failed & Hf) & ->)%raise_on_failure_raises_only_if.
  rewrite (raise_on_failure_strict self validation s w Hb Hs Ht), Hf in Hrun.
  injection Hrun as <-. eauto 10.
Qed.

Lemma raise_on_failure_raises_after_logging_witness :
  _break_on_failure Sample.strict = true ∧
  (∃ success, getitem Sample.column_failure "success" = Ok success ∧
              truthy success = false) ∧
  Exn FailedValidationException [] = Exn FailedValidationException [] ∧
  ∃ failed, failed_validations Sample.column_failure = Ok failed ∧
            (raise_on_failure Sample.strict Sample.column_failure Sample.nothing_logged).1
            = logged Sample.nothing_logged ERROR (MsgFailed failed).
Proof.
  apply (raise_on_failure_raises_after_logging Sample.strict Sample.column_failure
           Sample.nothing_logged).
  - by_evaluating.
  - reflexivity.
Defined.

(** X5. Whatever the validation result and the mode, [raise_on_failure]
    never touches the file system and logs at most one record. *)
Theorem raise_on_failure_only_logs (self : ExpectationsEvaluator)
    (validation : pyval) (w : world) :
  w_fs (raise_on_failure self validation w).1 = w_fs w ∧
  ∃ new, w_trace (raise_on_failure self validation w).1 = w_trace w ++ new ∧
         (length new ≤ 1)%nat ∧
         ∀ ev, ev ∈ new → ∃ lvl msg, ev = EvLog "ExpectationsEvaluator" lvl msg.
Proof.
  unfold raise_on_failure, break_on_failure.
  destruct (getitem validation "success") as [success|e]; run.
  2: { destruct (_break_on_failure self); run; (split; [done|]); exists [];
         rewrite app_nil_r; repeat split; try done; cbn; try lia;
         by intros ev ?%elem_of_nil. }
  destruct (_break_on_failure self), (truthy success) eqn:Ht; run; rewrite ?Ht; run.
  all: destruct (getitem validation "statistics") as [statistics|e]; run.
  all: rewrite ?Ht; run.
  all: try destruct (failed_validations validation) as [failed|e']; run.
  all: split; [done|].
  all: try (eexists [_]; split; [reflexivity|]; split; [cbn; lia|];
            intros ev ->%list_elem_of_singleton; eauto).
  all: exists []; rewrite app_nil_r; repeat split; try done; cbn; try lia;
         by intros ev ?%elem_of_nil.
Qed.

(** X6. A validation result without a ["success"] entry makes
    [raise_on_failure] end in [KeyError("success")], in either mode and
    whatever else the result holds; nothing is logged. *)
Theorem raise_on_failure_without_success (self : ExpectationsEvaluator)
    (d : gmap string pyval) (w : world) :
  d !! "success" = None →
  raise_on_failure self (PDict d) w = (w, Raise (Exn KeyError [PStr "success"])).
Proof.
  intros Hd. unfold raise_on_failure, break_on_failure. cbn [getitem].
  rewrite (dict_getitem_None _ _ Hd). by destruct (_break_on_failure self).
Qed.

Lemma raise_on_failure_without_success_witness :
  raise_on_failure Sample.lenient Cases.no_success Sample.nothing_logged
  = (Sample.nothing_logged, Raise (Exn KeyError [PStr "success"])).
Proof.
  apply (raise_on_failure_without_success Sample.lenient).
  by_evaluating.
Defined.

(** X7. A validation result that passed but has no ["statistics"] entry
    makes [raise_on_failure] end in [KeyError("statistics")] although the
    validation succeeded; so does a failed one when [break_on_failure] is
    off.  Nothing is logged. *)
Theorem raise_on_failure_without_statistics (self : ExpectationsEvaluator)
    (d : gmap string pyval) (success : pyval) (w : world) :
  d !! "success" = Some success →
  d !! "statistics" = None →
  truthy success = true ∨ _break_on_failure self = false →
  raise_on_failure self (PDict d) w = (w, Raise (Exn KeyError [PStr "statistics"])).
Proof.
  intros Hs Hst Hor. unfold raise_on_failure, break_on_failure. cbn [getitem].
  rewrite (dict_getitem_Some _ _ _ Hs), (dict_getitem_None _ _ Hst).
  destruct (truthy success) eqn:Ht.
  - destruct (_break_on_failure self); run; by rewrite !Ht.
  - destruct Hor as [Hor|Hor]; [done|]. rewrite Hor. run. by rewrite !Ht.
Qed.

Lemma raise_on_failure_without_statistics_witness :
  raise_on_failure Sample.strict Cases.no_statistics Sample.nothing_logged
  = (Sample.nothing_logged, Raise (Exn KeyError [PStr "statistics"])).
Proof.
  apply (raise_on_failure_without_statistics Sample.strict _ (PBool true)).
  - by_evaluating.
  - by_evaluating.
  - left. reflexivity.
Defined.

(** X8. The only exceptions that [raise_on_failure] ends in are
    [FailedValidationException], without arguments, and the key and type
    errors of reading the validation result. *)
Theorem raise_on_failure_exceptions (self : ExpectationsEvaluator)
    (validation : pyval) (w w' : world) (e : exn) :
  raise_on_failure self validation w = (w', Raise e) →
  e = Exn FailedValidationException [] ∨ lookup_error e.
Proof.
  unfold raise_on_failure, break_on_failure.
  destruct (getitem validation "success") as [success|e0] eqn:Hs.
  2: { apply getitem_raises in Hs.
       destruct (_break_on_failure self); run; intros [= _ <-]; by right. }
  destruct (getitem validation "statistics") as [statistics|e1] eqn:Hst.
  2: apply getitem_raises in Hst.
  all: destruct (failed_validations validation) as [failed|e2] eqn:Hf.
  all: try apply failed_validations_raises in Hf.
  all: destruct (_break_on_failure self) eqn:Hb; run.
  all: destruct (truthy success) eqn:Ht; run; rewrite ?Ht; run.
  all: try discriminate.
  all: intros [= _ <-]; by (left + right).
Qed.

Lemma raise_on_failure_exceptions_witness :
  Exn KeyError [PStr "column"] = Exn FailedValidationException [] ∨
  lookup_error (Exn KeyError [PStr "column"]).
Proof.
  apply (raise_on_failure_exceptions Sample.strict Sample.table_failure
           Sample.nothing_logged Sample.nothing_logged).
  by_evaluating.
Defined.

(** *** One column for each failed expectation type *)

Lemma py_eqb_str_l k s : py_eqb (PStr s) k = true → k = PStr s.
Proof. destruct k; cbn; try done. by intros ->%String.eqb_eq. Qed.

Lemma py_eqb_refl_str s : py_eqb (PStr s) (PStr s) = true.
Proof. cbn. apply String.eqb_refl. Qed.

Lemma pydict_lookup_update d k v s :
  pydict_lookup (pydict_update d k v) (PStr s)
  = if py_eqb k (PStr s) then Some v else pydict_lookup d (PStr s).
Proof.
  induction d as [|[k' v'] d IH]; cbn.
  - done.
  - destruct (py_eqb k' k) eqn:Hk; cbn.
    + destruct (py_eqb k' (PStr s)) eqn:Hs.
      * apply py_eqb_str in Hs as ->. apply py_eqb_str_l in Hk as ->.
        by rewrite py_eqb_refl_str.
      * destruct (py_eqb k (PStr s)) eqn:Hks; [|done].
        apply py_eqb_str in Hks as ->. apply py_eqb_str in Hk as ->.
        by rewrite py_eqb_refl_str in Hs.
    + rewrite IH. destruct (py_eqb k' (PStr s)) eqn:Hs; [|done].
      destruct (py_eqb k (PStr s)) eqn:Hks; [|done].
      apply py_eqb_str in Hs as ->. apply py_eqb_str in Hks as ->.
      by rewrite py_eqb_refl_str in Hk.
Qed.

Lemma pydict_comp_last_column rs acc failed :
  pydict_comp result_failed result_expectation_type result_column rs acc = Ok failed →
  ∀ ty, pydict_lookup failed (PStr ty)
        = match last_failed_column rs ty with
          | Some column => Some column
          | None => pydict_lookup acc (PStr ty)
          end.
Proof.
  revert acc. induction rs as [|r rs IH]; intros acc Hcomp ty.
  - by injection Hcomp as <-.
  - cbn in Hcomp. cbn [last_failed_column].
    destruct (result_failed r) as [[]|] eqn:Hf; cbn in Hcomp; [| |done].
    + destruct (result_expectation_type r) as [k|] eqn:Hk; cbn in Hcomp; [|done].
      destruct (result_column r) as [c|] eqn:Hc; cbn in Hcomp; [|done].
      unfold pydict_setitem in Hcomp. destruct (hashable k); cbn in Hcomp; [|done].
      rewrite (IH _ Hcomp ty), pydict_lookup_update.
      by destruct (last_failed_column rs ty), (py_eqb k (PStr ty)).
    + rewrite (IH _ Hcomp ty). by destruct (last_failed_column rs ty).
Qed.

(** X9. The dictionary of failed expectations that [raise_on_failure]
    logs has one entry for each failed expectation type: when an
    expectation type failed on several columns, only the column of the last
    failed result of that type is kept, and a type that did not fail is not
    in the dictionary. *)
Theorem failed_validations_keeps_last_column
    (validation : pyval) (rs : list pyval) (failed : list (pyval * pyval)) :
  getitem validation "results" ≫= py_iter = Ok rs →
  failed_validations validation = Ok failed →
  ∀ ty, pydict_lookup failed (PStr ty) = last_failed_column rs ty.
Proof.
  intros Hrs Hfailed ty. unfold failed_validations in Hfailed.
  destruct (getitem validation "results") as [results|]; cbn in Hrs, Hfailed; [|done].
  rewrite Hrs in Hfailed. cbn in Hfailed.
  rewrite (pydict_comp_last_column _ _ _ Hfailed ty).
  by destruct (last_failed_column rs ty).
Qed.

Lemma failed_validations_keeps_last_column_witness :
  pydict_lookup [(PStr "expect_column_values_to_not_be_null", PStr "name")]
    (PStr "expect_column_values_to_not_be_null")
  = last_failed_column
      [Sample.column_result false "expect_column_values_to_not_be_null" "mpg";
       Sample.column_result true "expect_column_to_exist" "name";
       Sample.column_result false "expect_column_values_to_not_be_null" "name"]
      "expect_column_values_to_not_be_null".
Proof.
  apply (failed_validations_keeps_last_column Cases.two_columns).
  - by_evaluating.
  - by_evaluating.
Defined.

(** ** More on saving and copying *)

(** Nothing is at [k] when neither a file nor a directory is. *)
Lemma node_at_None fs k : file_at fs k = None → is_dir fs k = false → node_at fs k = None.
Proof. unfold file_at, is_dir. by destruct (node_at fs k) as [[c|es]|]. Qed.

Lemma existsb_agree {A} (f g : A → bool) (l : list A) :
  (∀ x, f x = g x) → existsb f l = existsb g l.
Proof. intros Hfg. induction l as [|x l IH]; [done|]. cbn. by rewrite Hfg, IH. Qed.

(** X10. A transformer whose suite path has no part (as the default [""]
    of the constructor, or ["."]) cannot name the file to copy: in a project
    that is in place, where building the data context changes nothing,
    [copy_expectations_to_great_expectations] ends in [IndexError] and
    leaves the file system as it is, and so does a load, after the wrapped
    callable has run. *)
Theorem copy_without_suite_name {data dataset context : Type}
    (env : Env data dataset context)
    (self : ExpectationsEvaluator) (fs : filesystem)
    (ctx : context) (filepath : string) (asset : NormalizedDataAssetName) :
  project_ready env self fs ctx filepath asset →
  parts (parse_path (_expectations_suite self)) = [] →
  (∀ path_to_expectations trace,
     copy_expectations_to_great_expectations env self path_to_expectations
       {| w_fs := fs; w_trace := trace |}
     = ({| w_fs := fs; w_trace := trace |}, Raise (Exn IndexError []))) ∧
  (∀ data_set_name load_callable fs0 trace d expectations_data,
     load_callable fs0 = (fs, Ok d) →
     PandasDataset env d = Ok expectations_data →
     load env self data_set_name load_callable {| w_fs := fs0; w_trace := trace |}
     = ({| w_fs := fs; w_trace := trace ++ [EvCall] |}, Raise (Exn IndexError []))).
Proof.
  intros Hready Hparts.
  assert (∀ path_to_expectations trace,
     copy_expectations_to_great_expectations env self path_to_expectations
       {| w_fs := fs; w_trace := trace |}
     = ({| w_fs := fs; w_trace := trace |}, Raise (Exn IndexError []))) as Hcopy.
  { intros path trace. set (w := {| w_fs := fs; w_trace := trace |}).
    pose proof (Hready : project_ready env self (w_fs w) ctx filepath asset) as Hw.
    unfold copy_expectations_to_great_expectations, expectations_suite.
    rewrite (bind_ok _ _ _ _ _ (kedro_dataset_path_ok env self w ctx filepath asset Hw)).
    rewrite (bind_ok _ _ _ _ _ (normalize_data_asset_ok env self w ctx filepath asset Hw)).
    rewrite (bind_ok _ _ _ _ _ (ge_data_context_ok env self w ctx filepath asset Hw)).
    unfold lift at 1. unfold mbind at 1, M_bind at 1. by rewrite Hparts. }
  split; [done|].
  intros name f fs0 trace d ed Hf Hed. unfold load.
  rewrite (bind_ok _ _ _ {| w_fs := fs; w_trace := trace ++ [EvCall] |} d)
    by (unfold call; cbn; by rewrite Hf).
  unfold lift at 1. unfold mbind at 1, M_bind at 1. rewrite Hed.
  by rewrite (bind_raise _ _ _ _ _ (Hcopy _ _)).
Qed.

Lemma defaults_project_ready :
  project_ready Sample.env Cases.defaults Sample.project_files Sample.project_ctx
    "data/01_raw/cars.csv" Sample.cars_asset.
Proof. exact sample_project_ready. Qed.

Lemma copy_without_suite_name_witness :
  (∀ path_to_expectations trace,
     copy_expectations_to_great_expectations Sample.env Cases.defaults path_to_expectations
       {| w_fs := Sample.project_files; w_trace := trace |}
     = ({| w_fs := Sample.project_files; w_trace := trace |}, Raise (Exn IndexError []))) ∧
  (∀ data_set_name load_callable fs0 trace d expectations_data,
     load_callable fs0 = (Sample.project_files, Ok d) →
     PandasDataset Sample.env d = Ok expectations_data →
     load Sample.env Cases.defaults data_set_name load_callable
       {| w_fs := fs0; w_trace := trace |}
     = ({| w_fs := Sample.project_files; w_trace := trace ++ [EvCall] |},
        Raise (Exn IndexError []))).
Proof.
  apply (copy_without_suite_name Sample.env Cases.defaults Sample.project_files
           Sample.project_ctx "data/01_raw/cars.csv" Sample.cars_asset).
  - apply defaults_project_ready.
  - reflexivity.
Defined.

(** X11. When nothing is at the path of the suite (a path that does not
    step back), [copy_expectations_to_great_expectations] ends in the error
    of opening it: [NotADirectoryError] when a file is on the way to it,
    [FileNotFoundError] otherwise.  The directory for the copy has been
    created all the same, as the source makes it before it copies, and no
    file has changed. *)
Theorem copy_of_missing_suite {data dataset context : Type}
    (env : Env data dataset context)
    (self : ExpectationsEvaluator) (path_to_expectations : string) (w : world)
    (ctx : context) (filepath filename : string)
    (asset : NormalizedDataAssetName) :
  project_ready env self (w_fs w) ctx filepath asset →
  asset_descends asset →
  last (names (parse_path (_expectations_suite self))) = Some filename →
  let src := os_path env (_expectations_suite self) in
  ".." ∉ src →
  let dir := asset_dir (ge_root env ctx ++ ["expectations"]) asset in
  node_at (w_fs w) src = None →
  src ∉ prefixes dir →
  unobstructed (w_fs w) dir →
  ∃ fs',
    copy_expectations_to_great_expectations env self path_to_expectations w
    = ({| w_fs := fs'; w_trace := w_trace w ++ [EvMkdir dir] |},
       raise (if existsb (is_file (w_fs w)) (prefixes src) then NotADirectoryError
              else FileNotFoundError)) ∧
    is_dir fs' dir = true ∧
    (∀ k, file_at fs' k = file_at (w_fs w) k).
Proof.
  intros Hready Hasset Hlast src Hback dir Hsrc Hsrcnew Hfree.
  destruct (copy_path_abs env self ctx filepath asset (w_fs w) Hready Hasset)
    as (_ & _ & _ & Hbdir & _).
  rewrite (copy_run env self path_to_expectations w ctx filepath filename asset) by done.
  fold src dir.
  destruct (mkdir_parents_ok (w_fs w) [] dir Hbdir (is_dir_nil _) Hfree)
    as (fs1 & Hmk & Hfiles & Hisdir & Hmono & Hnew).
  erewrite bind_ok by (apply performing_ok; exact Hmk).
  assert (node_at fs1 src = None) as Hsrc1.
  { apply node_at_None.
    - rewrite Hfiles. unfold file_at. by rewrite Hsrc.
    - destruct (is_dir fs1 src) eqn:Hd; [|done].
      apply Hnew in Hd as [Hd|Hd]; [|done].
      unfold is_dir in Hd. by rewrite Hsrc in Hd. }
  assert (existsb (is_file fs1) (prefixes src) = existsb (is_file (w_fs w)) (prefixes src))
    as Hsame.
  { apply existsb_agree. intros k. by rewrite !file_at_is_file, Hfiles. }
  exists fs1. split; [|done].
  erewrite performing_raise.
  2: { cbn [w_fs]. apply shutil_copy_missing; done. }
  by rewrite Hsame.
Qed.

Lemma missing_suite_project_ready :
  project_ready Sample.env Cases.missing_suite Sample.project_files Sample.project_ctx
    "data/01_raw/cars.csv" Sample.cars_asset.
Proof. exact sample_project_ready. Qed.

Lemma copy_of_missing_suite_witness :
  let dir := Sample.project_dir ++
               ["great_expectations"; "expectations"; "data"; "01_raw"; "cars.csv"] in
  ∃ fs',
    copy_expectations_to_great_expectations Sample.env Cases.missing_suite "" Sample.project
    = ({| w_fs := fs'; w_trace := [EvMkdir dir] |}, Raise (Exn FileNotFoundError [])) ∧
    is_dir fs' dir = true ∧
    (∀ k, file_at fs' k = file_at Sample.project_files k).
Proof.
  apply (copy_of_missing_suite Sample.env Cases.missing_suite "" Sample.project
           Sample.project_ctx "data/01_raw/cars.csv" "boats.json" Sample.cars_asset).
  - apply missing_suite_project_ready.
  - apply sample_asset_descends.
  - vm_compute. reflexivity.
  - by_computing.
  - vm_compute. reflexivity.
  - by_computing.
  - unfold unobstructed. rewrite <- Forall_forall. by_computing.
Defined.

(** A suite path that leads through a file of the sample project. *)
Example copy_of_suite_below_file :
  (copy_expectations_to_great_expectations Sample.env Cases.suite_below_file ""
     Sample.project).2
  = Raise (Exn NotADirectoryError []).
Proof. by_evaluating. Qed.

(** X12. When the name of the suite cannot be read from the validation
    result (no ["meta"] entry, no ["expectation_suite_name"] in it, or a
    name that is no string), [save_validations] ends in the error of that
    reading, before it has created any directory or file of its own: in a
    project that is in place, where building the data context changes
    nothing, the file system is as it was. *)
Theorem save_validations_without_suite_name {data dataset context : Type}
    (env : Env data dataset context) (self : ExpectationsEvaluator) (validation : pyval)
    (w : world) (ctx : context) (filepath : string)
    (asset : NormalizedDataAssetName) (e : exn) :
  project_ready env self (w_fs w) ctx filepath asset →
  (meta ← getitem validation "meta";
   name ← getitem meta "expectation_suite_name";
   py_add_str name ".json") = Raise e →
  save_validations env self validation w = (w, Raise e).
Proof.
  intros Hready Hname.
  unfold save_validations.
  rewrite (bind_ok _ _ _ _ _ (ge_data_context_ok env self w ctx filepath asset Hready)).
  rewrite (bind_ok _ _ _ _ _ (kedro_dataset_path_ok env self w ctx filepath asset Hready)).
  rewrite (bind_ok _ _ _ _ _ (normalize_data_asset_ok env self w ctx filepath asset Hready)).
  unfold lift at 1. unfold mbind at 1, M_bind at 1.
  destruct (getitem validation "meta") as [meta|e1]; cbn in Hname |- *.
  - destruct (getitem meta "expectation_suite_name") as [name|e2]; cbn in Hname |- *.
    + unfold mbind at 1, M_bind at 1. by rewrite Hname.
    + by injection Hname as <-.
  - by injection Hname as <-.
Qed.

Lemma save_validations_without_suite_name_witness :
  save_validations Sample.env Sample.strict Cases.no_meta Sample.project
  = (Sample.project, Raise (Exn KeyError [PStr "meta"])).
Proof.
  apply (save_validations_without_suite_name Sample.env Sample.strict Cases.no_meta
           Sample.project Sample.project_ctx "data/01_raw/cars.csv" Sample.cars_asset).
  - apply sample_project_ready.
  - vm_compute. reflexivity.
Defined.

(** X13. When a file stands where the directory of the validation result,
    or one of its ancestors, is to be, [save_validations] ends in
    [FileExistsError] (the file is at the directory's own place) or
    [NotADirectoryError] (it is at an ancestor's) and writes nothing. *)
Theorem save_validations_obstructed {data dataset context : Type}
    (env : Env data dataset context)
    (self : ExpectationsEvaluator) (validation : pyval) (w : world)
    (ctx : context) (filepath suite : string) (asset : NormalizedDataAssetName)
    (k : fskey) :
  project_ready env self (w_fs w) ctx filepath asset →
  (meta ← getitem validation "meta"; getitem meta "expectation_suite_name")
    = Ok (PStr suite) →
  descends (_run_id self) →
  asset_descends asset →
  let dir := asset_dir (ge_root env ctx ++ ["uncommitted"; "validations"]
                          ++ names (parse_path (_run_id self))) asset in
  is_dir (w_fs w) dir = false →
  k ∈ prefixes dir →
  is_file (w_fs w) k = true →
  save_validations env self validation w
  = (w, Raise (Exn (if is_file (w_fs w) dir then FileExistsError
                    else NotADirectoryError) [])).
Proof.
  intros Hready Hmeta Hrun Hasset dir Hnodir Hk Hfile.
  destruct (validations_location_abs env self ctx filepath asset (w_fs w) Hready Hrun Hasset)
    as (Habs & Hbase & Hnames & Hback).
  unfold save_validations.
  rewrite (bind_ok _ _ _ _ _ (ge_data_context_ok env self w ctx filepath asset Hready)).
  rewrite (bind_ok _ _ _ _ _ (kedro_dataset_path_ok env self w ctx filepath asset Hready)).
  rewrite (bind_ok _ _ _ _ _ (normalize_data_asset_ok env self w ctx filepath asset Hready)).
  unfold lift at 1. unfold mbind at 1, M_bind at 1. rewrite Hmeta.
  unfold lift at 1. unfold mbind at 1, M_bind at 1. cbn [py_add_str].
  apply bind_raise, performing_raise.
  unfold Path_mkdir. rewrite Hbase, Hnames.
  by apply (mkdir_parents_obstructed (w_fs w) [] _ k).
Qed.

Lemma obstructed_project_ready :
  project_ready Sample.env Sample.strict Cases.obstructed Sample.project_ctx
    "data/01_raw/cars.csv" Sample.cars_asset.
Proof.
  split; [vm_compute; reflexivity|]. split; [split; [done|by_computing]|].
  split; [|vm_compute; reflexivity].
  eexists _, _. split; [reflexivity|]. split; vm_compute; reflexivity.
Qed.

Lemma save_validations_obstructed_witness :
  save_validations Sample.env Sample.strict Sample.column_failure
    {| w_fs := Cases.obstructed; w_trace := [] |}
  = ({| w_fs := Cases.obstructed; w_trace := [] |},
     Raise (Exn NotADirectoryError [])).
Proof.
  apply (save_validations_obstructed Sample.env Sample.strict Sample.column_failure
           {| w_fs := Cases.obstructed; w_trace := [] |}
           Sample.project_ctx "data/01_raw/cars.csv" "default" Sample.cars_asset
           (Sample.project_dir
              ++ ["great_expectations"; "uncommitted"; "validations"; "run1"])).
  - apply obstructed_project_ready.
  - reflexivity.
  - split; [vm_compute; reflexivity|by_computing].
  - apply sample_asset_descends.
  - vm_compute. reflexivity.
  - by_computing.
  - vm_compute. reflexivity.
Defined.

Lemma validation_file_injective {data dataset context : Type}
    (env : Env data dataset context) ctx run1 run2 asset suite1 suite2 :
  validation_file env ctx run1 asset suite1 = validation_file env ctx run2 asset suite2 →
  names (parse_path run1) = names (parse_path run2).
Proof.
  unfold validation_file, asset_dir. intros Heq.
  apply app_inj_tail in Heq as [Heq _].
  rewrite !app_assoc in Heq. do 3 apply app_inv_tail in Heq.
  rewrite <- !app_assoc in Heq. by do 2 apply app_inv_head in Heq.
Qed.

(** X14. The results of different runs are kept apart: saving the
    validation result of a run writes its own file and leaves the result
    files of the same data asset under every other run identifier (a
    relative path that does not step back, as the run's own), whatever
    their suite, as they were. *)
Theorem results_of_other_runs_are_kept {data dataset context : Type}
    (env : Env data dataset context)
    (self : ExpectationsEvaluator) (validation : pyval) (w : world)
    (ctx : context) (filepath suite : string) (asset : NormalizedDataAssetName)
    (other_run other_suite : string) :
  project_ready env self (w_fs w) ctx filepath asset →
  (meta ← getitem validation "meta"; getitem meta "expectation_suite_name")
    = Ok (PStr suite) →
  descends (_run_id self) →
  asset_descends asset →
  contains "/" suite = false →
  unobstructed (w_fs w) (parent (validation_file env ctx (_run_id self) asset suite)) →
  is_dir (w_fs w) (validation_file env ctx (_run_id self) asset suite) = false →
  descends other_run →
  names (parse_path other_run) ≠ names (parse_path (_run_id self)) →
  ∃ w',
    save_validations env self validation w = (w', Ok tt) ∧
    file_at (w_fs w') (validation_file env ctx (_run_id self) asset suite)
    = Some (Json validation) ∧
    file_at (w_fs w') (validation_file env ctx other_run asset other_suite)
    = file_at (w_fs w) (validation_file env ctx other_run asset other_suite).
Proof.
  intros Hready Hmeta Hrun Hasset Hsuite Hfree Hnodir Hdesc Hother.
  unfold validation_file in Hfree at 1. rewrite parent_snoc in Hfree.
  destruct (save_validations_ok env self validation w ctx filepath suite asset
              Hready Hmeta Hrun Hasset Hsuite Hfree Hnodir)
    as (fs' & Hrun' & Hfile & _ & Hframe).
  eexists. split; [exact Hrun'|]. split; [exact Hfile|].
  apply Hframe. intros Heq. apply Hother.
  by apply (validation_file_injective env ctx _ _ asset other_suite suite).
Qed.

Lemma second_run_project_ready :
  project_ready Sample.env Cases.second_run Cases.after_first_run Sample.project_ctx
    "data/01_raw/cars.csv" Sample.cars_asset.
Proof.
  split; [vm_compute; reflexivity|]. split; [split; [done|by_computing]|].
  split; [|vm_compute; reflexivity].
  eexists _, _. split; [reflexivity|]. split; vm_compute; reflexivity.
Qed.

Lemma results_of_other_runs_are_kept_witness :
  file_at Cases.after_first_run
    (validation_file Sample.env Sample.project_ctx "run1" Sample.cars_asset "default")
  = Some (Json Sample.passing) ∧
  ∃ w',
    save_validations Sample.env Cases.second_run Sample.column_failure
      {| w_fs := Cases.after_first_run; w_trace := [] |}
    = (w', Ok tt) ∧
    file_at (w_fs w')
      (validation_file Sample.env Sample.project_ctx "run2" Sample.cars_asset "default")
    = Some (Json Sample.column_failure) ∧
    file_at (w_fs w')
      (validation_file Sample.env Sample.project_ctx "run1" Sample.cars_asset "default")
    = file_at Cases.after_first_run
        (validation_file Sample.env Sample.project_ctx "run1" Sample.cars_asset "default").
Proof.
  split; [vm_compute; reflexivity|].
  apply (results_of_other_runs_are_kept Sample.env Cases.second_run Sample.column_failure
           {| w_fs := Cases.after_first_run; w_trace := [] |}
           Sample.project_ctx "data/01_raw/cars.csv" "default"
           Sample.cars_asset "run1" "default").
  - apply second_run_project_ready.
  - reflexivity.
  - split; [vm_compute; reflexivity|by_computing].
  - apply sample_asset_descends.
  - reflexivity.
  - unfold unobstructed. rewrite <- Forall_forall. by_computing.
  - vm_compute. reflexivity.
  - split; [vm_compute; reflexivity|by_computing].
  - by_computing.
Defined.

(** ** More on load and save *)

(** X15. A load that returns, returns the data that the wrapped load
    callable returned, unchanged. *)
Theorem load_returns_loaded_data {data dataset context : Type}
    (env : Env data dataset context)
    (self : ExpectationsEvaluator) (data_set_name : string)
    (load_callable : filesystem → filesystem * result data)
    (w w' : world) (d : data) :
  load env self data_set_name load_callable w = (w', Ok d) →
  ∃ fs1, load_callable (w_fs w) = (fs1, Ok d).
Proof.
  intros Hrun. unfold load in Hrun.
  apply bind_ok_inv in Hrun as (w1 & d0 & Hcall & Hrun).
  do 6 (apply bind_ok_inv in Hrun as (? & ? & _ & Hrun)).
  injection Hrun as _ <-.
  unfold call in Hcall. destruct (load_callable (w_fs w)) as [fs1 r].
  injection Hcall as _ ->. eauto.
Qed.

Lemma load_returns_loaded_data_witness :
  ∃ fs1, (λ fs : filesystem, (fs, Ok (PInt 7))) Sample.project_files
         = (fs1, Ok (PInt 7)).
Proof.
  apply (load_returns_loaded_data Cases.values_env Sample.lenient "cars"
           (λ fs, (fs, Ok (PInt 7))) Sample.project
           (load Cases.values_env Sample.lenient "cars"
              (λ fs, (fs, Ok (PInt 7))) Sample.project).1).
  transitivity
    ((load Cases.values_env Sample.lenient "cars"
        (λ fs, (fs, Ok (PInt 7))) Sample.project).1,
     (load Cases.values_env Sample.lenient "cars"
        (λ fs, (fs, Ok (PInt 7))) Sample.project).2).
  - apply surjective_pairing.
  - apply (f_equal (pair _)). by_evaluating.
Defined.

(** X16. A dataset that has no file path (one kept in memory, say) cannot
    be validated: the dataset is loaded, and then load ends in
    [KeyError("_filepath")] without having copied or validated anything;
    for a dataset that the catalog does not know it is the key error of
    the dataset's name. *)
Theorem load_of_dataset_without_file_path {data dataset context : Type}
    (env : Env data dataset context)
    (self : ExpectationsEvaluator) (data_set_name : string)
    (load_callable : filesystem → filesystem * result data) (w : world)
    (fs1 : filesystem) (d : data) (expectations_data : dataset)
    (datasets : gmap string (gmap string pyval)) :
  load_callable (w_fs w) = (fs1, Ok d) →
  PandasDataset env d = Ok expectations_data →
  kedro_datasets env fs1 = Ok datasets →
  (datasets !! _kedro_dataset_name self) ≫= (.!! "_filepath") = None →
  load env self data_set_name load_callable w
  = ({| w_fs := fs1; w_trace := w_trace w ++ [EvCall] |},
     Raise (Exn KeyError [PStr (match datasets !! _kedro_dataset_name self with
                                | Some _ => "_filepath"
                                | None => _kedro_dataset_name self
                                end)])).
Proof.
  intros Hf Hed Hds Hpath. unfold load.
  rewrite (bind_ok _ _ _ {| w_fs := fs1; w_trace := w_trace w ++ [EvCall] |} d)
    by (unfold call; by rewrite Hf).
  unfold lift at 1. unfold mbind at 1, M_bind at 1. rewrite Hed.
  apply bind_raise. unfold copy_expectations_to_great_expectations.
  apply bind_raise. unfold kedro_dataset_path, kedro_dataset_name.
  unfold reading at 1. unfold mbind at 1, M_bind at 1. cbn [w_fs]. rewrite Hds.
  unfold lift at 1. unfold mbind at 1, M_bind at 1.
  destruct (datasets !! _kedro_dataset_name self) as [attributes|] eqn:Hname;
    cbn in Hpath.
  - rewrite (dict_getitem_Some _ _ _ Hname). unfold lift.
    by rewrite (dict_getitem_None _ _ Hpath).
  - by rewrite (dict_getitem_None _ _ Hname).
Qed.

Lemma load_of_dataset_without_file_path_witness :
  load Cases.memory_env Sample.strict "cars" (λ fs, (fs, Ok tt)) Sample.project
  = ({| w_fs := Sample.project_files; w_trace := [EvCall] |},
     Raise (Exn KeyError [PStr "_filepath"])).
Proof.
  vm_cast_no_check
    (load_of_dataset_without_file_path Cases.memory_env Sample.strict "cars"
       (λ fs, (fs, Ok tt)) Sample.project Sample.project_files tt tt
       {[ "cars" := {[ "_data" := PNone ]} ]}
       eq_refl eq_refl eq_refl ltac:(by_evaluating)).
Defined.

(** ** More on the setup helper *)

(** X17. Without a data directory the setup helper cannot be constructed:
    in a project whose marker file exists the data context is built, and
    then the construction ends in [FileNotFoundError] (in
    [NotADirectoryError] when [data], or what is to be a directory on the
    way to it, is a file) before the datasources are cleared.  Nothing is
    logged and the project is left as the building of the data context
    left it. *)
Theorem ExpectationsSetup_without_data_directory {data dataset context : Type}
    (env : Env data dataset context) (w : world) (fs1 : filesystem) (ctx : context) :
  Path_is_file env (w_fs w) (ge_marker env) = true →
  DataContext env (Path_cwd env // "great_expectations") (w_fs w) = (fs1, Ok ctx) →
  ".." ∉ data_dir env →
  is_dir fs1 (data_dir env) = false →
  ExpectationsSetup env w
  = ({| w_fs := fs1; w_trace := w_trace w |},
     raise (if existsb (is_file fs1) (prefixes (data_dir env)) then NotADirectoryError
            else FileNotFoundError)).
Proof.
  intros Hmarker Hctx Hback Hnodir. unfold ExpectationsSetup.
  rewrite (bind_ok _ _ _ _ _ (create_ge_project_present env w Hmarker)).
  apply (setup_datasources_no_listing env w fs1 ctx); [done|].
  unfold Path_iterdir. by apply listdir_not_dir.
Qed.

Lemma ExpectationsSetup_without_data_directory_witness :
  ExpectationsSetup Sample.env {| w_fs := Cases.no_data_dir; w_trace := [] |}
  = ({| w_fs := Cases.no_data_dir; w_trace := [] |}, Raise (Exn NotADirectoryError [])).
Proof.
  apply (ExpectationsSetup_without_data_directory Sample.env
           {| w_fs := Cases.no_data_dir; w_trace := [] |} Cases.no_data_dir
           Sample.project_ctx).
  - vm_compute. reflexivity.
  - vm_compute. reflexivity.
  - by_computing.
  - vm_compute. reflexivity.
Defined.

(** X19. Where the project marker file does not exist, [create_ge_project]
    logs that it builds the project directory, at INFO level and with the
    logger named after the class, and then has the library create the
    project in the working directory.  It does nothing else: the file
    system is as that call leaves it, and an exception of the call is the
    method's. *)
Theorem create_ge_project_builds {data dataset context : Type}
    (env : Env data dataset context) (w : world) (fs' : filesystem)
    (r : result context) :
  Path_is_file env (w_fs w) (ge_marker env) = false →
  DataContext_create env (Path_cwd env) (w_fs w) = (fs', r) →
  create_ge_project env w
  = ({| w_fs := fs';
        w_trace := w_trace w ++ [EvLog "ExpectationsSetup" INFO MsgBuilding] |},
     _ ← r; Ok tt).
Proof.
  intros Hmarker Hcreate. rewrite create_ge_project_absent by done.
  unfold log, emit, library, mbind at 1 2, M_bind at 1 2. cbn [w_fs w_trace].
  rewrite Hcreate. by destruct r.
Qed.

Lemma create_ge_project_builds_witness :
  ∃ fs' ctx,
    create_ge_project Sample.env {| w_fs := Cases.new_project; w_trace := [] |}
    = ({| w_fs := fs'; w_trace := [EvLog "ExpectationsSetup" INFO MsgBuilding] |}, Ok tt) ∧
    DataContext_create Sample.env (Path_cwd Sample.env) Cases.new_project = (fs', Ok ctx) ∧
    Path_is_file Sample.env fs' (ge_marker Sample.env) = true.
Proof.
  exists (DataContext_create Sample.env (Path_cwd Sample.env) Cases.new_project).1,
    {| Sample.ctx_root := "/home/kedro/project/great_expectations";
       Sample.ctx_config := Sample.default_config;
       Sample.ctx_built := [] |}.
  assert (DataContext_create Sample.env (Path_cwd Sample.env) Cases.new_project
          = ((DataContext_create Sample.env (Path_cwd Sample.env) Cases.new_project).1,
             Ok {| Sample.ctx_root := "/home/kedro/project/great_expectations";
                   Sample.ctx_config := Sample.default_config;
                   Sample.ctx_built := [] |})) as Hcreate.
  { transitivity ((DataContext_create Sample.env (Path_cwd Sample.env) Cases.new_project).1,
                  (DataContext_create Sample.env (Path_cwd Sample.env) Cases.new_project).2).
    - apply surjective_pairing.
    - apply (f_equal (pair _)). by_evaluating. }
  split; [|split; [exact Hcreate|by_evaluating]].
  apply (create_ge_project_builds Sample.env
           {| w_fs := Cases.new_project; w_trace := [] |}
           (DataContext_create Sample.env (Path_cwd Sample.env) Cases.new_project).1
           (Ok {| Sample.ctx_root := "/home/kedro/project/great_expectations";
                  Sample.ctx_config := Sample.default_config;
                  Sample.ctx_built := [] |})).
  - vm_compute. reflexivity.
  - exact Hcreate.
Defined.

(** X20. The generators that the setup helper makes follow the data
    directory, whose entries have the names of single path components: one
    generator for each subdirectory, named after it and reading from
    [data/<name>]; files are passed over; and when the data directory has
    no subdirectory a single generator ["data"] that reads from [data]. *)
Theorem create_generators_follow_subdirectories {data dataset context : Type}
    (env : Env data dataset context) (w : world) (entries : gmap string node) :
  ".." ∉ data_dir env →
  node_at (w_fs w) (data_dir env) = Some (Dir entries) →
  (∀ n, is_Some (entries !! n) → plain n ∧ n ≠ "..") →
  ∃ generators,
    create_generators env w = (w, Ok generators) ∧
    ((∀ n, subdirectory entries n = false) →
     generators = {[ "data" := subdir_reader_generator "data" ]}) ∧
    ((∃ n, subdirectory entries n = true) →
     ∀ n, generators !! n =
          if subdirectory entries n
          then Some (subdir_reader_generator ("data/" +:+ n))
          else None).
Proof.
  intros Hback Hnode Hnames.
  destruct (create_generators_on_spec env (w_fs w) entries Hback Hnode Hnames)
    as (g & Hg & Hnone & Hsome).
  exists g. split; [|done]. unfold create_generators, reading. by rewrite Hg.
Qed.

Lemma create_generators_follow_subdirectories_witness :
  ∃ generators,
    create_generators Sample.env Sample.project = (Sample.project, Ok generators) ∧
    ((∀ n, subdirectory Sample.data_files n = false) →
     generators = {[ "data" := subdir_reader_generator "data" ]}) ∧
    ((∃ n, subdirectory Sample.data_files n = true) →
     ∀ n, generators !! n =
          if subdirectory Sample.data_files n
          then Some (subdir_reader_generator ("data/" +:+ n))
          else None).
Proof.
  apply (create_generators_follow_subdirectories Sample.env Sample.project
           Sample.data_files).
  - by_computing.
  - vm_compute. reflexivity.
  - intros n Hn.
    assert (n ∈ dict_keys Sample.data_files) as Hin by by apply elem_of_dict_keys.
    clear Hn. revert n Hin. apply Forall_forall. by_computing.
Defined.

